(** * IndexedDbClient: a shallow embedding of [src/indexed-db-client.ts]

    The client is a thin query layer over the browser's IndexedDB engine.
    The development has three layers:

    - the values the client passes around (keys, key ranges, records);
    - a model of the host engine as far as the client drives it (object
      stores with an in-line key path and a key generator, secondary
      indexes, [getAll], cursors, [put], [delete], opening and deleting a
      database);
    - the client itself ([IndexedDbClient]), one definition per method of
      the class, written over explicit client and host state.

    JavaScript numbers are modelled by [Z]: keys generated by the engine and
    the counters of the client are integers.

    An asynchronous method of the client is a function from the client and
    the host to its promise as settled and the client and the host at that
    moment.  [init] settles its promise inside the upgrade when there is
    one; what the engine does afterwards is a step of its own
    ([upgrade_completed]). *)

From Stdlib Require Import ZArith Lia String Ascii List Sorted.
From Stdlib Require OrderedTypeEx.
From stdpp Require Import base option list strings gmap sorting.

Local Open Scope string_scope.
Local Open Scope list_scope.

(** ** Values *)

(** A valid IndexedDB key: a number, a date or a string (array and binary
    keys are not used by the client and are left out). *)
Inductive Key : Type :=
| KNumber (n : Z)
| KDate (t : Z)
| KString (s : string).

#[global] Instance Key_eq_dec : EqDecision Key.
Proof. solve_decision. Defined.

(** A property value of a record: either a value that is a valid key, or
    one of the values that is not. *)
Inductive JSValue : Type :=
| JUndefined
| JNull
| JBoolean (b : bool)
| JKey (k : Key).

#[global] Instance JSValue_eq_dec : EqDecision JSValue.
Proof. solve_decision. Defined.

(** A record is a JavaScript object used as a property map. *)
Abbreviation JSObject := (gmap string JSValue).

(** JavaScript truthiness of a key value: [0] and the empty string are
    falsy. *)
Definition key_truthy (k : Key) : bool :=
  match k with
  | KNumber n => negb (n =? 0)%Z
  | KDate _ => true
  | KString s => negb (String.eqb s EmptyString)
  end.

(** The engine's order on keys: Number < Date < String, and the natural
    order inside each type. *)
Definition key_rank (k : Key) : nat :=
  match k with KNumber _ => 0 | KDate _ => 1 | KString _ => 2 end.

Definition key_compare (a b : Key) : comparison :=
  match a, b with
  | KNumber x, KNumber y => Z.compare x y
  | KDate x, KDate y => Z.compare x y
  | KString x, KString y => String.compare x y
  | _, _ => Nat.compare (key_rank a) (key_rank b)
  end.

(** ** Key ranges *)

Record IDBKeyRange : Type := {
  lower : option Key;
  upper : option Key;
  lowerOpen : bool;
  upperOpen : bool
}.

Module KeyRange.
Definition only (k : Key) : IDBKeyRange :=
  {| lower := Some k; upper := Some k; lowerOpen := false; upperOpen := false |}.
Definition lowerBound (k : Key) (open : bool) : IDBKeyRange :=
  {| lower := Some k; upper := None; lowerOpen := open; upperOpen := true |}.
Definition upperBound (k : Key) (open : bool) : IDBKeyRange :=
  {| lower := None; upper := Some k; lowerOpen := true; upperOpen := open |}.
Definition unbounded : IDBKeyRange :=
  {| lower := None; upper := None; lowerOpen := true; upperOpen := true |}.
End KeyRange.

Definition includes (r : IDBKeyRange) (k : Key) : bool :=
  match lower r with
  | None => true
  | Some l =>
      match key_compare l k with
      | Lt => true
      | Eq => negb (lowerOpen r)
      | Gt => false
      end
  end
  &&
  match upper r with
  | None => true
  | Some u =>
      match key_compare k u with
      | Lt => true
      | Eq => negb (upperOpen r)
      | Gt => false
      end
  end.

(** The [value] of a selection descriptor: [IDBKeyRange | number | string]. *)
Inductive Query : Type :=
| QKey (k : Key)
| QRange (r : IDBKeyRange).

(** JavaScript truthiness of a descriptor value: a range is an object. *)
Definition query_truthy (q : Query) : bool :=
  match q with
  | QKey k => key_truthy k
  | QRange _ => true
  end.

(** The engine's conversion of an optional query into a key range. *)
Definition query_range (q : option Query) : IDBKeyRange :=
  match q with
  | None => KeyRange.unbounded
  | Some (QKey k) => KeyRange.only k
  | Some (QRange r) => r
  end.

(** ** Failures and promises *)

(** What a call can throw. *)
Inductive Exception : Type :=
| Error (message : string)         (* [throw new Error(message)] *)
| DOMException (name : string)     (* thrown by an engine call *)
| TypeError.                       (* a [TypeError] of the engine or of the language *)

(** What a promise can be rejected with. *)
Inductive Failure : Type :=
| Thrown (x : Exception)           (* an exception thrown in the async function *)
| ErrorEvent (name : string)       (* the error event of a request, given to [reject] *)
| Reason (text : string).          (* [reject('...')] with a plain string *)

Inductive Promise (T : Type) : Type :=
| Pending
| Resolved (v : T)
| Rejected (e : Failure).
Arguments Pending {T}.
Arguments Resolved {T} v.
Arguments Rejected {T} e.

(** Settling a promise a second time has no effect. *)
Definition resolve {T} (v : T) (p : Promise T) : Promise T :=
  match p with Pending => Resolved v | _ => p end.
Definition reject {T} (e : Failure) (p : Promise T) : Promise T :=
  match p with Pending => Rejected e | _ => p end.

(** The outcome of one engine request: its success or its error event. *)
Inductive IDBRequest (T : Type) : Type :=
| RequestSuccess (result : T)
| RequestError (name : string).
Arguments RequestSuccess {T} result.
Arguments RequestError {T} name.

(** ** The engine: object stores and indexes *)

Record IDBIndex : Type := {
  ix_name : string;
  ix_keyPath : string;
  ix_unique : bool
}.

Record IDBObjectStore : Type := {
  os_keyPath : string;
  os_autoIncrement : bool;
  os_generator : Z;                      (* the key generator's current number *)
  os_records : list (Key * JSObject);    (* ascending by key *)
  os_indexes : list IDBIndex
}.

(** What a cursor or [getAll] walks over: a key, the primary key of the
    record and the record. *)
Record Entry : Type := {
  e_key : Key;
  e_primaryKey : Key;
  e_value : JSObject
}.

Definition entry_compare (a b : Entry) : comparison :=
  match key_compare (e_key a) (e_key b) with
  | Eq => key_compare (e_primaryKey a) (e_primaryKey b)
  | c => c
  end.

Definition entry_leb (a b : Entry) : bool :=
  match entry_compare a b with Gt => false | _ => true end.

Fixpoint insert_entry (e : Entry) (l : list Entry) : list Entry :=
  match l with
  | [] => [e]
  | x :: t => if entry_leb e x then e :: l else x :: insert_entry e t
  end.

Fixpoint sort_entries (l : list Entry) : list Entry :=
  match l with
  | [] => []
  | e :: t => insert_entry e (sort_entries t)
  end.

(** *** Key paths *)

(** A key path is the empty string or identifiers separated by periods.
    The strings of the model are ASCII: an identifier starts with a letter,
    [$] or [_] and goes on with letters, digits, [$] and [_]. *)
Definition identifier_start (a : ascii) : bool :=
  let n := nat_of_ascii a in
  (((65 <=? n) && (n <=? 90)) || ((97 <=? n) && (n <=? 122)) ||
   (n =? 36) || (n =? 95))%nat.

Definition identifier_part (a : ascii) : bool :=
  let n := nat_of_ascii a in
  identifier_start a || ((48 <=? n) && (n <=? 57))%nat.

Fixpoint identifier_rest (s : string) : bool :=
  match s with
  | EmptyString => true
  | String a rest => identifier_part a && identifier_rest rest
  end.

Definition is_identifier (s : string) : bool :=
  match s with
  | EmptyString => false
  | String a rest => identifier_start a && identifier_rest rest
  end.

(** The parts of a path between its periods. *)
Fixpoint identifiers (path : string) : list string :=
  match path with
  | EmptyString => [EmptyString]
  | String a rest =>
      if Ascii.eqb a "." then EmptyString :: identifiers rest
      else match identifiers rest with
           | i :: others => String a i :: others
           | [] => [String a EmptyString]
           end
  end.

Definition valid_key_path (path : string) : bool :=
  String.eqb path EmptyString || forallb is_identifier (identifiers path).

(** A step of the evaluation below the record.  Of the property values of
    the model only a string has a property the engine reads, its [length];
    numbers, booleans and [null] are no objects and a date has no own
    properties. *)
Definition value_property (identifier : string) (v : JSValue) : option JSValue :=
  match v with
  | JKey (KString s) =>
      if String.eqb identifier "length"
      then Some (JKey (KNumber (Z.of_nat (String.length s))))
      else None
  | _ => None
  end.

(** Evaluating a key path on a record and converting the result to a key.
    The empty path yields the record itself, which is no key; a missing
    property or a value that is no key yields no key. *)
Definition extract_key (path : string) (v : JSObject) : option Key :=
  if String.eqb path EmptyString then None
  else
    match identifiers path with
    | [] => None
    | first :: rest =>
        match fold_left (fun (o : option JSValue) (i : string) => o ≫= value_property i)
                rest (v !! first) with
        | Some (JKey k) => Some k
        | _ => None
        end
    end.

Definition store_entry (kv : Key * JSObject) : Entry :=
  {| e_key := kv.1; e_primaryKey := kv.1; e_value := kv.2 |}.

Definition index_entry (ix : IDBIndex) (kv : Key * JSObject) : option Entry :=
  match extract_key (ix_keyPath ix) kv.2 with
  | Some k => Some {| e_key := k; e_primaryKey := kv.1; e_value := kv.2 |}
  | None => None
  end.

Definition store_entries (os : IDBObjectStore) : list Entry :=
  List.map store_entry (os_records os).

(** The records of an index: one entry per record whose indexed property is
    a valid key, ascending by index key and then by primary key. *)
Definition index_entries (ix : IDBIndex) (os : IDBObjectStore) : list Entry :=
  sort_entries (omap (index_entry ix) (os_records os)).

(** [IDBObjectStore] and [IDBIndex] both offer [getAll] and [openCursor]. *)
Inductive Source : Type :=
| StoreSource (os : IDBObjectStore)
| IndexSource (os : IDBObjectStore) (ix : IDBIndex).

Definition source_entries (src : Source) : list Entry :=
  match src with
  | StoreSource os => store_entries os
  | IndexSource os ix => index_entries ix os
  end.

Definition in_range (r : IDBKeyRange) (e : Entry) : bool := includes r (e_key e).

(** [getAll(query, count)]: [count] is an [unsigned long] with
    [EnforceRange]; [0] or no count means no limit. *)
Definition getAll (src : Source) (query : option Query) (count : option Z)
  : Exception + list JSObject :=
  let found := List.map e_value (List.filter (in_range (query_range query)) (source_entries src)) in
  match count with
  | None => inr found
  | Some n =>
      if ((n <? 0) || (4294967295 <? n))%Z then inl TypeError
      else if (n =? 0)%Z then inr found
      else inr (firstn (Z.to_nat n) found)
  end.

Inductive Direction : Type := Next | Prev.

(** Whether entry [e] lies strictly beyond position [pos] in direction [dir]. *)
Definition beyond (dir : Direction) (pos : option Entry) (e : Entry) : bool :=
  match pos with
  | None => true
  | Some p =>
      match dir with
      | Next => match entry_compare p e with Lt => true | _ => false end
      | Prev => match entry_compare e p with Lt => true | _ => false end
      end
  end.

(** Iterating a cursor: the first entry of the source, in the cursor's
    direction, that is in range and beyond the cursor's position. *)
Definition iterate_cursor (entries : list Entry) (r : IDBKeyRange)
    (dir : Direction) (pos : option Entry) : option Entry :=
  let wanted e := in_range r e && beyond dir pos e in
  match dir with
  | Next => List.find wanted entries
  | Prev => List.find wanted (rev entries)
  end.

(** *** Writing to an object store *)

Inductive Mode : Type := ReadOnly | ReadWrite.

(** Storing a record under its key: the record with an equal key is replaced. *)
Fixpoint store_put (k : Key) (v : JSObject) (l : list (Key * JSObject))
  : list (Key * JSObject) :=
  match l with
  | [] => [(k, v)]
  | (k', v') :: t =>
      match key_compare k k' with
      | Lt => (k, v) :: l
      | Eq => (k, v) :: t
      | Gt => (k', v') :: store_put k v t
      end
  end.

(** A unique index refuses a record whose index key is already held by a
    record with another primary key. *)
Definition violates (pk : Key) (v : JSObject) (records : list (Key * JSObject))
    (ix : IDBIndex) : bool :=
  ix_unique ix &&
  match extract_key (ix_keyPath ix) v with
  | None => false
  | Some ik =>
      existsb (fun kv : Key * JSObject =>
                 negb (bool_decide (kv.1 = pk)) &&
                 bool_decide (extract_key (ix_keyPath ix) kv.2 = Some ik))
              records
  end.

Definition max_generated : Z := 9007199254740992.   (* 2^53 *)

(** [store.put(value)] on a store with an in-line key whose key path is
    the name of a property, as "id" in the stores of the client.  The key is
    taken from the record or, failing that, from the key generator, which
    then writes it into the record.  A synchronous exception is the left result;
    otherwise the request completes with the key or with an error event, in
    which case the transaction is aborted and the store is as before.
    [failing] is the host reporting an error event for the request for
    reasons of its own. *)
Definition put (mode : Mode) (failing : bool) (value : JSObject) (os : IDBObjectStore)
  : Exception + (IDBRequest Key * IDBObjectStore) :=
  match mode with
  | ReadOnly => inl (DOMException "ReadOnlyError")
  | ReadWrite =>
      let stored (k : Key) (v : JSObject) (gen : Z) :=
        if failing then (RequestError "UnknownError", os)
        else if existsb (violates k v (os_records os)) (os_indexes os)
        then (RequestError "ConstraintError", os)
        else (RequestSuccess k,
              {| os_keyPath := os_keyPath os;
                 os_autoIncrement := os_autoIncrement os;
                 os_generator := gen;
                 os_records := store_put k v (os_records os);
                 os_indexes := os_indexes os |}) in
      let generated :=
        if negb (os_autoIncrement os) then inl (DOMException "DataError")
        else if (max_generated <? os_generator os)%Z
        then inr (RequestError "ConstraintError", os)
        else inr (stored (KNumber (os_generator os))
                         (<[os_keyPath os := JKey (KNumber (os_generator os))]> value)
                         (os_generator os + 1)%Z) in
      match value !! os_keyPath os with
      | None | Some JUndefined => generated
      | Some (JKey k) =>
          inr (stored k value
                 match k with
                 | KNumber n =>
                     if os_autoIncrement os && (os_generator os <=? n)%Z
                     then (n + 1)%Z else os_generator os
                 | _ => os_generator os
                 end)
      | Some _ => inl (DOMException "DataError")
      end
  end.

Definition delete_records (r : IDBKeyRange) (records : list (Key * JSObject))
  : list (Key * JSObject) :=
  List.filter (fun kv : Key * JSObject => negb (includes r kv.1)) records.

Definition with_records (os : IDBObjectStore) (records : list (Key * JSObject))
  : IDBObjectStore :=
  {| os_keyPath := os_keyPath os;
     os_autoIncrement := os_autoIncrement os;
     os_generator := os_generator os;
     os_records := records;
     os_indexes := os_indexes os |}.

(** [store.delete(query)]: removes the records whose key is in the range. *)
Definition store_delete (mode : Mode) (failing : bool) (query : option Query)
    (os : IDBObjectStore) : Exception + (IDBRequest unit * IDBObjectStore) :=
  match mode, query with
  | ReadOnly, _ => inl (DOMException "ReadOnlyError")
  | ReadWrite, None => inl (DOMException "DataError")
  | ReadWrite, Some _ =>
      if failing then inr (RequestError "UnknownError", os)
      else inr (RequestSuccess tt,
                with_records os (delete_records (query_range query) (os_records os)))
  end.

(** [cursor.delete()]: removes the record at the cursor's primary key. *)
Definition cursor_delete (e : Entry) (os : IDBObjectStore) : IDBObjectStore :=
  with_records os (delete_records (KeyRange.only (e_primaryKey e)) (os_records os)).

(** [IDBKeyRange.only(value)] throws unless the value is a valid key. *)
Definition IDBKeyRange_only (value : option Query) : Exception + IDBKeyRange :=
  match value with
  | Some (QKey k) => inr (KeyRange.only k)
  | _ => inl (DOMException "DataError")
  end.

(** [store.index(name)] *)
Definition store_index (name : string) (os : IDBObjectStore) : Exception + IDBIndex :=
  match List.find (fun ix => String.eqb (ix_name ix) name) (os_indexes os) with
  | Some ix => inr ix
  | None => inl (DOMException "NotFoundError")
  end.

(** [store.createIndex(name, keyPath, { unique })] on a store handed out
    by [createObjectStore], inside the upgrade: the name must be new and the
    key path valid. *)
Definition createIndex (name keyPath : string) (unique : bool) (os : IDBObjectStore)
  : Exception + IDBObjectStore :=
  if existsb (fun ix => String.eqb (ix_name ix) name) (os_indexes os)
  then inl (DOMException "ConstraintError")
  else if negb (valid_key_path keyPath) then inl (DOMException "SyntaxError")
  else inr {| os_keyPath := os_keyPath os;
              os_autoIncrement := os_autoIncrement os;
              os_generator := os_generator os;
              os_records := os_records os;
              os_indexes := os_indexes os ++
                [{| ix_name := name; ix_keyPath := keyPath; ix_unique := unique |}] |}.

(** ** The engine: databases *)

Record IDBDatabase : Type := {
  db_version : Z;
  db_stores : gmap string IDBObjectStore;
  db_connections : nat;        (* connections that are open and stay open *)
  db_upgrading : bool          (* a version-change transaction is running *)
}.

Record Host : Type := {
  databases : gmap string IDBDatabase;
  failing : bool               (* the engine answers requests with an error event *)
}.

Definition set_database (name : string) (d : IDBDatabase) (h : Host) : Host :=
  {| databases := <[name := d]> (databases h); failing := failing h |}.

Definition set_store (name : string) (os : IDBObjectStore) (d : IDBDatabase)
  : IDBDatabase :=
  {| db_version := db_version d;
     db_stores := <[name := os]> (db_stores d);
     db_connections := db_connections d;
     db_upgrading := db_upgrading d |}.

Definition set_upgrading (b : bool) (d : IDBDatabase) : IDBDatabase :=
  {| db_version := db_version d;
     db_stores := db_stores d;
     db_connections := db_connections d;
     db_upgrading := b |}.

(** [db.createObjectStore(name, { keyPath, autoIncrement })], allowed only
    while the database is being upgraded. *)
Definition createObjectStore (name keyPath : string) (autoIncrement : bool)
    (d : IDBDatabase) : Exception + (IDBObjectStore * IDBDatabase) :=
  if negb (db_upgrading d) then inl (DOMException "InvalidStateError")
  else match db_stores d !! name with
       | Some _ => inl (DOMException "ConstraintError")
       | None =>
           let os := {| os_keyPath := keyPath; os_autoIncrement := autoIncrement;
                        os_generator := 1; os_records := []; os_indexes := [] |} in
           inr (os, set_store name os d)
       end.

(** [db.deleteObjectStore(name)], allowed only while the database is being
    upgraded. *)
Definition deleteObjectStore (name : string) (d : IDBDatabase)
  : Exception + IDBDatabase :=
  if negb (db_upgrading d) then inl (DOMException "InvalidStateError")
  else match db_stores d !! name with
       | None => inl (DOMException "NotFoundError")
       | Some _ =>
           inr {| db_version := db_version d;
                  db_stores := base.delete name (db_stores d);
                  db_connections := db_connections d;
                  db_upgrading := db_upgrading d |}
       end.

(** What [indexedDB.open(name, version)] does before any handler runs. *)
Inductive OpenResult : Type :=
| OpenThrows (e : Exception)          (* the call itself throws *)
| OpenError (name : string)           (* the error event *)
| OpenBlocked                         (* blocked by open connections: no event the client handles *)
| OpenUpgrade (d : IDBDatabase)       (* upgradeneeded, then success *)
| OpenSuccess (d : IDBDatabase).      (* success only *)

Definition max_version : Z := 9007199254740991.   (* 2^53 - 1 *)

(** The version is an [unsigned long long] with [EnforceRange]: the call
    throws for 0 and for a number beyond the range.  (The version of a
    database is in the range, so a number beyond it is above that version.) *)
Definition open (name : string) (version : option Z) (h : Host) : OpenResult :=
  let existing := databases h !! name in
  let current := from_option db_version 0%Z existing in
  let requested :=
    match version with
    | Some v => v
    | None => if (current =? 0)%Z then 1%Z else current
    end in
  if (requested <=? 0)%Z || ((current <? requested)%Z && (max_version <? requested)%Z)
  then OpenThrows TypeError
  else if failing h then OpenError "UnknownError"
  else if (requested <? current)%Z then OpenError "VersionError"
  else if (current <? requested)%Z then
    if (0 <? from_option db_connections 0 existing)%nat then OpenBlocked
    else OpenUpgrade {| db_version := requested;
                        db_stores := from_option db_stores ∅ existing;
                        db_connections := 1;
                        db_upgrading := true |}
  else OpenSuccess {| db_version := current;
                      db_stores := from_option db_stores ∅ existing;
                      db_connections := S (from_option db_connections 0 existing);
                      db_upgrading := false |}.

(** The events of an [indexedDB.deleteDatabase(name)] request. *)
Inductive DeleteEvent : Type := DeleteSuccess | DeleteError | DeleteBlocked.

Definition deleteDatabase (name : string) (h : Host) : DeleteEvent * Host :=
  if failing h then (DeleteError, h)
  else match databases h !! name with
       | None => (DeleteSuccess, h)
       | Some d =>
           if (0 <? db_connections d)%nat then (DeleteBlocked, h)
           else (DeleteSuccess,
                 {| databases := base.delete name (databases h); failing := failing h |})
       end.

(** ** The client's types ([types.ts]) *)

Record StorageIndex : Type := {
  si_index : string;            (* [index] *)
  si_key : string;              (* [key] *)
  si_unique : option bool       (* [unique?] *)
}.

Record IDBConfig : Type := {
  dbName : string;
  dbVersion : option Z;
  storageNames : list string;
  storeNameToIndexes : gmap string (list StorageIndex)
}.

(** [storeNameToIndexes] is a plain object: besides its own properties, the
    entries of the map, it has the properties it inherits from
    [Object.prototype]. *)
Definition object_prototype : list string :=
  [ "constructor"; "hasOwnProperty"; "isPrototypeOf"; "propertyIsEnumerable";
    "toLocaleString"; "toString"; "valueOf"; "__defineGetter__";
    "__defineSetter__"; "__lookupGetter__"; "__lookupSetter__"; "__proto__" ].

Definition inherited (name : string) : bool := bool_decide (name ∈ object_prototype).

Inductive OrderBy : Type := asc | desc.

#[global] Instance OrderBy_eq_dec : EqDecision OrderBy.
Proof. solve_decision. Defined.

Record SelectParams : Type := {
  sp_key : option string;       (* [key?: I | 'id'] *)
  sp_value : option Query;      (* [value?] *)
  sp_count : option Z;          (* [count?] *)
  sp_orderBy : option OrderBy   (* [orderBy?] *)
}.

(** Truthiness of the optional fields as the client tests them. *)
Definition defined {A} (o : option A) : bool :=
  match o with Some _ => true | None => false end.

Definition number_truthy (o : option Z) : bool :=
  match o with Some n => negb (n =? 0)%Z | None => false end.

Definition string_truthy (o : option string) : bool :=
  match o with Some s => negb (String.eqb s EmptyString) | None => false end.

Definition value_truthy (o : option Query) : bool :=
  match o with Some q => query_truthy q | None => false end.

(** ** The client ([indexed-db-client.ts]) *)

Module IndexedDbClient.

(** The fields of the class.  [db] is the connection: it names the
    database of the host it is connected to. *)
Record t : Type := {
  db : option string;
  storageName : option string;
  config : option IDBConfig;
  _isInited : bool
}.

Definition set_db (d : option string) (c : t) : t :=
  {| db := d; storageName := storageName c; config := config c;
     _isInited := _isInited c |}.
Definition set_storageName (s : option string) (c : t) : t :=
  {| db := db c; storageName := s; config := config c;
     _isInited := _isInited c |}.
Definition set_config (cfg : option IDBConfig) (c : t) : t :=
  {| db := db c; storageName := storageName c; config := cfg;
     _isInited := _isInited c |}.
Definition set_isInited (b : bool) (c : t) : t :=
  {| db := db c; storageName := storageName c; config := config c;
     _isInited := b |}.

Definition constructor (cfg : option IDBConfig) : t :=
  {| db := None; storageName := None; config := cfg; _isInited := false |}.

Definition isInited (c : t) : bool := _isInited c.

Definition configure (cfg : IDBConfig) (c : t) : t := set_config (Some cfg) c.

Definition from (name : string) (c : t) : t := set_storageName (Some name) c.

Definition clearStorageName (c : t) : t := set_storageName None c.

(** The object store handed out by [getStorage], with the transaction it
    belongs to. *)
Record Storage : Type := {
  st_db : string;
  st_name : string;
  st_mode : Mode;
  st_store : IDBObjectStore
}.

(** [getStorage] (lines 231-243): the two guards, then the transaction on
    the selected store.  [db.transaction] throws while the version-change
    transaction of the connection is running. *)
Definition getStorage (mode : Mode) (c : t) (h : Host) : Exception + Storage :=
  match db c with
  | None => inl (Error "DB is not init")
  | Some d =>
      if negb (string_truthy (storageName c)) then inl (Error "No storage selected")
      else
        let name := default EmptyString (storageName c) in
        (* [this.db.transaction(name, mode).objectStore(name)] *)
        match databases h !! d with
        | None => inl (DOMException "InvalidStateError")
        | Some database =>
            if db_upgrading database then inl (DOMException "InvalidStateError")
            else
              match db_stores database !! name with
              | None => inl (DOMException "NotFoundError")
              | Some os =>
                  inr {| st_db := d; st_name := name; st_mode := mode; st_store := os |}
              end
        end
  end.

(** The transaction of [st] completes with the store in state [os]. *)
Definition commit (st : Storage) (os : IDBObjectStore) (h : Host) : Host :=
  match databases h !! st_db st with
  | Some database => set_database (st_db st) (set_store (st_name st) os database) h
  | None => h
  end.

Record BridgeConfig (T : Type) : Type := {
  defaultValue : option T;
  onSuccess : option (T -> t -> t);
  onError : option (t -> t)
}.
Arguments defaultValue {T} _.
Arguments onSuccess {T} _.
Arguments onError {T} _.

(** [promisifyRequest] (lines 249-274): [truthy] is JavaScript truthiness
    at type [T]; the hooks act on the client. *)
Definition promisifyRequest {T} (truthy : T -> bool) (request : IDBRequest T)
    (cfg : option (BridgeConfig T)) (c : t) : Promise T * t :=
  let defaultValue := cfg ≫= defaultValue in
  let onSuccess := cfg ≫= onSuccess in
  let onError := cfg ≫= onError in
  match request with
  | RequestSuccess result =>
      let c1 := match onSuccess with Some f => f result c | None => c end in
      let p1 :=
        match defaultValue with
        | Some d =>
            if negb (truthy result) && truthy d
            then resolve (if truthy d then d else result) Pending
            else Pending
        | None => Pending
        end in
      (resolve result p1, c1)
  | RequestError name =>
      let c1 := match onError with Some f => f c | None => c end in
      (reject (ErrorEvent name) Pending, c1)
  end.

(** The [onsuccess] handler of the descending cursor of [select], run on
    each cursor result until it no longer asks for the next one.  [pos] is
    the entry the cursor stood on before this result. *)
Fixpoint walk (fuel : nat) (entries : list Entry) (r : IDBKeyRange)
    (count : option Z) (pos : option Entry) (step : Z) (values : list JSObject)
  : option (list JSObject) :=
  match fuel with
  | O => None
  | S fuel' =>
      let result := iterate_cursor entries r Prev pos in
      let isNeedStep :=
        if number_truthy count && negb (step =? 0)%Z
        then negb (step - default 0%Z count =? 0)%Z
        else true in
      match isNeedStep, result with
      | true, Some e =>
          walk fuel' entries r count (Some e) (step + 1)%Z (values ++ [e_value e])
      | _, _ => Some values
      end
  end.

(** [select] (lines 97-143).  Like the other operations it returns the
    promise as settled, the client and the host once the engine is done. *)
Definition select (params : option SelectParams) (c : t) (h : Host)
  : Promise (list JSObject) * t * Host :=
  let cfg := {| defaultValue := Some [];
                onSuccess := Some (fun _ => clearStorageName);
                onError := Some clearStorageName |} in
  let key := params ≫= sp_key in
  let value := params ≫= sp_value in
  let count := params ≫= sp_count in
  let orderBy := params ≫= sp_orderBy in
  let isStorage :=
    negb (defined params) || bool_decide (key = Some "id") ||
    (defined params && (number_truthy count || defined orderBy)) in
  match getStorage ReadOnly c h with
  | inl e => (Rejected (Thrown e), c, h)
  | inr st =>
      let storage : Exception + Source :=
        if isStorage then inr (StoreSource (st_store st))
        else match store_index (default EmptyString key) (st_store st) with
             | inl e => inl e
             | inr ix => inr (IndexSource (st_store st) ix)
             end in
      match storage with
      | inl e => (Rejected (Thrown e), c, h)
      | inr storage =>
          if negb (bool_decide (orderBy = Some desc)) then
            match getAll storage value count with
            | inl e => (Rejected (Thrown e), c, h)
            | inr result =>
                let request :=
                  if failing h then RequestError "UnknownError"
                  else RequestSuccess result in
                let '(p, c') := promisifyRequest (fun _ => true) request (Some cfg) c in
                (p, c', h)
            end
          else if failing h then
            (reject (ErrorEvent "UnknownError") Pending, clearStorageName c, h)
          else
            let entries := source_entries storage in
            match walk (S (length entries)) entries (query_range value) count None 0 [] with
            | Some values => (resolve values Pending, clearStorageName c, h)
            | None => (Pending, c, h)
            end
      end
  end.

(** [insert] (lines 145-153). *)
Definition insert (element : JSObject) (c : t) (h : Host)
  : Promise Key * t * Host :=
  match getStorage ReadWrite c h with
  | inl e => (Rejected (Thrown e), c, h)
  | inr st =>
      match put (st_mode st) (failing h) element (st_store st) with
      | inl e => (Rejected (Thrown e), c, h)
      | inr (request, os') =>
          let '(p, c') :=
            promisifyRequest key_truthy request
              (Some {| defaultValue := Some (KNumber (-1));
                       onSuccess := Some (fun _ => clearStorageName);
                       onError := Some clearStorageName |}) c in
          (p, c', commit st os' h)
      end
  end.

(** [update] (lines 155-158).  [await] on the request object does not wait
    for the request: the promise is resolved whatever the request's
    outcome. *)
Definition update (element : JSObject) (c : t) (h : Host)
  : Promise unit * t * Host :=
  match getStorage ReadWrite c h with
  | inl e => (Rejected (Thrown e), c, h)
  | inr st =>
      match put (st_mode st) (failing h) element (st_store st) with
      | inl e => (Rejected (Thrown e), c, h)
      | inr (_, os') => (Resolved tt, clearStorageName c, commit st os' h)
      end
  end.

(** The [onsuccess] handler of the cursor of an index-scoped [delete]:
    delete the record under the cursor and continue, until the cursor has
    no result. *)
Fixpoint delete_walk (fuel : nat) (ix : IDBIndex) (r : IDBKeyRange)
    (pos : option Entry) (os : IDBObjectStore) : option IDBObjectStore :=
  match fuel with
  | O => None
  | S fuel' =>
      match iterate_cursor (index_entries ix os) r Next pos with
      | Some e => delete_walk fuel' ix r (Some e) (cursor_delete e os)
      | None => Some os
      end
  end.

(** [delete] (lines 160-195). *)
Definition delete (params : SelectParams) (c : t) (h : Host)
  : Promise unit * t * Host :=
  let key := sp_key params in
  let value := sp_value params in
  match getStorage ReadWrite c h with
  | inl e => (Rejected (Thrown e), c, h)
  | inr st =>
      let storage := st_store st in
      let isIndex := string_truthy key && negb (bool_decide (key = Some "id")) in
      if isIndex then
        match store_index (default EmptyString key) storage with
        | inl e => (Rejected (Thrown e), c, h)
        | inr index =>
            match IDBKeyRange_only value with
            | inl e => (Rejected (Thrown e), c, h)
            | inr range =>
                if failing h then
                  (Rejected (ErrorEvent "UnknownError"), clearStorageName c, h)
                else
                  match delete_walk (S (length (os_records storage))) index range
                          None storage with
                  | Some os' =>
                      (Resolved tt, clearStorageName (clearStorageName c),
                       commit st os' h)
                  | None => (Pending, c, h)
                  end
            end
        end
      else if value_truthy value then
        match store_delete (st_mode st) (failing h) value storage with
        | inl e => (Rejected (Thrown e), c, h)
        | inr (_, os') => (Resolved tt, clearStorageName c, commit st os' h)
        end
      else (Resolved tt, clearStorageName c, h)
  end.

(** The database connected to has a store of that name
    ([this.db.objectStoreNames.contains]). *)
Definition contains (name : string) (c : t) (h : Host) : bool :=
  match db c ≫= (fun d => databases h !! d) with
  | Some database => defined (db_stores database !! name)
  | None => false
  end.

(** [indexes.forEach(... store.createIndex ...)]: an exception ends the
    loop and leaves the indexes created before it. *)
Fixpoint createIndexes (indexes : list StorageIndex) (os : IDBObjectStore)
  : option Exception * IDBObjectStore :=
  match indexes with
  | [] => (None, os)
  | i :: rest =>
      match createIndex (si_index i) (si_key i) (default false (si_unique i)) os with
      | inl e => (Some e, os)
      | inr os' => createIndexes rest os'
      end
  end.

(** [createStorage] (lines 68-89): the exception thrown, if any, and the
    host as the call leaves it. *)
Definition createStorage (name : string) (c : t) (h : Host) : option Exception * Host :=
  match db c with
  | None => (Some (Error "DB is not init"), h)
  | Some d =>
      if contains name c h then (Some (Error "Storage already exists"), h)
      else
        match databases h !! d with
        | None => (Some (DOMException "InvalidStateError"), h)
        | Some database =>
            match createObjectStore name "id" true database with
            | inl e => (Some e, h)
            | inr (store, database') =>
                (* [this.config?.storeNameToIndexes[name] || []] *)
                match config c ≫= (fun cfg => storeNameToIndexes cfg !! name) with
                | Some indexes =>
                    let '(thrown, store') := createIndexes indexes store in
                    (thrown, set_database d (set_store name store' database') h)
                | None =>
                    if defined (config c) && inherited name
                    then (* an inherited property: no array, [forEach] is no function *)
                      (Some TypeError, set_database d database' h)
                    else (None, set_database d database' h)
                end
            end
        end
  end.

(** The [storageNames.forEach] of the upgrade handler. *)
Fixpoint upgrade (names : list string) (c : t) (h : Host) : option Exception * Host :=
  match names with
  | [] => (None, h)
  | name :: rest =>
      if defined (db c) && negb (contains name c h) then
        match createStorage name c h with
        | (Some e, h') => (Some e, h')
        | (None, h') => upgrade rest c h'
        end
      else upgrade rest c h
  end.

(** What the [onsuccess] handler of [init] (lines 35-44) does to the client,
    for the connection to the database [name]. *)
Definition init_onsuccess (name : string) (c : t) : t :=
  set_isInited true (set_db (Some name) c).

(** The [onupgradeneeded] handler of [init] (lines 46-62).  An exception
    of [createStorage] is caught and given to [reject]: the handler itself
    does not throw, so the engine does not abort the upgrade. *)
Definition init_onupgradeneeded (cfg : IDBConfig) (c : t) (h : Host)
  : Promise unit * t * Host :=
  let c1 := set_db (Some (dbName cfg)) c in
  match upgrade (storageNames cfg) c1 h with
  | (None, h1) => (resolve tt Pending, set_isInited true c1, h1)
  | (Some e, h1) => (reject (Thrown e) Pending, c1, h1)
  end.

(** [init] (lines 25-66): the promise as the first event of the open
    request settles it, with the client and the host at that moment.  When
    the database needs an upgrade that event is [upgradeneeded]: the promise
    is settled inside the version-change transaction, which is still
    running when the caller goes on ([db_upgrading]). *)
Definition init (c : t) (h : Host) : Promise unit * t * Host :=
  match config c with
  | None => (Rejected (Thrown (Error "Config is not exist")), c, h)
  | Some cfg =>
      match open (dbName cfg) (dbVersion cfg) h with
      | OpenThrows e => (Rejected (Thrown e), c, h)
      | OpenError name => (reject (ErrorEvent name) Pending, c, h)
      | OpenBlocked => (Pending, c, h)
      | OpenSuccess d =>
          (resolve tt Pending, init_onsuccess (dbName cfg) c,
           set_database (dbName cfg) d h)
      | OpenUpgrade d =>
          init_onupgradeneeded cfg c (set_database (dbName cfg) d h)
      end
  end.

(** What follows an upgrade once the caller has given control back: the
    version-change transaction of the client's connection completes, the
    engine fires [success] at the open request and the [onsuccess] handler
    of [init] runs (its [resolve()] finds the promise settled).  Without a
    running upgrade nothing is due. *)
Definition upgrade_completed (c : t) (h : Host) : t * Host :=
  match db c with
  | None => (c, h)
  | Some name =>
      match databases h !! name with
      | None => (c, h)
      | Some d =>
          if db_upgrading d
          then (init_onsuccess name c,
                set_database name (set_upgrading false d) h)
          else (c, h)
      end
  end.

(** [deleteDb] (lines 197-217).  The host of the model keeps its other
    connections open, so a blocked deletion stays blocked: [blocked] is the
    only event of the request. *)
Definition deleteDb (c : t) (h : Host) : Promise unit * t * Host :=
  match config c with
  | None => (Rejected (Thrown (Error "Config is not exist")), c, h)
  | Some cfg =>
      match deleteDatabase (dbName cfg) h with
      | (DeleteSuccess, h') => (resolve tt Pending, set_isInited false c, h')
      | (DeleteError, h') =>
          (reject (Reason "Could not delete database") Pending, c, h')
      | (DeleteBlocked, h') =>
          (reject (Reason "Could not delete database due to the operation being blocked")
             Pending, c, h')
      end
  end.

(** [deleteStorage] (lines 219-229). *)
Definition deleteStorage (name : string) (c : t) (h : Host) : Promise unit * t * Host :=
  match db c with
  | None => (Rejected (Thrown (Error "DB is not init")), c, h)
  | Some d =>
      if negb (contains name c h) then (Resolved tt, c, h)
      else
        match databases h !! d with
        | None => (Rejected (Thrown (DOMException "InvalidStateError")), c, h)
        | Some database =>
            match deleteObjectStore name database with
            | inl e => (Rejected (Thrown e), c, h)
            | inr database' => (Resolved tt, c, set_database d database' h)
            end
        end
  end.

End IndexedDbClient.

(** * The example of the repository ([example/]) *)

Module Example.
Import IndexedDbClient.

Definition indexedDbConfig : IDBConfig :=
  {| dbName := "exampleIndexedDbClientDb";
     dbVersion := Some 1%Z;
     storageNames := ["tasks"];
     storeNameToIndexes :=
       {[ "tasks" :=
            [ {| si_index := "tasksName"; si_key := "name"; si_unique := None |};
              {| si_index := "tasksCreatedAt"; si_key := "createdAt";
                 si_unique := None |} ] ]} |}.

Definition task (name : string) : JSObject := {[ "name" := JKey (KString name) ]}.

Definition stored (id : Z) (name : string) : JSObject :=
  <["id" := JKey (KNumber id)]> (task name).

(** A browser without databases. *)
Definition browser : Host := {| databases := ∅; failing := false |}.

Definition state : Type := IndexedDbClient.t * Host.

Definition after {T} (r : Promise T * IndexedDbClient.t * Host) : state := (r.1.2, r.2).

(** [new IndexedDbClient(indexedDbConfig)] followed by [await init()]: the
    state in which the promise resolves, inside the upgrade. *)
Definition initialized : state :=
  after (init (constructor (Some indexedDbConfig)) browser).

(** The same once the upgrade is done. *)
Definition started : state := upgrade_completed initialized.1 initialized.2.

Definition add (name : string) (s : state) : state :=
  after (insert (task name) (from "tasks" s.1) s.2).

(** [new IndexedDbClient(cfg)] and [await init()] in the browser [h], and
    the upgrade completed. *)
Definition start (cfg : IDBConfig) (h : Host) : state :=
  let s := after (init (constructor (Some cfg)) h) in
  upgrade_completed s.1 s.2.

(** [await client.from(storage).insert(r)] *)
Definition add_to (storage : string) (r : JSObject) (s : state) : state :=
  after (insert r (from storage s.1) s.2).

(** The page is closed: its connections are gone. *)
Definition closed (h : Host) : Host :=
  {| databases :=
       (fun d => {| db_version := db_version d; db_stores := db_stores d;
                    db_connections := 0; db_upgrading := db_upgrading d |})
         <$> databases h;
     failing := failing h |}.

(** Tasks "A", "B", "A" inserted in this order: keys 1, 2, 3. *)
Definition three_tasks : state := add "A" (add "B" (add "A" started)).

Definition tasks_indexes : list IDBIndex :=
  [ {| ix_name := "tasksName"; ix_keyPath := "name"; ix_unique := false |};
    {| ix_name := "tasksCreatedAt"; ix_keyPath := "createdAt"; ix_unique := false |} ].

Definition one_task_store : IDBObjectStore :=
  {| os_keyPath := "id"; os_autoIncrement := true; os_generator := 2;
     os_records := [(KNumber 1, stored 1 "A")]; os_indexes := tasks_indexes |}.

Definition one_task_database : IDBDatabase :=
  {| db_version := 1; db_stores := {[ "tasks" := one_task_store ]};
     db_connections := 1; db_upgrading := false |}.

(** The client and the browser after the first insert, written out. *)
Definition one_task : state :=
  ({| db := Some "exampleIndexedDbClientDb"; storageName := None;
      config := Some indexedDbConfig; _isInited := true |},
   {| databases := {[ "exampleIndexedDbClientDb" := one_task_database ]};
      failing := false |}).

(** Tasks "A", "B", "A" stored under the keys 1, 2, 3. *)
Definition three_tasks_store : IDBObjectStore :=
  {| os_keyPath := "id"; os_autoIncrement := true; os_generator := 4;
     os_records := [(KNumber 1, stored 1 "A"); (KNumber 2, stored 2 "B");
                    (KNumber 3, stored 3 "A")];
     os_indexes := tasks_indexes |}.

Definition three_tasks_database : IDBDatabase :=
  {| db_version := 1; db_stores := {[ "tasks" := three_tasks_store ]};
     db_connections := 1; db_upgrading := false |}.

(** The client and the browser after the three inserts, written out. *)
Definition three_tasks_written : state :=
  ({| db := Some "exampleIndexedDbClientDb"; storageName := None;
      config := Some indexedDbConfig; _isInited := true |},
   {| databases := {[ "exampleIndexedDbClientDb" := three_tasks_database ]};
      failing := false |}).

(** A second version of the example's schema: a storage "notes" with an
    index on "title" is added. *)
Definition notesConfig : IDBConfig :=
  {| dbName := "exampleIndexedDbClientDb";
     dbVersion := Some 2%Z;
     storageNames := ["tasks"; "notes"];
     storeNameToIndexes :=
       {[ "tasks" :=
            [ {| si_index := "tasksName"; si_key := "name"; si_unique := None |};
              {| si_index := "tasksCreatedAt"; si_key := "createdAt";
                 si_unique := None |} ];
          "notes" :=
            [ {| si_index := "notesTitle"; si_key := "title";
                 si_unique := Some true |} ] ]} |}.

(** The browser of [one_task] after the page was closed: the database at
    version 1 with its task, no connection open. *)
Definition one_task_closed : Host :=
  {| databases :=
       {[ "exampleIndexedDbClientDb" :=
            {| db_version := 1; db_stores := {[ "tasks" := one_task_store ]};
               db_connections := 0; db_upgrading := false |} ]};
     failing := false |}.

Definition notes_store : IDBObjectStore :=
  {| os_keyPath := "id"; os_autoIncrement := true; os_generator := 2;
     os_records := [(KNumber 1, <["id" := JKey (KNumber 1)]>
                                  {[ "title" := JKey (KString "N") ]})];
     os_indexes := [ {| ix_name := "notesTitle"; ix_keyPath := "title";
                        ix_unique := true |} ] |}.

Definition two_storages_database : IDBDatabase :=
  {| db_version := 2;
     db_stores := {[ "tasks" := three_tasks_store; "notes" := notes_store ]};
     db_connections := 1; db_upgrading := false |}.

(** The second version at work: three tasks and one note stored. *)
Definition two_storages : state :=
  ({| db := Some "exampleIndexedDbClientDb"; storageName := None;
      config := Some notesConfig; _isInited := true |},
   {| databases := {[ "exampleIndexedDbClientDb" := two_storages_database ]};
      failing := false |}).

(** A schema whose only index, on "name", is named by the empty string. *)
Definition unnamedConfig : IDBConfig :=
  {| dbName := "exampleIndexedDbClientDb";
     dbVersion := Some 1%Z;
     storageNames := ["tasks"];
     storeNameToIndexes :=
       {[ "tasks" := [ {| si_index := EmptyString; si_key := "name";
                          si_unique := None |} ] ]} |}.

(** A storage of that schema holding tasks "A" and "B". *)
Definition unnamed_index : state :=
  ({| db := Some "exampleIndexedDbClientDb"; storageName := None;
      config := Some unnamedConfig; _isInited := true |},
   {| databases :=
        {[ "exampleIndexedDbClientDb" :=
             {| db_version := 1;
                db_stores :=
                  {[ "tasks" :=
                       {| os_keyPath := "id"; os_autoIncrement := true;
                          os_generator := 3;
                          os_records := [(KNumber 1, stored 1 "A");
                                         (KNumber 2, stored 2 "B")];
                          os_indexes := [ {| ix_name := EmptyString; ix_keyPath := "name";
                                             ix_unique := false |} ] |} ]};
                db_connections := 1; db_upgrading := false |} ]};
      failing := false |}).

Definition descriptor (key : option string) (value : option Query)
    (count : option Z) (orderBy : option OrderBy) : option SelectParams :=
  Some {| sp_key := key; sp_value := value; sp_count := count; sp_orderBy := orderBy |}.

(** [await client.from('tasks').select(params)] in state [s]. *)
Definition select_tasks (params : option SelectParams) (s : state)
  : Promise (list JSObject) :=
  (select params (from "tasks" s.1) s.2).1.1.

(** A browser that holds the example's database at version 2, without
    storages and without connections. *)
Definition newer_database : Host :=
  {| databases :=
       {[ "exampleIndexedDbClientDb" :=
            {| db_version := 2; db_stores := ∅; db_connections := 0;
               db_upgrading := false |} ]};
     failing := false |}.


(** The example's schema with a storage "constructor" that declares no
    indexes, in front of "tasks". *)
Definition inheritedConfig : IDBConfig :=
  {| dbName := "exampleIndexedDbClientDb";
     dbVersion := Some 1%Z;
     storageNames := ["constructor"; "tasks"];
     storeNameToIndexes :=
       {[ "tasks" :=
            [ {| si_index := "tasksName"; si_key := "name"; si_unique := None |} ] ]} |}.

(** The example's schema with a unique index on "name". *)
Definition uniqueConfig : IDBConfig :=
  {| dbName := "exampleIndexedDbClientDb";
     dbVersion := Some 1%Z;
     storageNames := ["tasks"];
     storeNameToIndexes :=
       {[ "tasks" := [ {| si_index := "tasksName"; si_key := "name";
                          si_unique := Some true |} ] ]} |}.

(** The storage of [one_task] under that schema. *)
Definition unique_name_store : IDBObjectStore :=
  {| os_keyPath := "id"; os_autoIncrement := true; os_generator := 2;
     os_records := [(KNumber 1, stored 1 "A")];
     os_indexes := [ {| ix_name := "tasksName"; ix_keyPath := "name";
                        ix_unique := true |} ] |}.

Definition unique_name_database : IDBDatabase :=
  {| db_version := 1; db_stores := {[ "tasks" := unique_name_store ]};
     db_connections := 1; db_upgrading := false |}.

Definition unique_name : state :=
  ({| db := Some "exampleIndexedDbClientDb"; storageName := None;
      config := Some uniqueConfig; _isInited := true |},
   {| databases := {[ "exampleIndexedDbClientDb" := unique_name_database ]};
      failing := false |}).

End Example.

(** * The operations on the selected storage *)

Section Operations.
Import IndexedDbClient.

(** The four operations of the client that work on the selected storage. *)
Inductive Operation : Type :=
| Select (params : option SelectParams)
| Insert (element : JSObject)
| Update (element : JSObject)
| Delete (params : SelectParams).

(** How the promise of an operation ended, whatever it carries. *)
Inductive Completion : Type :=
| Fulfilled
| Failed (e : Failure)
| Unsettled.

Definition completion {T} (p : Promise T) : Completion :=
  match p with
  | Resolved _ => Fulfilled
  | Rejected e => Failed e
  | Pending => Unsettled
  end.

Definition run (op : Operation) (c : IndexedDbClient.t) (h : Host)
  : Completion * IndexedDbClient.t * Host :=
  match op with
  | Select params => let '(p, c', h') := select params c h in (completion p, c', h')
  | Insert element => let '(p, c', h') := insert element c h in (completion p, c', h')
  | Update element => let '(p, c', h') := update element c h in (completion p, c', h')
  | Delete params => let '(p, c', h') := delete params c h in (completion p, c', h')
  end.

(** The operation got as far as its engine request: it succeeded, or it
    failed with the error event of the request. *)
Definition request_completed (r : Completion) : Prop :=
  match r with
  | Fulfilled => True
  | Failed (ErrorEvent _) => True
  | _ => False
  end.

(** The operation failed with an exception thrown before any request
    was made. *)
Definition thrown (r : Completion) : Prop :=
  match r with
  | Failed (Thrown _) => True
  | _ => False
  end.

End Operations.

(** * Invariants of the engine *)

(** The records of a store are kept in ascending order of their keys, so
    no two records share a key, and the key generator starts at 1. *)
Definition key_lt (a b : Key * JSObject) : Prop := key_compare a.1 b.1 = Lt.
Definition keys_ascending (records : list (Key * JSObject)) : Prop :=
  StronglySorted key_lt records.
Definition store_wf (os : IDBObjectStore) : Prop :=
  keys_ascending (os_records os) /\ (1 <= os_generator os)%Z.

(** Every store of every database of the host is well formed. *)
Definition host_wf (h : Host) : Prop :=
  forall d database name os,
    databases h !! d = Some database ->
    db_stores database !! name = Some os ->
    store_wf os.

(** The order in which an index lists its entries. *)
Definition entry_le (a b : Entry) : Prop := entry_leb a b = true.

(** The records an index-scoped delete is after. *)
Definition hit (ix : IDBIndex) (v : Key) (kv : Key * JSObject) : bool :=
  bool_decide (extract_key (ix_keyPath ix) kv.2 = Some v).

(** * What an upgrade is to produce *)

Section UpgradeResult.
Import IndexedDbClient.

Definition declared_index (i : StorageIndex) : IDBIndex :=
  {| ix_name := si_index i; ix_keyPath := si_key i;
     ix_unique := default false (si_unique i) |}.

Definition declared_indexes (cfg : IDBConfig) (name : string) : list StorageIndex :=
  default [] (storeNameToIndexes cfg !! name).

(** A storage as the upgrade creates it: key path "id", generated keys, no
    records, and the declared indexes. *)
Definition created_storage (cfg : IDBConfig) (name : string) : IDBObjectStore :=
  {| os_keyPath := "id"; os_autoIncrement := true; os_generator := 1;
     os_records := [];
     os_indexes := List.map declared_index (declared_indexes cfg name) |}.

(** The storages after an upgrade that found the storages [before]. *)
Definition upgraded (cfg : IDBConfig) (names : list string)
    (before : gmap string IDBObjectStore) (name : string) : option IDBObjectStore :=
  match before !! name with
  | Some os => Some os
  | None =>
      if bool_decide (name ∈ names) then Some (created_storage cfg name) else None
  end.

(** A descriptor the upgrade can carry out.  For each of its storages:
    the list of indexes is found (the storage has an entry in
    [storeNameToIndexes], or its name is not one that the object inherits),
    the index names are unique, and each index is on a valid key path. *)
Definition valid_config (cfg : IDBConfig) : Prop :=
  forall name, name ∈ storageNames cfg ->
    (storeNameToIndexes cfg !! name = None -> inherited name = false) /\
    List.NoDup (List.map si_index (declared_indexes cfg name)) /\
    List.Forall (fun i => valid_key_path (si_key i) = true) (declared_indexes cfg name).

End UpgradeResult.

(** * Descriptors that differ in one field *)

Definition with_count (count : option Z) (p : SelectParams) : SelectParams :=
  {| sp_key := sp_key p; sp_value := sp_value p; sp_count := count;
     sp_orderBy := sp_orderBy p |}.

Definition with_orderBy (orderBy : option OrderBy) (p : SelectParams) : SelectParams :=
  {| sp_key := sp_key p; sp_value := sp_value p; sp_count := sp_count p;
     sp_orderBy := orderBy |}.

(** Descending order of entries. *)
Definition entry_gt (a b : Entry) : Prop := entry_compare b a = Lt.

(** * What the operations change, and what they keep *)

Section Effects.
Import IndexedDbClient.

Definition hit_entry (v : Key) (kv : Key * JSObject) : Entry :=
  {| e_key := v; e_primaryKey := kv.1; e_value := kv.2 |}.

(** ** What the four operations change *)

Definition lookup_store (h : Host) (d name : string) : option IDBObjectStore :=
  databases h !! d ≫= fun database => db_stores database !! name.

(** A store after an operation: the same schema, and a key generator that
    has not moved backwards. *)
Definition same_schema (os os' : IDBObjectStore) : Prop :=
  os_keyPath os' = os_keyPath os /\
  os_autoIncrement os' = os_autoIncrement os /\
  os_indexes os' = os_indexes os /\
  (os_generator os <= os_generator os')%Z.


(** Numeric keys in use lie below the key generator. *)
Definition key_below (gen : Z) (k : Key) : Prop :=
  match k with KNumber n => (n < gen)%Z | _ => True end.

(** ** Invariants of the stores *)



Definition store_fresh (os : IDBObjectStore) : Prop :=
  os_autoIncrement os = true /\
  List.Forall (fun kv : Key * JSObject => key_below (os_generator os) kv.1)
              (os_records os).

(** The invariant of the stores the client creates and works on. *)
Definition store_ok (os : IDBObjectStore) : Prop := store_wf os /\ store_fresh os.

End Effects.

(** ** Proof steps *)

(** Looking up, after a commit, the store that was committed ([Hd] is the
    lookup of its database before), and a store that was not. *)
Ltac committed_store Hd :=
  unfold lookup_store, IndexedDbClient.commit;
  cbn [IndexedDbClient.st_db IndexedDbClient.st_name];
  rewrite Hd; cbn [set_database databases];
  rewrite lookup_insert_eq; cbn [mbind option_bind set_store db_stores];
  rewrite lookup_insert_eq.

Ltac other_store Hd :=
  let d' := fresh "d'" in
  let name' := fresh "name'" in
  let Hother := fresh "Hother" in
  intros d' name' Hother;
  unfold lookup_store, IndexedDbClient.commit;
  cbn [IndexedDbClient.st_db IndexedDbClient.st_name];
  rewrite Hd; cbn [set_database databases];
  match goal with
  | |- context [<[?d := _]> _ !! d'] =>
      destruct (decide (d' = d)) as [->|];
      [ rewrite lookup_insert_eq, Hd; cbn [mbind option_bind set_store db_stores];
        rewrite lookup_insert_ne by (destruct Hother; congruence)
      | rewrite lookup_insert_ne by congruence ]
  end;
  reflexivity.

(** * Properties of the engine model *)

(** ** The order on keys and entries *)

Section KeyOrder.

Lemma string_compare_trans (a b c : string) :
  String.compare a b = Lt -> String.compare b c = Lt -> String.compare a c = Lt.
Proof.
  intros Hab Hbc.
  apply OrderedTypeEx.String_as_OT.cmp_lt.
  apply OrderedTypeEx.String_as_OT.cmp_lt in Hab, Hbc.
  eapply OrderedTypeEx.String_as_OT.lt_trans; eassumption.
Qed.

Lemma key_compare_eq (a b : Key) : key_compare a b = Eq <-> a = b.
Proof.
  destruct a, b; simpl; split; intros H; try discriminate;
    try (apply Z.compare_eq_iff in H; congruence);
    try (apply OrderedTypeEx.String_as_OT.cmp_eq in H; congruence);
    try (inversion H; subst; apply Z.compare_refl).
  inversion H; subst. now apply OrderedTypeEx.String_as_OT.cmp_eq.
Qed.

Lemma key_compare_refl (a : Key) : key_compare a a = Eq.
Proof. now apply key_compare_eq. Qed.

Lemma key_compare_antisym (a b : Key) :
  key_compare b a = CompOpp (key_compare a b).
Proof.
  destruct a, b; simpl; try reflexivity;
    try apply Z.compare_antisym.
  apply String.compare_antisym.
Qed.

Lemma key_compare_trans (a b c : Key) :
  key_compare a b = Lt -> key_compare b c = Lt -> key_compare a c = Lt.
Proof.
  destruct a, b, c; simpl; intros Hab Hbc; try discriminate; try reflexivity;
    try (rewrite Z.compare_lt_iff in *; lia).
  eapply string_compare_trans; eassumption.
Qed.

Lemma key_compare_gt_lt (a b : Key) : key_compare a b = Gt <-> key_compare b a = Lt.
Proof.
  rewrite (key_compare_antisym a b).
  destruct (key_compare a b); simpl; split; congruence.
Qed.

Lemma entry_compare_antisym (a b : Entry) :
  entry_compare b a = CompOpp (entry_compare a b).
Proof.
  unfold entry_compare.
  rewrite (key_compare_antisym (e_key a) (e_key b)).
  rewrite (key_compare_antisym (e_primaryKey a) (e_primaryKey b)).
  destruct (key_compare (e_key a) (e_key b)); reflexivity.
Qed.

Lemma entry_compare_eq (a b : Entry) :
  entry_compare a b = Eq <-> e_key a = e_key b /\ e_primaryKey a = e_primaryKey b.
Proof.
  unfold entry_compare.
  destruct (key_compare (e_key a) (e_key b)) eqn:Hk.
  - apply key_compare_eq in Hk. rewrite key_compare_eq. tauto.
  - split; [discriminate|]. intros [H _]. apply key_compare_eq in H. congruence.
  - split; [discriminate|]. intros [H _]. apply key_compare_eq in H. congruence.
Qed.

Lemma entry_compare_trans (a b c : Entry) :
  entry_compare a b = Lt -> entry_compare b c = Lt -> entry_compare a c = Lt.
Proof.
  unfold entry_compare.
  destruct (key_compare (e_key a) (e_key b)) eqn:Hab; try discriminate;
    destruct (key_compare (e_key b) (e_key c)) eqn:Hbc; try discriminate;
    intros H1 H2.
  - apply key_compare_eq in Hab, Hbc.
    rewrite Hab, Hbc, key_compare_refl.
    eapply key_compare_trans; eassumption.
  - apply key_compare_eq in Hab. now rewrite Hab, Hbc.
  - apply key_compare_eq in Hbc. now rewrite <- Hbc, Hab.
  - now rewrite (key_compare_trans _ _ _ Hab Hbc).
Qed.

Lemma entry_leb_total (a b : Entry) : entry_leb a b = false -> entry_leb b a = true.
Proof.
  unfold entry_leb. rewrite (entry_compare_antisym a b).
  destruct (entry_compare a b); simpl; congruence.
Qed.

Lemma entry_leb_trans (a b c : Entry) :
  entry_leb a b = true -> entry_leb b c = true -> entry_leb a c = true.
Proof.
  unfold entry_leb.
  destruct (entry_compare a b) eqn:Hab; try discriminate;
    destruct (entry_compare b c) eqn:Hbc; try discriminate; intros _ _.
  - apply entry_compare_eq in Hab, Hbc.
    assert (entry_compare a c = Eq) as -> by (apply entry_compare_eq; intuition congruence).
    reflexivity.
  - apply entry_compare_eq in Hab. unfold entry_compare in *.
    destruct Hab as [-> ->]. now rewrite Hbc.
  - apply entry_compare_eq in Hbc. unfold entry_compare in *.
    destruct Hbc as [<- <-]. now rewrite Hab.
  - now rewrite (entry_compare_trans _ _ _ Hab Hbc).
Qed.

(** Membership in an exact-match range is equality of keys. *)
Lemma includes_only (k k' : Key) : includes (KeyRange.only k) k' = true <-> k' = k.
Proof.
  unfold includes; simpl.
  rewrite (key_compare_antisym k' k).
  destruct (key_compare k' k) eqn:Hc; simpl; split; intros H;
    try discriminate; try (now apply key_compare_eq); try reflexivity;
    subst; rewrite key_compare_refl in Hc; discriminate.
Qed.

Lemma includes_unbounded (k : Key) : includes KeyRange.unbounded k = true.
Proof. reflexivity. Qed.

End KeyOrder.

(** * The example *)

Section ExampleFacts.
Import IndexedDbClient.

(** The state written out as [Example.one_task] is the one the client and
    the engine reach by [init] and one insert. *)
Lemma one_task_reached : Example.add "A" Example.started = Example.one_task.
Proof. vm_compute. reflexivity. Qed.

(** So are the other states that are written out. *)
Lemma three_tasks_reached : Example.three_tasks = Example.three_tasks_written.
Proof. vm_compute. reflexivity. Qed.

Lemma one_task_closed_reached : Example.closed Example.one_task.2 = Example.one_task_closed.
Proof. vm_compute. reflexivity. Qed.

Lemma two_storages_reached :
  Example.add_to "notes" {[ "title" := JKey (KString "N") ]}
    (Example.start Example.notesConfig (Example.closed Example.three_tasks_written.2))
  = Example.two_storages.
Proof. vm_compute. reflexivity. Qed.

Lemma unique_name_reached :
  Example.add "A" (Example.start Example.uniqueConfig Example.browser)
  = Example.unique_name.
Proof. vm_compute. reflexivity. Qed.

Lemma unnamed_index_reached :
  Example.add "B" (Example.add "A" (Example.start Example.unnamedConfig Example.browser))
  = Example.unnamed_index.
Proof. vm_compute. reflexivity. Qed.

End ExampleFacts.

(** * The client's operations and the Selection Context *)

Section SelectionContext.
Import IndexedDbClient.

Lemma promisifyRequest_clears {T} (truthy : T -> bool) (request : IDBRequest T)
    (d : option T) (c : IndexedDbClient.t) :
  storageName
    (promisifyRequest truthy request
       (Some {| defaultValue := d;
                onSuccess := Some (fun _ => clearStorageName);
                onError := Some clearStorageName |}) c).2 = None.
Proof. destruct request; reflexivity. Qed.

Lemma promisifyRequest_settles {T} (truthy : T -> bool) (request : IDBRequest T)
    (cfg : option (BridgeConfig T)) (c : IndexedDbClient.t) :
  request_completed (completion (promisifyRequest truthy request cfg c).1).
Proof.
  destruct request as [result|name]; simpl; [|exact I].
  destruct (cfg ≫= defaultValue) as [d|]; simpl; [|exact I].
  destruct (negb (truthy result) && truthy d); simpl; [|exact I].
  destruct (truthy d); exact I.
Qed.

End SelectionContext.

Section SelectionContextTheorems.
Import IndexedDbClient.

(** C1 (amended).  For each of select, insert, update and delete: when the
    operation got as far as its engine request, that is, it resolved or it
    was rejected with the error event of the request, the Selection Context
    ([storageName]) is null afterwards. *)
Theorem selection_context_cleared_after_request
    (op : Operation) (c : IndexedDbClient.t) (h : Host) :
  request_completed (run op c h).1.1 ->
  storageName (run op c h).1.2 = None.
Proof.
  destruct op as [params|element|element|params]; unfold run.
  - unfold select.
    destruct (getStorage ReadOnly c h) as [e|st]; [simpl; tauto|].
    match goal with |- context [match ?s with inl _ => _ | inr _ => _ end] =>
      destruct s as [e|storage] end; [simpl; tauto|].
    destruct (negb (bool_decide (params ≫= sp_orderBy = Some desc))).
    + destruct (getAll storage _ _) as [e|result]; [simpl; tauto|].
      destruct (failing h); intros _; reflexivity.
    + destruct (failing h); [reflexivity|].
      destruct (walk _ _ _ _ _ _ _); simpl; [reflexivity|tauto].
  - unfold insert.
    destruct (getStorage ReadWrite c h) as [e|st]; [simpl; tauto|].
    destruct (put _ _ _ _) as [e|[request os']]; [simpl; tauto|].
    intros _. destruct request; reflexivity.
  - unfold update.
    destruct (getStorage ReadWrite c h) as [e|st]; [simpl; tauto|].
    destruct (put _ _ _ _) as [e|[request os']]; [simpl; tauto|].
    reflexivity.
  - unfold delete.
    destruct (getStorage ReadWrite c h) as [e|st]; [simpl; tauto|].
    destruct (string_truthy (sp_key params) && _).
    + destruct (store_index _ _) as [e|ix]; [simpl; tauto|].
      destruct (IDBKeyRange_only _) as [e|range]; [simpl; tauto|].
      destruct (failing h); [reflexivity|].
      destruct (delete_walk _ _ _ _ _); simpl; [reflexivity|tauto].
    + destruct (value_truthy _); [|reflexivity].
      destruct (store_delete _ _ _ _) as [e|[request os']]; [simpl; tauto|].
      reflexivity.
Qed.

(** The theorem at work on a select of all tasks of the example. *)
Lemma selection_context_cleared_after_request_witness :
  storageName
    (run (Select None) (from "tasks" Example.three_tasks.1) Example.three_tasks.2).1.2
  = None.
Proof.
  apply (selection_context_cleared_after_request (Select None)).
  vm_compute. exact I.
Defined.

(** C1 as stated fails.  On a client whose [init] has not run, each of the
    four operations fails with "DB is not init" and leaves the storage
    selected by [from] in place. *)
Lemma selection_context_kept_on_precondition_failure :
  let c := from "tasks" (constructor (Some Example.indexedDbConfig)) in
  let kept op :=
    (run op c Example.browser).1.1 = Failed (Thrown (Error "DB is not init")) /\
    storageName (run op c Example.browser).1.2 = Some "tasks" in
  kept (Select None) /\
  kept (Insert (Example.task "A")) /\
  kept (Update (Example.stored 1 "A")) /\
  kept (Delete {| sp_key := Some "id"; sp_value := Some (QKey (KNumber 1));
                  sp_count := None; sp_orderBy := None |}).
Proof. vm_compute. repeat split; reflexivity. Qed.

(** X24.  An operation that fails with a thrown exception changes neither
    the client, whose selected storage stays, nor the host. *)
Lemma run_thrown_changes_nothing (op : Operation) (c : IndexedDbClient.t) (h : Host) :
  thrown (run op c h).1.1 ->
  (run op c h).1.2 = c /\ (run op c h).2 = h.
Proof.
  destruct op as [params|element|element|params]; unfold run.
  - unfold select.
    destruct (getStorage ReadOnly c h) as [e|st]; [simpl; tauto|].
    match goal with |- context [match ?s with inl _ => _ | inr _ => _ end] =>
      destruct s as [e|storage] end; [simpl; tauto|].
    destruct (negb (bool_decide (params ≫= sp_orderBy = Some desc))).
    + destruct (getAll storage _ _) as [e|result]; [simpl; tauto|].
      destruct (failing h); simpl; tauto.
    + destruct (failing h); [simpl; tauto|].
      destruct (walk _ _ _ _ _ _ _); simpl; tauto.
  - unfold insert.
    destruct (getStorage ReadWrite c h) as [e|st]; [simpl; tauto|].
    destruct (put _ _ _ _) as [e|[request os']]; [simpl; tauto|].
    pose proof (promisifyRequest_settles key_truthy request
                  (Some {| defaultValue := Some (KNumber (-1));
                           onSuccess := Some (fun _ => clearStorageName);
                           onError := Some clearStorageName |}) c) as Hs.
    destruct (promisifyRequest _ _ _ _) as [p c']. simpl in *.
    destruct p as [|v|[]]; simpl in *; tauto.
  - unfold update.
    destruct (getStorage ReadWrite c h) as [e|st]; [simpl; tauto|].
    destruct (put _ _ _ _) as [e|[request os']]; simpl; tauto.
  - unfold delete.
    destruct (getStorage ReadWrite c h) as [e|st]; [simpl; tauto|].
    destruct (string_truthy (sp_key params) && _).
    + destruct (store_index _ _) as [e|ix]; [simpl; tauto|].
      destruct (IDBKeyRange_only _) as [e|range]; [simpl; tauto|].
      destruct (failing h); [simpl; tauto|].
      destruct (delete_walk _ _ _ _ _); simpl; tauto.
    + destruct (value_truthy _); [|simpl; tauto].
      destruct (store_delete _ _ _ _) as [e|[request os']]; simpl; tauto.
Qed.

Lemma run_thrown_changes_nothing_witness :
  (run (Select (Example.descriptor None (Some (QKey (KNumber 1))) None None))
       (from "tasks" Example.one_task.1) Example.one_task.2).1.2
    = from "tasks" Example.one_task.1 /\
  (run (Select (Example.descriptor None (Some (QKey (KNumber 1))) None None))
       (from "tasks" Example.one_task.1) Example.one_task.2).2
    = Example.one_task.2.
Proof.
  apply run_thrown_changes_nothing. vm_compute. exact I.
Defined.

(** C7.  With the connection open and no storage selected, select and
    insert fail with "No storage selected"; the client and the host (the
    connection and the stored data) are as before. *)
Theorem select_insert_without_storage
    (c : IndexedDbClient.t) (h : Host) (d : string)
    (params : option SelectParams) (element : JSObject) :
  db c = Some d ->
  storageName c = None ->
  select params c h = (Rejected (Thrown (Error "No storage selected")), c, h) /\
  insert element c h = (Rejected (Thrown (Error "No storage selected")), c, h).
Proof.
  intros Hdb Hname.
  unfold select, insert, getStorage. rewrite Hdb, Hname. simpl. split; reflexivity.
Qed.

Lemma select_insert_without_storage_witness :
  select None Example.started.1 Example.started.2
    = (Rejected (Thrown (Error "No storage selected")),
       Example.started.1, Example.started.2) /\
  insert (Example.task "A") Example.started.1 Example.started.2
    = (Rejected (Thrown (Error "No storage selected")),
       Example.started.1, Example.started.2).
Proof.
  apply (select_insert_without_storage _ _ "exampleIndexedDbClientDb");
    vm_compute; reflexivity.
Defined.

(** C10.  On an open connection whose database is not being upgraded, with
    an existing storage selected, delete with [key] absent or "id" and a
    [value] that is absent or falsy resolves, leaves the host as it is (no
    record is removed) and clears the Selection Context. *)
Theorem delete_without_value
    (c : IndexedDbClient.t) (h : Host) (params : SelectParams)
    (d name : string) (database : IDBDatabase) (os : IDBObjectStore) :
  db c = Some d ->
  storageName c = Some name ->
  name <> EmptyString ->
  databases h !! d = Some database ->
  db_upgrading database = false ->
  db_stores database !! name = Some os ->
  sp_key params = None \/ sp_key params = Some "id" ->
  value_truthy (sp_value params) = false ->
  delete params c h = (Resolved tt, clearStorageName c, h) /\
  storageName (clearStorageName c) = None.
Proof.
  intros Hdb Hname Hne Hd Hup Hos Hkey Hvalue.
  split; [|reflexivity].
  unfold delete, getStorage. rewrite Hdb, Hname. simpl.
  apply String.eqb_neq in Hne. rewrite Hne. simpl.
  rewrite Hd, Hup, Hos. simpl. rewrite Hvalue.
  destruct Hkey as [-> | ->]; reflexivity.
Qed.

Lemma delete_without_value_witness :
  let c := from "tasks" Example.one_task.1 in
  let params := {| sp_key := Some "id"; sp_value := Some (QKey (KNumber 0));
                   sp_count := None; sp_orderBy := None |} in
  delete params c Example.one_task.2
    = (Resolved tt, clearStorageName c, Example.one_task.2) /\
  storageName (clearStorageName c) = None.
Proof.
  apply (delete_without_value _ _ _ "exampleIndexedDbClientDb" "tasks"
           Example.one_task_database Example.one_task_store).
  - reflexivity.
  - reflexivity.
  - discriminate.
  - vm_compute. reflexivity.
  - reflexivity.
  - vm_compute. reflexivity.
  - right. reflexivity.
  - reflexivity.
Defined.

End SelectionContextTheorems.

(** * Deleting the database *)

Section DeleteDb.
Import IndexedDbClient.

(** The initialized flag changes only when the engine reports success,
    and then it is false. *)
Lemma deleteDb_flag_changes_on_success_only (c : IndexedDbClient.t) (h : Host) :
  isInited (deleteDb c h).1.2 <> isInited c ->
  (deleteDb c h).1.1 = Resolved tt /\ isInited (deleteDb c h).1.2 = false /\
  exists cfg, config c = Some cfg /\ (deleteDatabase (dbName cfg) h).1 = DeleteSuccess.
Proof.
  unfold deleteDb. destruct (config c) as [cfg|]; [|simpl; congruence].
  destruct (deleteDatabase (dbName cfg) h) as [[] h'] eqn:Hdel; simpl;
    try congruence.
  intros _. repeat split. exists cfg. rewrite Hdel. split; reflexivity.
Qed.

Lemma deleteDb_success_resets_flag (c : IndexedDbClient.t) (h : Host) (cfg : IDBConfig) :
  config c = Some cfg ->
  (deleteDatabase (dbName cfg) h).1 = DeleteSuccess ->
  (deleteDb c h).1.1 = Resolved tt /\ isInited (deleteDb c h).1.2 = false.
Proof.
  intros Hcfg Hdel. unfold deleteDb. rewrite Hcfg.
  destruct (deleteDatabase (dbName cfg) h) as [ev h']. simpl in Hdel. subst ev.
  split; reflexivity.
Qed.

(** C8.  When the engine reports the deletion of the database as blocked,
    [deleteDb] is rejected with the blocked-deletion message and the client,
    its initialized flag included, is as before; the flag is false after a
    successful deletion, and it changes in no other case. *)
Theorem deleteDb_blocked_keeps_flag
    (c : IndexedDbClient.t) (h : Host) (cfg : IDBConfig) :
  config c = Some cfg ->
  (deleteDatabase (dbName cfg) h).1 = DeleteBlocked ->
  deleteDb c h =
    (Rejected (Reason "Could not delete database due to the operation being blocked"),
     c, h) /\
  isInited (deleteDb c h).1.2 = isInited c /\
  (forall c0 h0 cfg0,
      config c0 = Some cfg0 ->
      (deleteDatabase (dbName cfg0) h0).1 = DeleteSuccess ->
      (deleteDb c0 h0).1.1 = Resolved tt /\ isInited (deleteDb c0 h0).1.2 = false) /\
  (forall c0 h0,
      isInited (deleteDb c0 h0).1.2 <> isInited c0 ->
      (deleteDb c0 h0).1.1 = Resolved tt /\ isInited (deleteDb c0 h0).1.2 = false).
Proof.
  intros Hcfg Hblocked.
  assert (deleteDb c h =
    (Rejected (Reason "Could not delete database due to the operation being blocked"),
     c, h)) as Heq.
  { unfold deleteDb. rewrite Hcfg.
    unfold deleteDatabase in *.
    destruct (failing h); [discriminate|].
    destruct (databases h !! dbName cfg) as [d|]; [|discriminate].
    destruct (0 <? db_connections d)%nat; [reflexivity|discriminate]. }
  split; [exact Heq|]. split; [now rewrite Heq|]. split.
  - intros c0 h0 cfg0. apply deleteDb_success_resets_flag.
  - intros c0 h0 Hchanged.
    destruct (deleteDb_flag_changes_on_success_only c0 h0 Hchanged) as (? & ? & _).
    split; assumption.
Qed.

(** After [init] the client's own connection stays open. *)
Lemma deleteDb_blocked_keeps_flag_witness :
  deleteDb Example.one_task.1 Example.one_task.2 =
    (Rejected (Reason "Could not delete database due to the operation being blocked"),
     Example.one_task.1, Example.one_task.2) /\
  isInited (deleteDb Example.one_task.1 Example.one_task.2).1.2 = true.
Proof.
  destruct (deleteDb_blocked_keeps_flag Example.one_task.1 Example.one_task.2
              Example.indexedDbConfig) as (H1 & H2 & _).
  - reflexivity.
  - vm_compute. reflexivity.
  - split; [exact H1 | exact H2].
Defined.

End DeleteDb.


(** * Insert and select by key *)

Section RoundTrip.
Import IndexedDbClient.

Lemma filter_only_above (k : Key) (l : list (Key * JSObject)) :
  Forall (fun b => key_compare k b.1 = Lt) l ->
  List.filter (fun kv : Key * JSObject => includes (KeyRange.only k) kv.1) l = [].
Proof.
  induction 1 as [|b l Hb _ IH]; [reflexivity|].
  simpl. rewrite IH.
  destruct (includes (KeyRange.only k) b.1) eqn:Hin; [|reflexivity].
  apply includes_only in Hin. rewrite Hin, key_compare_refl in Hb. discriminate.
Qed.

Lemma filter_only_store_put (k : Key) (v : JSObject) (l : list (Key * JSObject)) :
  keys_ascending l ->
  List.filter (fun kv : Key * JSObject => includes (KeyRange.only k) kv.1) (store_put k v l)
  = [(k, v)].
Proof.
  assert (Hk : includes (KeyRange.only k) k = true) by now apply includes_only.
  induction 1 as [|[k' v'] t Ht IH Hall]; simpl.
  - now rewrite Hk.
  - destruct (key_compare k k') eqn:Hc; simpl.
    + rewrite Hk. f_equal. apply filter_only_above.
      apply key_compare_eq in Hc. subst k'. exact Hall.
    + rewrite Hk. f_equal.
      destruct (includes (KeyRange.only k) k') eqn:Hin.
      { apply includes_only in Hin. subst. rewrite key_compare_refl in Hc. discriminate. }
      apply filter_only_above.
      eapply List.Forall_impl; [|exact Hall]. intros b Hb.
      eapply key_compare_trans; [exact Hc|exact Hb].
    + destruct (includes (KeyRange.only k) k') eqn:Hin; [|exact IH].
      apply includes_only in Hin. subst. rewrite key_compare_refl in Hc. discriminate.
Qed.

Lemma filter_store_entries (r : IDBKeyRange) (l : list (Key * JSObject)) :
  List.filter (in_range r) (List.map store_entry l)
  = List.map store_entry (List.filter (fun kv : Key * JSObject => includes r kv.1) l).
Proof.
  induction l as [|a l IH]; [reflexivity|]. simpl.
  unfold in_range at 1. simpl. destruct (includes r a.1); simpl; now rewrite IH.
Qed.

Lemma getAll_store_only (os : IDBObjectStore) (k : Key) (v : JSObject)
    (l : list (Key * JSObject)) :
  keys_ascending l ->
  os_records os = store_put k v l ->
  getAll (StoreSource os) (Some (QKey k)) None = inr [v].
Proof.
  intros Hsorted Hrecords. unfold getAll, source_entries, store_entries. simpl.
  rewrite Hrecords, filter_store_entries, filter_only_store_put by assumption.
  reflexivity.
Qed.

Lemma getStorage_selected (mode : Mode) (c : IndexedDbClient.t) (h : Host)
    (d name : string) (database : IDBDatabase) (os : IDBObjectStore) :
  db c = Some d ->
  name <> EmptyString ->
  databases h !! d = Some database ->
  db_upgrading database = false ->
  db_stores database !! name = Some os ->
  getStorage mode (from name c) h
  = inr {| st_db := d; st_name := name; st_mode := mode; st_store := os |}.
Proof.
  intros Hdb Hne Hd Hup Hos. unfold getStorage. simpl. rewrite Hdb.
  apply String.eqb_neq in Hne. rewrite Hne. simpl. now rewrite Hd, Hup, Hos.
Qed.

Lemma commit_lookup (st : Storage) (os : IDBObjectStore) (h : Host)
    (database : IDBDatabase) :
  databases h !! st_db st = Some database ->
  databases (commit st os h) !! st_db st = Some (set_store (st_name st) os database) /\
  db_stores (set_store (st_name st) os database) !! st_name st = Some os /\
  failing (commit st os h) = failing h.
Proof.
  intros Hd. unfold commit. rewrite Hd. simpl.
  rewrite !lookup_insert_eq. auto.
Qed.

Lemma commit_same (st : Storage) (h : Host) (database : IDBDatabase) :
  databases h !! st_db st = Some database ->
  db_stores database !! st_name st = Some (st_store st) ->
  commit st (st_store st) h = h.
Proof.
  intros Hd Hos. unfold commit. rewrite Hd.
  destruct h as [dbs f]. destruct database as [v stores conns up]. simpl in *.
  unfold set_database, set_store. simpl.
  rewrite (insert_id stores) by assumption.
  now rewrite insert_id.
Qed.

Lemma getStorage_selection (mode : Mode) (c : IndexedDbClient.t) (h : Host)
    (st : Storage) :
  getStorage mode c h = inr st ->
  db c = Some (st_db st) /\ storageName c = Some (st_name st) /\
  lookup_store h (st_db st) (st_name st) = Some (st_store st).
Proof.
  unfold getStorage, lookup_store.
  destruct (db c) as [d|]; [|discriminate].
  destruct (storageName c) as [name|]; [|discriminate]. simpl.
  destruct (negb (negb (String.eqb name EmptyString))); [discriminate|].
  destruct (databases h !! d) as [database|] eqn:Hd; [|discriminate].
  destruct (db_upgrading database); [discriminate|].
  destruct (db_stores database !! name) as [os|] eqn:Hos; [|discriminate].
  intros [= <-]. simpl. rewrite Hd. simpl. auto.
Qed.

Lemma lookup_store_commit (st : Storage) (os : IDBObjectStore) (h : Host)
    (d name : string) :
  is_Some (databases h !! st_db st) ->
  lookup_store (commit st os h) d name
  = if bool_decide (d = st_db st /\ name = st_name st) then Some os
    else lookup_store h d name.
Proof.
  intros [database Hd]. unfold commit, lookup_store. rewrite Hd. simpl.
  destruct (decide (d = st_db st)) as [->|Hne].
  - rewrite lookup_insert_eq, Hd. simpl.
    destruct (decide (name = st_name st)) as [->|Hne'].
    + rewrite lookup_insert_eq. now rewrite bool_decide_eq_true_2.
    + rewrite lookup_insert_ne by congruence.
      rewrite bool_decide_eq_false_2 by tauto. reflexivity.
  - rewrite lookup_insert_ne by congruence.
    rewrite bool_decide_eq_false_2 by tauto. reflexivity.
Qed.


(** C3.  On an open connection whose database is not being upgraded and a
    storage created by the client (key path "id", generated keys),
    inserting a record [r] that has no "id" and that no unique index refuses
    resolves with the generated key [k], and selecting by
    [{ key: 'id', value: k }] then resolves with exactly one record: [r]
    with its "id" set to [k]. *)
Theorem insert_then_select_by_key
    (c : IndexedDbClient.t) (h : Host) (d name : string) (database : IDBDatabase)
    (os : IDBObjectStore) (r : JSObject) :
  db c = Some d ->
  name <> EmptyString ->
  databases h !! d = Some database ->
  db_upgrading database = false ->
  db_stores database !! name = Some os ->
  failing h = false ->
  store_wf os ->
  os_keyPath os = "id" ->
  os_autoIncrement os = true ->
  (os_generator os <= max_generated)%Z ->
  r !! "id" = None ->
  existsb (violates (KNumber (os_generator os))
                    (<["id" := JKey (KNumber (os_generator os))]> r)
                    (os_records os)) (os_indexes os) = false ->
  let k := KNumber (os_generator os) in
  let inserted := insert r (from name c) h in
  inserted.1.1 = Resolved k /\
  (select (Some {| sp_key := Some "id"; sp_value := Some (QKey k);
                   sp_count := None; sp_orderBy := None |})
          (from name inserted.1.2) inserted.2).1.1
  = Resolved [<["id" := JKey k]> r].
Proof.
  intros Hdb Hne Hd Hup Hos Hfail [Hsorted Hgen] Hpath Hauto Hmax Hid Hunique k inserted.
  subst inserted. unfold insert.
  rewrite (getStorage_selected _ _ _ _ _ _ _ Hdb Hne Hd Hup Hos). simpl.
  unfold put. rewrite Hpath, Hid, Hauto, Hfail. simpl.
  assert ((max_generated <? os_generator os)%Z = false) as -> by lia.
  rewrite Hunique. simpl.
  assert ((os_generator os =? 0)%Z = false) as -> by lia. simpl.
  split; [reflexivity|].
  set (os' := {| os_keyPath := "id" |}).
  set (st := {| st_db := d |}).
  destruct (commit_lookup st os' h database Hd) as (Hd' & Hos' & Hfail').
  unfold select.
  rewrite (getStorage_selected ReadOnly (clearStorageName (from name c)) _ d name _ os'
             Hdb Hne Hd' Hup Hos').
  cbn [mbind option_bind sp_key sp_value sp_count sp_orderBy defined number_truthy
       bool_decide decide_rel negb orb andb st_store].
  rewrite bool_decide_eq_true_2 by reflexivity.
  rewrite bool_decide_eq_false_2 by discriminate.
  cbn [orb negb].
  rewrite (getAll_store_only os' k _ (os_records os) Hsorted eq_refl).
  rewrite Hfail', Hfail. reflexivity.
Qed.

Lemma insert_then_select_by_key_witness :
  let inserted :=
    insert (Example.task "B") (from "tasks" Example.one_task.1) Example.one_task.2 in
  inserted.1.1 = Resolved (KNumber 2) /\
  (select (Some {| sp_key := Some "id"; sp_value := Some (QKey (KNumber 2));
                   sp_count := None; sp_orderBy := None |})
          (from "tasks" inserted.1.2) inserted.2).1.1
  = Resolved [<["id" := JKey (KNumber 2)]> (Example.task "B")].
Proof.
  apply (insert_then_select_by_key Example.one_task.1 Example.one_task.2
           "exampleIndexedDbClientDb" "tasks" Example.one_task_database
           Example.one_task_store (Example.task "B")).
  - reflexivity.
  - discriminate.
  - vm_compute. reflexivity.
  - reflexivity.
  - vm_compute. reflexivity.
  - reflexivity.
  - split; [repeat constructor | simpl; lia].
  - reflexivity.
  - reflexivity.
  - vm_compute. discriminate.
  - vm_compute. reflexivity.
  - vm_compute. reflexivity.
Defined.

End RoundTrip.

(** * Index-scoped delete *)

Section IndexDelete.
Import IndexedDbClient.

Lemma insert_entry_In (e x : Entry) (l : list Entry) :
  In x (insert_entry e l) <-> x = e \/ In x l.
Proof.
  induction l as [|a l IH]; simpl.
  - intuition congruence.
  - destruct (entry_leb e a); simpl; [intuition congruence|].
    rewrite IH. intuition congruence.
Qed.

Lemma sort_entries_In (x : Entry) (l : list Entry) :
  In x (sort_entries l) <-> In x l.
Proof.
  induction l as [|a l IH]; simpl; [tauto|].
  rewrite insert_entry_In, IH. intuition congruence.
Qed.

Lemma insert_entry_sorted (e : Entry) (l : list Entry) :
  StronglySorted entry_le l -> StronglySorted entry_le (insert_entry e l).
Proof.
  induction 1 as [|a l Hl IH Hall]; simpl.
  - repeat constructor.
  - destruct (entry_leb e a) eqn:Hle.
    + constructor; [now constructor|].
      constructor; [exact Hle|].
      eapply List.Forall_impl; [|exact Hall].
      intros b Hb. eapply entry_leb_trans; eassumption.
    + constructor; [exact IH|].
      apply List.Forall_forall. intros x Hx.
      apply insert_entry_In in Hx. destruct Hx as [-> | Hx].
      * now apply entry_leb_total.
      * rewrite List.Forall_forall in Hall. now apply Hall.
Qed.

Lemma sort_entries_sorted (l : list Entry) : StronglySorted entry_le (sort_entries l).
Proof.
  induction l as [|a l IH]; simpl; [constructor|]. now apply insert_entry_sorted.
Qed.

(** The first entry of a sorted list that passes a test is below every
    other entry of the list that passes it. *)
Lemma find_sorted_least (P : Entry -> bool) (l : list Entry) (e e' : Entry) :
  StronglySorted entry_le l ->
  List.find P l = Some e ->
  In e' l -> P e' = true ->
  e' = e \/ entry_le e e'.
Proof.
  induction 1 as [|a l Hl IH Hall]; simpl; [discriminate|].
  destruct (P a) eqn:HPa.
  - intros [= <-] [<- | Hin] _; [now left|].
    right. rewrite List.Forall_forall in Hall. now apply Hall.
  - intros Hfind [<- | Hin] HP; [congruence|]. now apply IH.
Qed.

Lemma index_entries_In (ix : IDBIndex) (os : IDBObjectStore) (e : Entry) :
  In e (index_entries ix os) <->
  exists kv, In kv (os_records os) /\ index_entry ix kv = Some e.
Proof.
  unfold index_entries. rewrite sort_entries_In, <- list_elem_of_In, list_elem_of_omap.
  split; intros (kv & Hin & He); exists kv; split; try assumption;
    now apply list_elem_of_In.
Qed.


Lemma ascending_unique (l : list (Key * JSObject)) (x y : Key * JSObject) :
  keys_ascending l -> In x l -> In y l -> x.1 = y.1 -> x = y.
Proof.
  induction 1 as [|a l Hl IH Hall]; simpl; [tauto|].
  rewrite List.Forall_forall in Hall.
  intros [<- | Hx] [<- | Hy] Heq; try reflexivity.
  - specialize (Hall _ Hy). unfold key_lt in Hall.
    rewrite Heq, key_compare_refl in Hall. discriminate.
  - specialize (Hall _ Hx). unfold key_lt in Hall.
    rewrite Heq, key_compare_refl in Hall. discriminate.
  - now apply IH.
Qed.

Lemma filter_ascending (f : Key * JSObject -> bool) (l : list (Key * JSObject)) :
  keys_ascending l -> keys_ascending (List.filter f l).
Proof.
  induction 1 as [|a l Hl IH Hall]; simpl; [constructor|].
  destruct (f a); [|exact IH].
  constructor; [exact IH|].
  rewrite List.Forall_forall in *. intros x Hx.
  apply List.filter_In in Hx. now apply Hall.
Qed.

Lemma filter_filter_absorb {A} (f g : A -> bool) (l : list A) :
  (forall x, In x l -> g x = false -> f x = false) ->
  List.filter f (List.filter g l) = List.filter f l.
Proof.
  induction l as [|a l IH]; simpl; [reflexivity|]. intros H.
  destruct (g a) eqn:Hg; simpl.
  - rewrite IH by auto. reflexivity.
  - rewrite (H a) by auto. apply IH. auto.
Qed.

Lemma filter_length_le {A} (f g : A -> bool) (l : list A) :
  length (List.filter f (List.filter g l)) <= length (List.filter f l).
Proof.
  induction l as [|a l IH]; simpl; [lia|].
  destruct (g a), (f a) eqn:Hf; simpl; rewrite ?Hf; simpl; lia.
Qed.

Lemma filter_length_lt {A} (f g : A -> bool) (l : list A) (x : A) :
  In x l -> f x = true -> g x = false ->
  length (List.filter f (List.filter g l)) < length (List.filter f l).
Proof.
  induction l as [|a l IH]; simpl; [tauto|].
  intros [-> | Hin] Hf Hg.
  - rewrite Hg, Hf. simpl. pose proof (filter_length_le f g l). lia.
  - specialize (IH Hin Hf Hg).
    destruct (g a), (f a) eqn:Hfa; simpl; rewrite ?Hfa; simpl; lia.
Qed.

Lemma with_records_same (os : IDBObjectStore) : with_records os (os_records os) = os.
Proof. now destruct os. Qed.

Lemma delete_walk_removes_hits (ix : IDBIndex) (v : Key) :
  forall (fuel : nat) (os : IDBObjectStore) (pos : option Entry),
    keys_ascending (os_records os) ->
    (forall kv e, In kv (os_records os) -> index_entry ix kv = Some e ->
                  e_key e = v -> beyond Next pos e = true) ->
    length (List.filter (hit ix v) (os_records os)) < fuel ->
    delete_walk fuel ix (KeyRange.only v) pos os
    = Some (with_records os
              (List.filter (fun kv => negb (hit ix v kv)) (os_records os))).
Proof.
  induction fuel as [|fuel IH]; intros os pos Hsorted Hbeyond Hfuel; [lia|].
  simpl. unfold iterate_cursor.
  destruct (List.find _ (index_entries ix os)) as [e|] eqn:Hfind.
  - pose proof (List.find_some _ _ Hfind) as [He Hwanted].
    apply andb_true_iff in Hwanted. destruct Hwanted as [Hrange Hpos].
    apply includes_only in Hrange.
    apply index_entries_In in He. destruct He as (kv & Hkv & He).
    assert (Hpk : e_primaryKey e = kv.1).
    { unfold index_entry in He. destruct (extract_key _ _); [|discriminate].
      now injection He as <-. }
    assert (Hhit : hit ix v kv = true).
    { unfold hit. apply bool_decide_eq_true_2.
      unfold index_entry in He. destruct (extract_key _ _); [|discriminate].
      injection He as <-. simpl in Hrange. congruence. }
    assert (Hgone : forall x, In x (os_records os) ->
              negb (includes (KeyRange.only (e_primaryKey e)) x.1) = false -> x = kv).
    { intros x Hx Hin. apply negb_false_iff, includes_only in Hin.
      apply (ascending_unique (os_records os)); try assumption. congruence. }
    unfold cursor_delete, delete_records.
    rewrite IH.
    + simpl. f_equal. unfold with_records. simpl. f_equal.
      apply filter_filter_absorb. intros x Hx Hin.
      rewrite (Hgone x Hx Hin), Hhit. reflexivity.
    + simpl. now apply filter_ascending.
    + simpl. intros kv' e' Hkv' He' Hkey'.
      apply List.filter_In in Hkv'. destruct Hkv' as [Hkv' Hdiff].
      assert (Hin' : In e' (index_entries ix os)).
      { apply index_entries_In. now exists kv'. }
      assert (Hpk' : e_primaryKey e' = kv'.1).
      { unfold index_entry in He'. destruct (extract_key _ _); [|discriminate].
        now injection He' as <-. }
      assert (Hne : e_primaryKey e' <> e_primaryKey e).
      { intros Heq. rewrite Hpk' in Heq.
        apply negb_true_iff in Hdiff.
        assert (includes (KeyRange.only (e_primaryKey e)) kv'.1 = true)
          by now apply includes_only.
        congruence. }
      destruct (find_sorted_least _ _ e e' (sort_entries_sorted _) Hfind Hin')
        as [-> | Hle].
      * unfold in_range. rewrite Hkey'.
        assert (includes (KeyRange.only v) v = true) as -> by now apply includes_only.
        simpl. eapply Hbeyond; eassumption.
      * congruence.
      * unfold entry_le, entry_leb in Hle.
        destruct (entry_compare e e') eqn:Hc; try discriminate; [|reflexivity].
        apply entry_compare_eq in Hc. destruct Hc as [_ Hc]. congruence.
    + simpl.
      pose proof (filter_length_lt (hit ix v)
                    (fun kv0 : Key * JSObject =>
                       negb (includes (KeyRange.only (e_primaryKey e)) kv0.1))
                    (os_records os) kv Hkv Hhit) as Hlt.
      assert (negb (includes (KeyRange.only (e_primaryKey e)) kv.1) = false) as Hkill.
      { apply negb_false_iff, includes_only. congruence. }
      specialize (Hlt Hkill). lia.
  - rewrite <- (with_records_same os) at 1. f_equal. f_equal.
    symmetry. apply List.forallb_filter_id.
    apply List.forallb_forall. intros kv Hkv.
    destruct (hit ix v kv) eqn:Hhit; [|reflexivity]. exfalso.
    unfold hit in Hhit. apply bool_decide_eq_true_1 in Hhit.
    set (e := {| e_key := v; e_primaryKey := kv.1; e_value := kv.2 |}).
    assert (He : index_entry ix kv = Some e) by (unfold index_entry; now rewrite Hhit).
    assert (Hin : In e (index_entries ix os)) by (apply index_entries_In; eauto).
    pose proof (List.find_none _ _ Hfind e Hin) as Hnone. simpl in Hnone.
    unfold in_range in Hnone. simpl in Hnone.
    assert (includes (KeyRange.only v) v = true) as Hv by now apply includes_only.
    rewrite Hv, (Hbeyond kv e Hkv He eq_refl) in Hnone. discriminate.
Qed.

(** C4.  On an open connection whose database is not being upgraded: for a
    declared index, unique or not, and a key [v], delete with that index as
    [key] and [v] as [value] resolves and clears the Selection Context;
    afterwards the storage holds exactly the records whose indexed property
    is not [v], each as it was and in the same order, its key path, key
    generator and indexes are as before, and every other storage of the
    host is as before. *)
Theorem delete_by_index_removes_matching
    (c : IndexedDbClient.t) (h : Host) (d name : string) (database : IDBDatabase)
    (os : IDBObjectStore) (params : SelectParams) (index : string) (ix : IDBIndex)
    (v : Key) :
  db c = Some d ->
  name <> EmptyString ->
  databases h !! d = Some database ->
  db_upgrading database = false ->
  db_stores database !! name = Some os ->
  failing h = false ->
  keys_ascending (os_records os) ->
  sp_key params = Some index ->
  index <> EmptyString -> index <> "id" ->
  store_index index os = inr ix ->
  sp_value params = Some (QKey v) ->
  let deleted := delete params (from name c) h in
  deleted.1.1 = Resolved tt /\
  deleted.1.2 = clearStorageName c /\
  (exists os',
     lookup_store deleted.2 d name = Some os' /\
     os_records os'
     = List.filter
         (fun kv : Key * JSObject =>
            negb (bool_decide (extract_key (ix_keyPath ix) kv.2 = Some v)))
         (os_records os) /\
     os_keyPath os' = os_keyPath os /\
     os_autoIncrement os' = os_autoIncrement os /\
     os_generator os' = os_generator os /\
     os_indexes os' = os_indexes os) /\
  (forall d' name', d' <> d \/ name' <> name ->
     lookup_store deleted.2 d' name' = lookup_store h d' name') /\
  failing deleted.2 = failing h.
Proof.
  intros Hdb Hne Hd Hup Hos Hfail Hsorted Hkey Hi1 Hi2 Hix Hvalue deleted.
  subst deleted. unfold delete.
  rewrite (getStorage_selected _ _ _ _ _ _ _ Hdb Hne Hd Hup Hos).
  cbn [st_store st_mode]. rewrite Hkey, Hvalue. cbn [string_truthy default].
  apply String.eqb_neq in Hi1. rewrite Hi1.
  rewrite bool_decide_eq_false_2 by congruence.
  cbn [negb andb]. unfold id. rewrite Hix. cbn [IDBKeyRange_only]. rewrite Hfail.
  rewrite (delete_walk_removes_hits ix v); try assumption;
    [|intros; reflexivity
     |pose proof (List.filter_length_le (hit ix v) (os_records os)); lia].
  cbn [fst snd].
  split; [reflexivity|]. split; [reflexivity|]. split; [|split].
  - eexists. split; [committed_store Hd; reflexivity|]. repeat split; reflexivity.
  - other_store Hd.
  - unfold commit. cbn [st_db]. rewrite Hd. exact Hfail.
Qed.

(** Tasks "A", "B", "A": deleting by name "A" leaves task 2 alone. *)
Lemma delete_by_index_removes_matching_witness :
  let params := {| sp_key := Some "tasksName"; sp_value := Some (QKey (KString "A"));
                   sp_count := None; sp_orderBy := None |} in
  let deleted :=
    delete params (from "tasks" Example.three_tasks_written.1)
           Example.three_tasks_written.2 in
  deleted.1.1 = Resolved tt /\
  exists os',
    lookup_store deleted.2 "exampleIndexedDbClientDb" "tasks" = Some os' /\
    os_records os' = [(KNumber 2, Example.stored 2 "B")] /\
    os_generator os' = 4%Z.
Proof.
  intros params deleted.
  destruct (delete_by_index_removes_matching
              Example.three_tasks_written.1 Example.three_tasks_written.2
              "exampleIndexedDbClientDb" "tasks" Example.three_tasks_database
              Example.three_tasks_store params "tasksName"
              {| ix_name := "tasksName"; ix_keyPath := "name"; ix_unique := false |}
              (KString "A"))
    as (Hresolved & _ & (os' & Hlookup & Hrecords & _ & _ & Hgen & _) & _).
  - reflexivity.
  - discriminate.
  - vm_compute. reflexivity.
  - reflexivity.
  - vm_compute. reflexivity.
  - reflexivity.
  - repeat constructor.
  - reflexivity.
  - discriminate.
  - discriminate.
  - reflexivity.
  - reflexivity.
  - split; [exact Hresolved|]. exists os'. split; [exact Hlookup|]. split.
    + rewrite Hrecords. vm_compute. reflexivity.
    + rewrite Hgen. reflexivity.
Defined.

End IndexDelete.

(** * The upgrade phase of init *)

Section Upgrade.
Import IndexedDbClient.

Lemma createIndexes_all (indexes : list StorageIndex) :
  forall os : IDBObjectStore,
    List.NoDup (List.map ix_name (os_indexes os) ++ List.map si_index indexes) ->
    List.Forall (fun i => valid_key_path (si_key i) = true) indexes ->
    createIndexes indexes os
    = (None, {| os_keyPath := os_keyPath os;
                os_autoIncrement := os_autoIncrement os;
                os_generator := os_generator os;
                os_records := os_records os;
                os_indexes := os_indexes os ++ List.map declared_index indexes |}).
Proof.
  induction indexes as [|i rest IH]; intros os Hnodup Hpaths; simpl.
  - rewrite List.app_nil_r. now destruct os.
  - unfold createIndex.
    assert (existsb (fun ix => String.eqb (ix_name ix) (si_index i)) (os_indexes os)
            = false) as ->.
    { apply not_true_is_false. intros Hex.
      apply List.existsb_exists in Hex. destruct Hex as (ix & Hin & Heq).
      apply String.eqb_eq in Heq.
      apply List.NoDup_remove_2 in Hnodup. apply Hnodup.
      apply List.in_or_app. left. rewrite <- Heq. now apply List.in_map. }
    apply List.Forall_cons_iff in Hpaths. destruct Hpaths as [Hpath Hpaths].
    rewrite Hpath. cbn [negb].
    rewrite IH; simpl.
    + rewrite <- List.app_assoc. reflexivity.
    + rewrite List.map_app, <- List.app_assoc. exact Hnodup.
    + exact Hpaths.
Qed.

(** On a connection that is being upgraded, [createStorage] for a storage
    that is missing and whose declarations are valid creates it as
    declared. *)
Lemma createStorage_creates (cfg : IDBConfig) (c : IndexedDbClient.t) (n name : string)
    (h : Host) (d : IDBDatabase) :
  config c = Some cfg ->
  db c = Some n ->
  databases h !! n = Some d ->
  db_upgrading d = true ->
  db_stores d !! name = None ->
  (storeNameToIndexes cfg !! name = None -> inherited name = false) ->
  List.NoDup (List.map si_index (declared_indexes cfg name)) ->
  List.Forall (fun i => valid_key_path (si_key i) = true) (declared_indexes cfg name) ->
  createStorage name c h
  = (None, set_database n (set_store name (created_storage cfg name) d) h).
Proof.
  intros Hcfg Hdb Hd Hup Hos Hown Hnodup Hpaths.
  unfold createStorage, contains. rewrite Hdb. simpl. rewrite Hd, Hos. simpl.
  unfold createObjectStore. rewrite Hup, Hos. simpl.
  rewrite Hcfg. simpl. unfold created_storage, declared_indexes in *.
  destruct (storeNameToIndexes cfg !! name) as [indexes|]; simpl in *.
  - rewrite createIndexes_all by assumption. simpl.
    unfold set_store. simpl. now rewrite insert_insert_eq.
  - now rewrite Hown.
Qed.

Lemma upgrade_creates (cfg : IDBConfig) (c : IndexedDbClient.t) (n : string) :
  config c = Some cfg ->
  db c = Some n ->
  forall (names : list string) (h : Host) (d : IDBDatabase),
    (forall name, name ∈ names ->
       (storeNameToIndexes cfg !! name = None -> inherited name = false) /\
       List.NoDup (List.map si_index (declared_indexes cfg name)) /\
       List.Forall (fun i => valid_key_path (si_key i) = true)
                   (declared_indexes cfg name)) ->
    databases h !! n = Some d ->
    db_upgrading d = true ->
    exists d',
      upgrade names c h = (None, set_database n d' h) /\
      db_upgrading d' = true /\
      db_version d' = db_version d /\
      db_connections d' = db_connections d /\
      forall name, db_stores d' !! name = upgraded cfg names (db_stores d) name.
Proof.
  intros Hcfg Hdb.
  induction names as [|name rest IH]; intros h d Hvalid Hd Hup.
  - exists d. simpl. repeat split; try reflexivity; try assumption.
    + unfold set_database. destruct h as [dbs f]. simpl in *.
      now rewrite insert_id.
    + intros name. unfold upgraded. destruct (db_stores d !! name); [reflexivity|].
      rewrite bool_decide_eq_false_2; [reflexivity|]. apply not_elem_of_nil.
  - simpl. unfold contains at 1. rewrite Hdb. simpl. rewrite Hd.
    destruct (db_stores d !! name) as [os|] eqn:Hos; simpl.
    + destruct (IH h d) as (d' & Hrun & Hup' & Hv & Hc & Hstores); try assumption.
      { intros x Hx. apply Hvalid. apply elem_of_cons. now right. }
      exists d'. repeat split; try assumption.
      intros x. rewrite Hstores. unfold upgraded.
      destruct (db_stores d !! x) eqn:Hx; [reflexivity|].
      assert (x <> name) by congruence.
      destruct (bool_decide_reflect (x ∈ rest)) as [Hin|Hnin].
      * rewrite bool_decide_eq_true_2; [reflexivity|]. apply elem_of_cons. now right.
      * rewrite bool_decide_eq_false_2; [reflexivity|]. rewrite elem_of_cons. intuition congruence.
    + destruct (Hvalid name) as (Hown & Hnodup & Hpaths); [apply elem_of_cons; now left|].
      rewrite (createStorage_creates cfg c n name h d) by assumption.
      set (d1 := set_store name (created_storage cfg name) d).
      destruct (IH (set_database n d1 h) d1) as (d' & Hrun & Hup' & Hv & Hc & Hstores).
      { intros x Hx. apply Hvalid. apply elem_of_cons. now right. }
      { simpl. apply lookup_insert_eq. }
      { exact Hup. }
      exists d'. rewrite Hrun. repeat split; try assumption.
      * unfold set_database. simpl. now rewrite insert_insert_eq.
      * intros x. rewrite Hstores. unfold upgraded, d1. simpl.
        destruct (decide (x = name)) as [->|Hne].
        -- rewrite lookup_insert_eq, Hos.
           rewrite bool_decide_eq_true_2 by (apply elem_of_cons; now left). reflexivity.
        -- rewrite lookup_insert_ne by congruence.
           destruct (db_stores d !! x); [reflexivity|].
           destruct (bool_decide_reflect (x ∈ rest)) as [Hin|Hnin].
           ++ rewrite bool_decide_eq_true_2; [reflexivity|]. apply elem_of_cons. now right.
           ++ rewrite bool_decide_eq_false_2; [reflexivity|]. rewrite elem_of_cons. intuition congruence.
Qed.

Lemma open_upgrade (n : string) (version : option Z) (h : Host) (d : IDBDatabase) :
  open n version h = OpenUpgrade d ->
  db_stores d = from_option db_stores ∅ (databases h !! n) /\ db_upgrading d = true.
Proof.
  unfold open. cbv zeta.
  repeat match goal with
         | |- context [if ?b then _ else _] => destruct b
         end; try discriminate.
  all: intros [= <-]; split; reflexivity.
Qed.

(** C9.  For a descriptor the upgrade can carry out ([valid_config]): when
    [init] finds that the database needs an upgrade, it resolves and marks
    the client initialized, and the database it leaves, still inside the
    upgrade, has every storage that existed before exactly as it was
    (records, key generator and indexes), every storage named in the
    descriptor that did not exist with key path "id", generated keys, no
    records and its declared indexes (unique only where the declaration
    says so), and no other storage. *)
Theorem init_upgrade_creates_missing_storages
    (c : IndexedDbClient.t) (h : Host) (cfg : IDBConfig) (d : IDBDatabase) :
  config c = Some cfg ->
  valid_config cfg ->
  open (dbName cfg) (dbVersion cfg) h = OpenUpgrade d ->
  exists final : IDBDatabase,
    init c h = (Resolved tt,
                set_isInited true (set_db (Some (dbName cfg)) c),
                set_database (dbName cfg) final h) /\
    db_upgrading final = true /\
    forall name,
      db_stores final !! name
      = upgraded cfg (storageNames cfg)
          (from_option db_stores ∅ (databases h !! dbName cfg)) name.
Proof.
  intros Hcfg Hvalid Hopen.
  destruct (open_upgrade _ _ _ _ Hopen) as [Hstores Hup].
  unfold init, init_onupgradeneeded. rewrite Hcfg, Hopen.
  destruct (upgrade_creates cfg (set_db (Some (dbName cfg)) c) (dbName cfg)
              Hcfg eq_refl (storageNames cfg)
              (set_database (dbName cfg) d h) d Hvalid)
    as (d' & Hrun & Hup' & _ & _ & Hfinal).
  { simpl. apply lookup_insert_eq. }
  { exact Hup. }
  rewrite Hrun. simpl.
  exists d'. split; [|split].
  - unfold set_database. simpl. now rewrite !insert_insert_eq.
  - exact Hup'.
  - intros name. rewrite Hfinal, Hstores. reflexivity.
Qed.

(** The example's database at version 1, holding one task, is opened with
    the second version of the schema: "tasks" stays as it is, with its
    record, and "notes" is created with its unique index. *)
Lemma init_upgrade_creates_missing_storages_witness :
  exists final : IDBDatabase,
    init (constructor (Some Example.notesConfig)) Example.one_task_closed
    = (Resolved tt,
       set_isInited true
         (set_db (Some "exampleIndexedDbClientDb")
                 (constructor (Some Example.notesConfig))),
       set_database "exampleIndexedDbClientDb" final Example.one_task_closed) /\
    db_stores final !! "tasks" = Some Example.one_task_store /\
    db_stores final !! "notes"
    = Some {| os_keyPath := "id"; os_autoIncrement := true; os_generator := 1;
              os_records := [];
              os_indexes := [ {| ix_name := "notesTitle"; ix_keyPath := "title";
                                 ix_unique := true |} ] |} /\
    db_stores final !! "drafts" = None.
Proof.
  destruct (init_upgrade_creates_missing_storages
              (constructor (Some Example.notesConfig)) Example.one_task_closed
              Example.notesConfig
              {| db_version := 2; db_stores := {[ "tasks" := Example.one_task_store ]};
                 db_connections := 1; db_upgrading := true |})
    as (final & Hinit & _ & Hstores).
  - reflexivity.
  - intros name Hname.
    apply elem_of_cons in Hname. destruct Hname as [-> | Hname];
      [|apply list_elem_of_singleton in Hname; subst name].
    + split; [intros H; vm_compute in H; discriminate|].
      split; [vm_compute; repeat constructor; simpl; intuition discriminate|].
      vm_compute. repeat constructor.
    + split; [intros H; vm_compute in H; discriminate|].
      split; [vm_compute; repeat constructor; simpl; intuition discriminate|].
      vm_compute. repeat constructor.
  - vm_compute. reflexivity.
  - exists final. split; [exact Hinit|].
    rewrite !Hstores. repeat split; vm_compute; reflexivity.
Defined.

End Upgrade.

(** * The engine's invariant is kept *)

Section Invariant.
Import IndexedDbClient.

Lemma Forall_store_put (P : Key * JSObject -> Prop) (k : Key) (v : JSObject)
    (l : list (Key * JSObject)) :
  P (k, v) -> List.Forall P l -> List.Forall P (store_put k v l).
Proof.
  intros Hkv. induction 1 as [|[k' v'] t Ha Ht IH]; simpl.
  - now constructor.
  - destruct (key_compare k k'); repeat constructor; assumption.
Qed.

Lemma store_put_ascending (k : Key) (v : JSObject) (l : list (Key * JSObject)) :
  keys_ascending l -> keys_ascending (store_put k v l).
Proof.
  induction 1 as [|[k' v'] t Ht IH Hall]; simpl.
  - repeat constructor.
  - destruct (key_compare k k') eqn:Hc.
    + apply key_compare_eq in Hc. subst k'. now constructor.
    + constructor; [now constructor|].
      constructor; [exact Hc|].
      eapply List.Forall_impl; [|exact Hall].
      intros b Hb. unfold key_lt in *. simpl in *.
      eapply key_compare_trans; eassumption.
    + constructor; [exact IH|].
      apply Forall_store_put; [|exact Hall].
      unfold key_lt. simpl. now apply key_compare_gt_lt.
Qed.

Lemma put_wf (mode : Mode) (f : bool) (value : JSObject) (os os' : IDBObjectStore)
    (request : IDBRequest Key) :
  store_wf os -> put mode f value os = inr (request, os') -> store_wf os'.
Proof.
  intros [Hsorted Hgen]. unfold put.
  destruct mode; [discriminate|].
  assert (Hstored : forall k v gen,
    (1 <= gen)%Z ->
    (if f then (RequestError "UnknownError", os)
     else if existsb (violates k v (os_records os)) (os_indexes os)
          then (RequestError "ConstraintError", os)
          else (RequestSuccess k,
                {| os_keyPath := os_keyPath os;
                   os_autoIncrement := os_autoIncrement os;
                   os_generator := gen;
                   os_records := store_put k v (os_records os);
                   os_indexes := os_indexes os |})) = (request, os') ->
    store_wf os').
  { intros k v gen Hg. destruct f; [intros [= _ <-]; now split|].
    destruct (existsb _ _); intros [= _ <-]; [now split|].
    split; simpl; [now apply store_put_ascending|exact Hg]. }
  destruct (value !! os_keyPath os) as [[| |b|k]|].
  - destruct (negb (os_autoIncrement os)); [discriminate|].
    destruct (max_generated <? os_generator os)%Z; [intros [= _ <-]; now split|].
    intros [= Heq]. eapply Hstored; [|exact Heq]. lia.
  - discriminate.
  - discriminate.
  - intros [= Heq]. eapply Hstored; [|exact Heq].
    destruct k; try exact Hgen.
    destruct (os_autoIncrement os && (os_generator os <=? n)%Z) eqn:Hb; [|exact Hgen].
    apply andb_true_iff in Hb. lia.
  - destruct (negb (os_autoIncrement os)); [discriminate|].
    destruct (max_generated <? os_generator os)%Z; [intros [= _ <-]; now split|].
    intros [= Heq]. eapply Hstored; [|exact Heq]. lia.
Qed.

Lemma with_records_wf (os : IDBObjectStore) (f : Key * JSObject -> bool) :
  store_wf os -> store_wf (with_records os (List.filter f (os_records os))).
Proof. intros [Hs Hg]. split; [now apply filter_ascending|exact Hg]. Qed.

Lemma store_delete_wf (mode : Mode) (f : bool) (query : option Query)
    (os os' : IDBObjectStore) (request : IDBRequest unit) :
  store_wf os -> store_delete mode f query os = inr (request, os') -> store_wf os'.
Proof.
  intros Hwf. unfold store_delete.
  destruct mode; [discriminate|]. destruct query; [|discriminate].
  destruct f; intros [= _ <-]; [exact Hwf|]. now apply with_records_wf.
Qed.

Lemma delete_walk_wf (ix : IDBIndex) (r : IDBKeyRange) :
  forall (fuel : nat) (pos : option Entry) (os os' : IDBObjectStore),
    store_wf os -> delete_walk fuel ix r pos os = Some os' -> store_wf os'.
Proof.
  induction fuel as [|fuel IH]; intros pos os os' Hwf; cbn [delete_walk];
    [discriminate|].
  destruct (iterate_cursor _ _ _ _) as [e|].
  - apply IH. now apply with_records_wf.
  - now intros [= <-].
Qed.

Lemma commit_wf (st : Storage) (os : IDBObjectStore) (h : Host) :
  host_wf h -> store_wf os -> host_wf (commit st os h).
Proof.
  intros Hh Hos. unfold commit.
  destruct (databases h !! st_db st) as [database|] eqn:Hd; [|exact Hh].
  intros d database' name os'. simpl.
  destruct (decide (st_db st = d)) as [<-|Hne].
  - rewrite lookup_insert_eq. intros [= <-]. simpl.
    destruct (decide (st_name st = name)) as [<-|Hne'].
    + rewrite lookup_insert_eq. now intros [= <-].
    + rewrite lookup_insert_ne by assumption. now apply (Hh (st_db st) database).
  - rewrite lookup_insert_ne by assumption. apply Hh.
Qed.

Lemma getStorage_wf (mode : Mode) (c : IndexedDbClient.t) (h : Host) (st : Storage) :
  host_wf h -> getStorage mode c h = inr st -> store_wf (st_store st).
Proof.
  intros Hh. unfold getStorage.
  destruct (db c) as [d|]; [|discriminate].
  destruct (negb _); [discriminate|].
  destruct (databases h !! d) as [database|] eqn:Hd; [|discriminate].
  destruct (db_upgrading database); [discriminate|].
  destruct (db_stores database !! _) as [os|] eqn:Hos; [|discriminate].
  intros [= <-]. simpl. eapply Hh; eassumption.
Qed.

(** The engine's invariant is kept by the four operations. *)
Lemma run_keeps_host_wf (op : Operation) (c : IndexedDbClient.t) (h : Host) :
  host_wf h -> host_wf (run op c h).2.
Proof.
  intros Hh. destruct op as [params|element|element|params]; unfold run.
  - unfold select.
    destruct (getStorage ReadOnly c h) as [e|st]; [exact Hh|].
    match goal with |- context [match ?s with inl _ => _ | inr _ => _ end] =>
      destruct s as [e|storage] end; [exact Hh|].
    destruct (negb _).
    + destruct (getAll _ _ _); [exact Hh|].
      destruct (promisifyRequest _ _ _ _). exact Hh.
    + destruct (failing h); [exact Hh|].
      destruct (walk _ _ _ _ _ _ _); exact Hh.
  - unfold insert.
    destruct (getStorage ReadWrite c h) as [e|st] eqn:Hst; [exact Hh|].
    destruct (put _ _ _ _) as [e|[request os']] eqn:Hput; [exact Hh|].
    destruct (promisifyRequest _ _ _ _). simpl.
    apply commit_wf; [exact Hh|].
    eapply put_wf; [|exact Hput]. eapply getStorage_wf; eassumption.
  - unfold update.
    destruct (getStorage ReadWrite c h) as [e|st] eqn:Hst; [exact Hh|].
    destruct (put _ _ _ _) as [e|[request os']] eqn:Hput; [exact Hh|].
    simpl. apply commit_wf; [exact Hh|].
    eapply put_wf; [|exact Hput]. eapply getStorage_wf; eassumption.
  - unfold delete.
    destruct (getStorage ReadWrite c h) as [e|st] eqn:Hst; [exact Hh|].
    pose proof (getStorage_wf _ _ _ _ Hh Hst) as Hwf.
    destruct (string_truthy _ && _).
    + destruct (store_index _ _); [exact Hh|].
      destruct (IDBKeyRange_only _); [exact Hh|].
      destruct (failing h); [exact Hh|].
      destruct (delete_walk _ _ _ _ _) as [os'|] eqn:Hwalk; [|exact Hh].
      simpl. apply commit_wf; [exact Hh|]. eapply delete_walk_wf; eassumption.
    + destruct (value_truthy _); [|exact Hh].
      destruct (store_delete _ _ _ _) as [e|[request os']] eqn:Hdel; [exact Hh|].
      simpl. apply commit_wf; [exact Hh|]. eapply store_delete_wf; eassumption.
Qed.

Lemma createIndexes_wf (indexes : list StorageIndex) :
  forall os : IDBObjectStore, store_wf os -> store_wf (createIndexes indexes os).2.
Proof.
  induction indexes as [|i rest IH]; intros os Hwf; simpl; [exact Hwf|].
  unfold createIndex. destruct (existsb _ _); [exact Hwf|].
  destruct (negb _); [exact Hwf|].
  apply IH. exact Hwf.
Qed.

Lemma set_database_wf (n : string) (d : IDBDatabase) (h : Host) :
  host_wf h ->
  (forall name os, db_stores d !! name = Some os -> store_wf os) ->
  host_wf (set_database n d h).
Proof.
  intros Hh Hd n' database name os. simpl.
  destruct (decide (n = n')) as [<-|Hne].
  - rewrite lookup_insert_eq. intros [= <-]. apply Hd.
  - rewrite lookup_insert_ne by assumption. apply Hh.
Qed.

Lemma createStorage_wf (name : string) (c : IndexedDbClient.t) (h : Host) :
  host_wf h -> host_wf (createStorage name c h).2.
Proof.
  intros Hh. unfold createStorage.
  destruct (db c) as [d|]; [|exact Hh].
  destruct (contains name c h); [exact Hh|].
  destruct (databases h !! d) as [database|] eqn:Hd; [|exact Hh].
  unfold createObjectStore.
  destruct (negb (db_upgrading database)); [exact Hh|].
  destruct (db_stores database !! name) eqn:Hos; [exact Hh|].
  assert (Hnew : forall store : IDBObjectStore, store_wf store ->
            host_wf (set_database d (set_store name store database) h)).
  { intros store Hstore. apply set_database_wf; [exact Hh|].
    intros name' os'. simpl.
    destruct (decide (name = name')) as [<-|Hne].
    - rewrite lookup_insert_eq. now intros [= <-].
    - rewrite lookup_insert_ne by assumption. now apply (Hh d database). }
  assert (Hempty : store_wf {| os_keyPath := "id"; os_autoIncrement := true;
                               os_generator := 1; os_records := [];
                               os_indexes := [] |})
    by (split; [constructor|simpl; lia]).
  cbv zeta.
  destruct (config c ≫= _) as [indexes|].
  - pose proof (createIndexes_wf indexes _ Hempty) as Hwf.
    destruct (createIndexes indexes _) as [thrown store']. simpl in *.
    unfold set_store at 1. simpl. rewrite insert_insert_eq. now apply Hnew.
  - destruct (defined (config c) && inherited name); simpl; now apply Hnew.
Qed.

Lemma upgrade_wf (names : list string) (c : IndexedDbClient.t) :
  forall h : Host, host_wf h -> host_wf (upgrade names c h).2.
Proof.
  induction names as [|name rest IH]; intros h Hh; simpl; [exact Hh|].
  destruct (defined (db c) && negb (contains name c h)); [|now apply IH].
  pose proof (createStorage_wf name c h Hh) as Hwf.
  destruct (createStorage name c h) as [[e|] h']; simpl in *; [exact Hwf|].
  now apply IH.
Qed.

Lemma browser_wf : host_wf Example.browser.
Proof.
  intros d database name os Hd. unfold Example.browser in Hd. simpl in Hd.
  now rewrite lookup_empty in Hd.
Qed.

(** The engine's invariant is kept by [init]. *)
Lemma init_keeps_host_wf (c : IndexedDbClient.t) (h : Host) :
  host_wf h -> host_wf (init c h).2.
Proof.
  intros Hh. unfold init.
  destruct (config c) as [cfg|]; [|exact Hh].
  assert (Hbefore : forall name os,
            from_option db_stores ∅ (databases h !! dbName cfg) !! name = Some os ->
            store_wf os).
  { intros name os. destruct (databases h !! dbName cfg) as [d|] eqn:Hd; simpl.
    - now apply (Hh (dbName cfg) d).
    - now rewrite lookup_empty. }
  destruct (open (dbName cfg) (dbVersion cfg) h) as [e|e| |d|d] eqn:Hopen;
    try exact Hh.
  - destruct (open_upgrade _ _ _ _ Hopen) as [Hstores _].
    pose proof (upgrade_wf (storageNames cfg) (set_db (Some (dbName cfg)) c)
                  (set_database (dbName cfg) d h)) as Hup.
    unfold init_onupgradeneeded.
    destruct (upgrade _ _ _) as [thrown h1]. simpl in Hup.
    assert (Hh1 : host_wf h1).
    { apply Hup. apply set_database_wf; [exact Hh|]. now rewrite Hstores. }
    destruct thrown; exact Hh1.
  - simpl. apply set_database_wf; [exact Hh|].
    revert Hopen. unfold open. cbv zeta.
    repeat match goal with
           | |- context [if ?b then _ else _] => destruct b
           end; try discriminate.
    all: intros [= <-]; exact Hbefore.
Qed.

End Invariant.

(** * The operations settle *)

Section Settling.
Import IndexedDbClient.

Lemma filter_length_strict {A} (f g : A -> bool) (l : list A) (x : A) :
  (forall y, In y l -> f y = true -> g y = true) ->
  In x l -> g x = true -> f x = false ->
  length (List.filter f l) < length (List.filter g l).
Proof.
  intros Himp.
  assert (Hle : forall l', (forall y, In y l' -> f y = true -> g y = true) ->
                           length (List.filter f l') <= length (List.filter g l')).
  { induction l' as [|a l' IH]; simpl; [lia|]. intros H.
    specialize (IH (fun y Hy => H y (or_intror Hy))).
    destruct (f a) eqn:Hf.
    - rewrite (H a (or_introl eq_refl) Hf). simpl. lia.
    - destruct (g a); simpl; lia. }
  induction l as [|a l IH]; simpl; [tauto|].
  intros [-> | Hin] Hg Hf.
  - rewrite Hg, Hf. simpl.
    specialize (Hle l (fun y Hy => Himp y (or_intror Hy))). lia.
  - specialize (IH (fun y Hy => Himp y (or_intror Hy)) Hin Hg Hf).
    destruct (f a) eqn:Hfa.
    + rewrite (Himp a (or_introl eq_refl) Hfa). simpl. lia.
    + destruct (g a); simpl; lia.
Qed.

Lemma beyond_prev_narrows (pos : option Entry) (e x : Entry) :
  beyond Prev pos e = true -> beyond Prev (Some e) x = true ->
  beyond Prev pos x = true.
Proof.
  destruct pos as [p|]; [|reflexivity]. simpl.
  destruct (entry_compare e p) eqn:Hep; try discriminate.
  destruct (entry_compare x e) eqn:Hxe; try discriminate.
  now rewrite (entry_compare_trans _ _ _ Hxe Hep).
Qed.

Lemma beyond_self (dir : Direction) (e : Entry) : beyond dir (Some e) e = false.
Proof.
  assert (entry_compare e e = Eq) as H by now apply entry_compare_eq.
  destruct dir; simpl; now rewrite H.
Qed.

(** The descending walk of [select] ends: each step leaves fewer entries
    beyond the cursor. *)
Lemma walk_settles (entries : list Entry) (r : IDBKeyRange) (count : option Z) :
  forall (fuel : nat) (pos : option Entry) (step : Z) (values : list JSObject),
    length (List.filter (beyond Prev pos) entries) < fuel ->
    exists result, walk fuel entries r count pos step values = Some result.
Proof.
  induction fuel as [|fuel IH]; intros pos step values Hfuel; [lia|].
  cbn [walk].
  destruct (iterate_cursor entries r Prev pos) as [e|] eqn:Hnext.
  - match goal with |- context [if ?b then _ else true] => destruct b end;
      try match goal with |- context [negb ?b] => destruct b end; simpl; eauto.
    all: apply IH.
    all: unfold iterate_cursor in Hnext; apply List.find_some in Hnext;
      destruct Hnext as [Hin Hwanted];
      apply List.in_rev in Hin; apply andb_true_iff in Hwanted;
      destruct Hwanted as [_ Hbeyond];
      pose proof (filter_length_strict (beyond Prev (Some e)) (beyond Prev pos)
                    entries e (fun y _ => beyond_prev_narrows pos e y Hbeyond)
                    Hin Hbeyond (beyond_self Prev e)); lia.
  - match goal with |- context [if ?b then _ else true] => destruct b end;
      try match goal with |- context [negb ?b] => destruct b end; simpl; eauto.
Qed.

Lemma one_task_wf : host_wf Example.one_task.2.
Proof.
  intros d database name os Hd Hos.
  unfold Example.one_task in Hd. simpl in Hd.
  destruct (decide (d = "exampleIndexedDbClientDb")) as [->|Hne].
  - rewrite lookup_singleton_eq in Hd. injection Hd as <-. simpl in Hos.
    destruct (decide (name = "tasks")) as [->|Hne'].
    + rewrite lookup_singleton_eq in Hos. injection Hos as <-.
      split; [repeat constructor|simpl; lia].
    + rewrite lookup_singleton_ne in Hos by congruence. discriminate.
  - rewrite lookup_singleton_ne in Hd by congruence. discriminate.
Qed.

Lemma three_tasks_wf : host_wf Example.three_tasks_written.2.
Proof.
  intros d database name os Hd Hos.
  unfold Example.three_tasks_written in Hd. simpl in Hd.
  destruct (decide (d = "exampleIndexedDbClientDb")) as [->|Hne].
  - rewrite lookup_singleton_eq in Hd. injection Hd as <-. simpl in Hos.
    destruct (decide (name = "tasks")) as [->|Hne'].
    + rewrite lookup_singleton_eq in Hos. injection Hos as <-.
      split; [repeat constructor|simpl; lia].
    + rewrite lookup_singleton_ne in Hos by congruence. discriminate.
  - rewrite lookup_singleton_ne in Hd by congruence. discriminate.
Qed.

(** X23.  On a host that satisfies the engine's invariant the promise of
    each of the four operations is settled: the cursor walks of the
    descending select and of the index-scoped delete end. *)
Lemma run_settles (op : Operation) (c : IndexedDbClient.t) (h : Host) :
  host_wf h -> (run op c h).1.1 <> Unsettled.
Proof.
  intros Hh. destruct op as [params|element|element|params]; unfold run.
  - unfold select.
    destruct (getStorage ReadOnly c h) as [e|st]; [discriminate|].
    match goal with |- context [match ?s with inl _ => _ | inr _ => _ end] =>
      destruct s as [e|storage] end; [discriminate|].
    destruct (negb _).
    + destruct (getAll _ _ _); [discriminate|].
      destruct (failing h); discriminate.
    + destruct (failing h); [discriminate|].
      destruct (walk_settles (source_entries storage)
                  (query_range (params ≫= sp_value)) (params ≫= sp_count)
                  (S (length (source_entries storage))) None 0 []) as [values ->].
      * pose proof (List.filter_length_le (beyond Prev None) (source_entries storage)).
        lia.
      * discriminate.
  - unfold insert.
    destruct (getStorage ReadWrite c h) as [e|st]; [discriminate|].
    destruct (put _ _ _ _) as [e|[request os']]; [discriminate|].
    pose proof (promisifyRequest_settles key_truthy request
                  (Some {| defaultValue := Some (KNumber (-1));
                           onSuccess := Some (fun _ => clearStorageName);
                           onError := Some clearStorageName |}) c) as Hs.
    destruct (promisifyRequest _ _ _ _) as [p c']. simpl in *.
    destruct p; simpl in *; [tauto|discriminate|discriminate].
  - unfold update.
    destruct (getStorage ReadWrite c h) as [e|st]; [discriminate|].
    destruct (put _ _ _ _) as [e|[request os']]; discriminate.
  - unfold delete.
    destruct (getStorage ReadWrite c h) as [e|st] eqn:Hst; [discriminate|].
    destruct (getStorage_wf _ _ _ _ Hh Hst) as [Hsorted _].
    destruct (string_truthy _ && _).
    + destruct (store_index _ _) as [e|ix]; [discriminate|].
      unfold IDBKeyRange_only.
      destruct (sp_value params) as [[v|range]|]; try discriminate.
      destruct (failing h); [discriminate|].
      rewrite (delete_walk_removes_hits ix v); try assumption.
      * discriminate.
      * intros; reflexivity.
      * pose proof (List.filter_length_le (hit ix v) (os_records (st_store st))). lia.
    + destruct (value_truthy _); [|discriminate].
      destruct (store_delete _ _ _ _) as [e|[request os']]; discriminate.
Qed.

Lemma run_settles_witness :
  (run (Delete {| sp_key := Some "tasksName"; sp_value := Some (QKey (KString "A"));
                  sp_count := None; sp_orderBy := None |})
       (from "tasks" Example.one_task.1) Example.one_task.2).1.1 <> Unsettled.
Proof. apply run_settles. exact one_task_wf. Defined.

End Settling.

(** * The retrieval strategy of select *)

Section Strategy.
Import IndexedDbClient.

(** Without a count the walk does not look at its step counter. *)
Lemma walk_unbounded_acc (entries : list Entry) (r : IDBKeyRange) :
  forall (fuel : nat) (pos : option Entry) (step : Z) (values : list JSObject),
    walk fuel entries r None pos step values
    = option_map (app values) (walk fuel entries r None pos 0 []).
Proof.
  induction fuel as [|fuel IH]; intros pos step values; cbn [walk]; [reflexivity|].
  cbn [number_truthy andb].
  destruct (iterate_cursor entries r Prev pos) as [e|].
  - rewrite IH. rewrite (IH (Some e) (0 + 1)%Z ([] ++ [e_value e])%list).
    destruct (walk fuel entries r None (Some e) 0 []) as [u|]; simpl; [|reflexivity].
    now rewrite <- List.app_assoc.
  - simpl. now rewrite List.app_nil_r.
Qed.

(** With a count [k] the walk stops after [k] records of the unbounded walk. *)
Lemma walk_count (entries : list Entry) (r : IDBKeyRange) (k : Z) :
  (0 < k)%Z ->
  forall (fuel : nat) (pos : option Entry) (step : Z) (values u : list JSObject),
    (0 <= step <= k)%Z ->
    walk fuel entries r None pos 0 [] = Some u ->
    walk fuel entries r (Some k) pos step values
    = Some (values ++ firstn (Z.to_nat (k - step)) u)%list.
Proof.
  intros Hk.
  induction fuel as [|fuel IH]; intros pos step values u Hstep; cbn [walk];
    [discriminate|].
  cbn [number_truthy andb default from_option id].
  assert ((k =? 0)%Z = false) as -> by lia. cbn [negb andb].
  destruct (Z.eq_dec step k) as [->|Hne].
  - assert ((k =? 0)%Z = false) as -> by lia.
    assert ((k - k =? 0)%Z = true) as -> by lia. cbn [negb].
    intros _. rewrite Z.sub_diag. simpl. now rewrite List.app_nil_r.
  - assert ((if negb (step =? 0)%Z then negb (step - k =? 0)%Z else true) = true)
      as -> by (destruct (step =? 0)%Z; simpl; [reflexivity|]; apply negb_true_iff; lia).
    destruct (iterate_cursor entries r Prev pos) as [e|].
    + rewrite walk_unbounded_acc.
      destruct (walk fuel entries r None (Some e) 0 []) as [u'|] eqn:Hu;
        [|discriminate].
      cbn [option_map]. intros [= <-].
      rewrite (IH (Some e) (step + 1)%Z (values ++ [e_value e])%list u');
        [|lia|assumption].
      rewrite <- List.app_assoc.
      replace (Z.to_nat (k - step)) with (S (Z.to_nat (k - (step + 1)))) by lia.
      reflexivity.
    + intros [= <-]. now rewrite List.firstn_nil, List.app_nil_r.
Qed.



(** X17.  A descending select with [count: k] resolves with the first [k]
    results of the same select without count, whatever the key. *)
Lemma select_desc_count (params : SelectParams) (k : Z)
    (c : IndexedDbClient.t) (h : Host) (l : list JSObject) :
  sp_orderBy params = Some desc ->
  (0 < k)%Z ->
  (select (Some (with_count None params)) c h).1.1 = Resolved l ->
  (select (Some (with_count (Some k) params)) c h).1.1
  = Resolved (firstn (Z.to_nat k) l).
Proof.
  intros Hdesc Hk. unfold select. cbn [mbind option_bind with_count sp_key sp_value
    sp_count sp_orderBy defined number_truthy negb orb andb].
  rewrite Hdesc. cbn [defined orb andb].
  rewrite !orb_true_r.
  destruct (getStorage ReadOnly c h) as [e|st]; [discriminate|].
  rewrite bool_decide_eq_true_2 by reflexivity. cbn [negb].
  destruct (failing h); [discriminate|].
  destruct (walk _ _ _ None None 0 []) as [u|] eqn:Hu; [|discriminate].
  intros [= <-].
  rewrite (walk_count _ _ k Hk _ None 0 [] u); [|lia|exact Hu].
  rewrite Z.sub_0_r. reflexivity.
Qed.

(** Tasks 1, 2, 3 descending are 3, 2, 1; with [count: 2], tasks 3 and 2. *)
Lemma select_desc_count_witness :
  (select (Some (with_count (Some 2%Z)
                   {| sp_key := None; sp_value := None; sp_count := None;
                      sp_orderBy := Some desc |}))
          (from "tasks" Example.three_tasks_written.1) Example.three_tasks_written.2).1.1
  = Resolved [Example.stored 3 "A"; Example.stored 2 "B"].
Proof.
  rewrite (select_desc_count _ 2%Z _ _
             [Example.stored 3 "A"; Example.stored 2 "B"; Example.stored 1 "A"]).
  - reflexivity.
  - reflexivity.
  - lia.
  - vm_compute. reflexivity.
Defined.

(** X18.  An ascending select over the primary keys (key "id", or an
    explicit ascending order) with [count: k] resolves with the first [k]
    results of the same select without count. *)
Lemma select_asc_count (params : SelectParams) (k : Z)
    (c : IndexedDbClient.t) (h : Host) (l : list JSObject) :
  sp_orderBy params <> Some desc ->
  sp_key params = Some "id" \/ sp_orderBy params = Some asc ->
  (0 < k <= 4294967295)%Z ->
  (select (Some (with_count None params)) c h).1.1 = Resolved l ->
  (select (Some (with_count (Some k) params)) c h).1.1
  = Resolved (firstn (Z.to_nat k) l).
Proof.
  intros Hasc Hstore Hk. unfold select. cbn [mbind option_bind with_count sp_key
    sp_value sp_count sp_orderBy defined number_truthy negb orb andb].
  assert ((k =? 0)%Z = false) as Hk0 by lia. rewrite Hk0. cbn [negb orb andb].
  rewrite !orb_true_r.
  assert (bool_decide (sp_key params = Some "id") || defined (sp_orderBy params) = true)
    as Hs.
  { destruct Hstore as [-> | ->]; [|now rewrite orb_true_r].
    now rewrite bool_decide_eq_true_2. }
  rewrite Hs.
  destruct (getStorage ReadOnly c h) as [e|st]; [discriminate|].
  rewrite bool_decide_eq_false_2 by assumption. cbn [negb].
  unfold getAll.
  assert (((k <? 0) || (4294967295 <? k))%Z = false) as -> by lia.
  rewrite Hk0.
  destruct (failing h); [discriminate|]. simpl. now intros [= <-].
Qed.

(** Tasks 1, 2, 3 by key; with [count: 2], tasks 1 and 2. *)
Lemma select_asc_count_witness :
  (select (Some (with_count (Some 2%Z)
                   {| sp_key := Some "id"; sp_value := None; sp_count := None;
                      sp_orderBy := None |}))
          (from "tasks" Example.three_tasks_written.1) Example.three_tasks_written.2).1.1
  = Resolved [Example.stored 1 "A"; Example.stored 2 "B"].
Proof.
  rewrite (select_asc_count _ 2%Z _ _
             [Example.stored 1 "A"; Example.stored 2 "B"; Example.stored 3 "A"]).
  - reflexivity.
  - discriminate.
  - left. reflexivity.
  - lia.
  - vm_compute. reflexivity.
Defined.


Lemma rev_descending (l : list Entry) :
  StronglySorted (fun a b => entry_compare a b = Lt) l ->
  StronglySorted entry_gt (rev l).
Proof.
  induction 1 as [|x l Hl IH Hall]; simpl; [constructor|].
  apply StronglySorted_app_2; [|exact IH|repeat constructor].
  intros x1 x2 Hx1 Hx2. apply list_elem_of_singleton in Hx2. subst x2.
  apply list_elem_of_In, List.in_rev in Hx1.
  rewrite List.Forall_forall in Hall. exact (Hall _ Hx1).
Qed.

Lemma find_app_skip {A} (P : A -> bool) (l1 l2 : list A) :
  (forall x, In x l1 -> P x = false) -> List.find P (l1 ++ l2) = List.find P l2.
Proof.
  induction l1 as [|a l1 IH]; simpl; [reflexivity|]. intros H.
  rewrite (H a) by now left. apply IH. intros x Hx. apply H. now right.
Qed.

Lemma find_split {A} (P : A -> bool) (l : list A) (e : A) :
  List.find P l = Some e ->
  exists l1 l2, l = l1 ++ e :: l2 /\ (forall x, In x l1 -> P x = false) /\ P e = true.
Proof.
  induction l as [|a l IH]; simpl; [discriminate|].
  destruct (P a) eqn:Ha.
  - intros [= <-]. exists [], l. simpl. tauto.
  - intros Hfind. destruct (IH Hfind) as (l1 & l2 & -> & Hl1 & He).
    exists (a :: l1), l2. simpl. repeat split; try assumption.
    intros x [<- | Hx]; auto.
Qed.

Lemma filter_none {A} (P : A -> bool) (l : list A) :
  (forall x, In x l -> P x = false) -> List.filter P l = [].
Proof.
  induction l as [|a l IH]; simpl; [reflexivity|]. intros H.
  rewrite (H a) by now left. apply IH. intros x Hx. apply H. now right.
Qed.

(** On a source without equal entries the unbounded descending walk
    collects the entries in range from the last to the first. *)
Lemma walk_descending (entries : list Entry) (r : IDBKeyRange) :
  StronglySorted entry_gt (rev entries) ->
  forall (fuel : nat) (before rest : list Entry) (pos : option Entry) (step : Z)
         (values : list JSObject),
    rev entries = (before ++ rest)%list ->
    (forall x, In x before -> beyond Prev pos x = false) ->
    (forall x, In x rest -> beyond Prev pos x = true) ->
    length rest < fuel ->
    walk fuel entries r None pos step values
    = Some (values ++ List.map e_value (List.filter (in_range r) rest))%list.
Proof.
  intros Hsorted.
  induction fuel as [|fuel IH]; intros before rest pos step values Hsplit Hb Hr Hfuel;
    [lia|].
  cbn [walk number_truthy andb]. unfold iterate_cursor.
  rewrite Hsplit, find_app_skip
    by (intros x Hx; rewrite (Hb x Hx); apply andb_false_r).
  destruct (List.find _ rest) as [e|] eqn:Hfind.
  - destruct (find_split _ _ _ Hfind) as (l1 & l2 & -> & Hl1 & He).
    apply andb_true_iff in He. destruct He as [Hin _].
    assert (Hout : forall x, In x l1 -> in_range r x = false).
    { intros x Hx. specialize (Hl1 x Hx).
      rewrite (Hr x) in Hl1 by (apply List.in_or_app; now left).
      now rewrite andb_true_r in Hl1. }
    rewrite Hsplit in Hsorted.
    replace (before ++ l1 ++ e :: l2)%list
      with ((before ++ l1 ++ [e]) ++ l2)%list in Hsorted, Hsplit
      by (now rewrite <- !List.app_assoc).
    rewrite (IH (before ++ l1 ++ [e])%list l2 (Some e)); try assumption.
    + rewrite List.filter_app, (filter_none _ l1 Hout). simpl. rewrite Hin.
      simpl. now rewrite <- List.app_assoc.
    + intros x Hx.
      rewrite List.app_assoc in Hx. apply List.in_app_or in Hx.
      destruct Hx as [Hx | [<- | []]]; [|apply beyond_self].
      rewrite List.app_assoc in Hsorted.
      apply StronglySorted_app_1_l in Hsorted.
      apply StronglySorted_app in Hsorted. destruct Hsorted as (Hgt & _ & _).
      specialize (Hgt x e). unfold entry_gt in Hgt. simpl.
      rewrite (entry_compare_antisym e x), Hgt; [reflexivity| |].
      * now apply list_elem_of_In.
      * now apply list_elem_of_singleton.
    + intros x Hx.
      apply StronglySorted_app in Hsorted. destruct Hsorted as (Hgt & _ & _).
      specialize (Hgt e x). unfold entry_gt in Hgt. simpl. rewrite Hgt; [reflexivity| |].
      * apply list_elem_of_In, List.in_or_app. right.
        apply List.in_or_app. right. now left.
      * now apply list_elem_of_In.
    + rewrite !List.length_app in Hfuel. simpl in Hfuel. lia.
  - rewrite filter_none; [simpl; now rewrite List.app_nil_r|].
    intros x Hx. pose proof (List.find_none _ _ Hfind x Hx) as Hnone. simpl in Hnone.
    now rewrite (Hr x Hx), andb_true_r in Hnone.
Qed.

Lemma store_entries_ascending (os : IDBObjectStore) :
  keys_ascending (os_records os) ->
  StronglySorted (fun a b => entry_compare a b = Lt) (store_entries os).
Proof.
  unfold store_entries. induction 1 as [|a l Hl IH Hall]; simpl; constructor;
    [exact IH|].
  rewrite List.Forall_forall in *. intros e He.
  apply List.in_map_iff in He. destruct He as (b & <- & Hb).
  specialize (Hall b Hb). unfold key_lt in Hall.
  unfold entry_compare. simpl. now rewrite Hall.
Qed.

(** X19.  Over the primary keys, the descending select without count
    resolves with the reverse of the ascending one. *)
Lemma select_desc_reverses_primary_keys (params : SelectParams)
    (c : IndexedDbClient.t) (h : Host) (l : list JSObject) :
  host_wf h ->
  sp_count params = None ->
  (select (Some (with_orderBy (Some asc) params)) c h).1.1 = Resolved l ->
  (select (Some (with_orderBy (Some desc) params)) c h).1.1 = Resolved (rev l).
Proof.
  intros Hh Hcount. unfold select. cbn [mbind option_bind with_orderBy sp_key sp_value
    sp_count sp_orderBy defined number_truthy negb orb andb].
  rewrite !orb_true_r.
  destruct (getStorage ReadOnly c h) as [e|st] eqn:Hst; [discriminate|].
  destruct (getStorage_wf _ _ _ _ Hh Hst) as [Hsorted _].
  rewrite bool_decide_eq_false_2 by discriminate.
  rewrite bool_decide_eq_true_2 by reflexivity. cbn [negb].
  rewrite Hcount. unfold getAll.
  destruct (failing h); [discriminate|].
  cbn [source_entries].
  rewrite (walk_descending (store_entries (st_store st)) _
             (rev_descending _ (store_entries_ascending _ Hsorted))
             _ [] (rev (store_entries (st_store st))) None 0 []).
  - simpl. intros [= <-]. now rewrite List.filter_rev, List.map_rev.
  - reflexivity.
  - intros x [].
  - reflexivity.
  - rewrite List.length_rev. lia.
Qed.

(** Tasks 1, 2, 3 ascending; descending they are 3, 2, 1. *)
Lemma select_desc_reverses_primary_keys_witness :
  (select (Some (with_orderBy (Some desc)
                   {| sp_key := None; sp_value := None; sp_count := None;
                      sp_orderBy := None |}))
          (from "tasks" Example.three_tasks_written.1) Example.three_tasks_written.2).1.1
  = Resolved [Example.stored 3 "A"; Example.stored 2 "B"; Example.stored 1 "A"].
Proof.
  rewrite (select_desc_reverses_primary_keys _ _ _
             [Example.stored 1 "A"; Example.stored 2 "B"; Example.stored 3 "A"]).
  - reflexivity.
  - exact three_tasks_wf.
  - reflexivity.
  - vm_compute. reflexivity.
Defined.

(** C2, which the code does not satisfy.  With three tasks stored, [select({ value: 1 })] does
    not read the primary-key space: the descriptor has no [key], no [count]
    and no [orderBy], so the client asks the store for the index named by
    the empty string and the call fails, leaving the storage selected.
    With [key: 'id'] the same value finds the task with key 1. *)
Theorem select_value_without_key_asks_for_index :
  select (Example.descriptor None (Some (QKey (KNumber 1))) None None)
         (from "tasks" Example.three_tasks.1) Example.three_tasks.2
    = (Rejected (Thrown (DOMException "NotFoundError")),
       from "tasks" Example.three_tasks.1, Example.three_tasks.2) /\
  Example.select_tasks (Example.descriptor (Some "id") (Some (QKey (KNumber 1))) None None)
                       Example.three_tasks
    = Resolved [Example.stored 1 "A"].
Proof. split; vm_compute; reflexivity. Qed.

(** The same call on a storage that has an index named by the empty
    string reads that index: "B" is looked up among the names. *)
Lemma select_value_without_key_reads_unnamed_index :
  Example.select_tasks (Example.descriptor None (Some (QKey (KString "B"))) None None)
                       Example.unnamed_index
    = Resolved [Example.stored 2 "B"].
Proof. vm_compute. reflexivity. Qed.

(** C5, which the code does not satisfy.  With tasks "A", "B", "A" stored, the select by index
    [tasksName] and value "A" finds tasks 1 and 3, but the same select with
    [count: 1] looks "A" up among the primary keys and finds nothing. *)
Theorem select_count_on_index_reads_primary_keys :
  Example.select_tasks
    (Example.descriptor (Some "tasksName") (Some (QKey (KString "A"))) None None)
    Example.three_tasks
    = Resolved [Example.stored 1 "A"; Example.stored 3 "A"] /\
  Example.select_tasks
    (Example.descriptor (Some "tasksName") (Some (QKey (KString "A"))) (Some 1%Z) None)
    Example.three_tasks
    = Resolved [].
Proof. split; vm_compute; reflexivity. Qed.

(** C6, which the code does not satisfy.  With tasks "A", "B", "A" stored, the select by index
    [tasksName] is ordered by name, but the same select with
    [orderBy: 'desc'] walks the primary keys downwards: its result is
    neither the reverse of the ascending one nor ordered by name. *)
Theorem select_desc_on_index_walks_primary_keys :
  Example.select_tasks (Example.descriptor (Some "tasksName") None None None)
                       Example.three_tasks
    = Resolved [Example.stored 1 "A"; Example.stored 3 "A"; Example.stored 2 "B"] /\
  Example.select_tasks (Example.descriptor (Some "tasksName") None None (Some desc))
                       Example.three_tasks
    = Resolved [Example.stored 3 "A"; Example.stored 2 "B"; Example.stored 1 "A"].
Proof. split; vm_compute; reflexivity. Qed.

End Strategy.

(** * Further properties of the client *)

Section Further.
Import IndexedDbClient.

(** ** The life cycle of the connection *)

(** X1.  Without a configuration [init] and [deleteDb] are rejected with
    "Config is not exist"; without a connection [createStorage] throws and
    [deleteStorage] and the four operations are rejected with "DB is not
    init".  Client and host stay as they are. *)
Theorem lifecycle_preconditions (c : IndexedDbClient.t) (h : Host) (name : string) :
  (config c = None ->
   init c h = (Rejected (Thrown (Error "Config is not exist")), c, h) /\
   deleteDb c h = (Rejected (Thrown (Error "Config is not exist")), c, h)) /\
  (db c = None ->
   createStorage name c h = (Some (Error "DB is not init"), h) /\
   deleteStorage name c h = (Rejected (Thrown (Error "DB is not init")), c, h) /\
   forall op, run op c h = (Failed (Thrown (Error "DB is not init")), c, h)).
Proof.
  split.
  - intros Hcfg. unfold init, deleteDb. rewrite Hcfg. split; reflexivity.
  - intros Hdb. unfold createStorage, deleteStorage. rewrite Hdb.
    repeat split; try reflexivity.
    intros [params|element|element|params]; unfold run, select, insert, update, delete,
      getStorage; rewrite Hdb; reflexivity.
Qed.

Lemma lifecycle_preconditions_witness :
  let c := constructor None in
  (init c Example.browser
     = (Rejected (Thrown (Error "Config is not exist")), c, Example.browser) /\
   deleteDb c Example.browser
     = (Rejected (Thrown (Error "Config is not exist")), c, Example.browser)) /\
  (createStorage "tasks" c Example.browser = (Some (Error "DB is not init"), Example.browser) /\
   deleteStorage "tasks" c Example.browser
     = (Rejected (Thrown (Error "DB is not init")), c, Example.browser) /\
   forall op, run op c Example.browser
              = (Failed (Thrown (Error "DB is not init")), c, Example.browser)).
Proof.
  destruct (lifecycle_preconditions (constructor None) Example.browser "tasks")
    as [H1 H2].
  split; [apply H1; reflexivity | apply H2; reflexivity].
Defined.

Lemma open_same_version (n : string) (version : option Z) (h : Host) (d : IDBDatabase) :
  databases h !! n = Some d ->
  (0 < db_version d)%Z ->
  version = None \/ version = Some (db_version d) ->
  failing h = false ->
  open n version h
  = OpenSuccess {| db_version := db_version d; db_stores := db_stores d;
                   db_connections := S (db_connections d); db_upgrading := false |}.
Proof.
  intros Hd Hv Hversion Hfail. unfold open. rewrite Hd, Hfail. simpl.
  assert ((db_version d =? 0)%Z = false) as H0 by lia.
  destruct Hversion as [-> | ->]; rewrite ?H0;
    assert ((db_version d <=? 0)%Z = false) as -> by lia;
    assert ((db_version d <? db_version d)%Z = false) as -> by lia;
    reflexivity.
Qed.

(** X2.  When the database exists at the configured version (or no version
    is configured) [init] resolves, connects and marks the client
    initialized without an upgrade: the storages are those the database had,
    so a storage named in the descriptor that is missing is not created. *)
Theorem init_same_version_keeps_storages
    (c : IndexedDbClient.t) (h : Host) (cfg : IDBConfig) (d : IDBDatabase) :
  config c = Some cfg ->
  databases h !! dbName cfg = Some d ->
  (0 < db_version d)%Z ->
  dbVersion cfg = None \/ dbVersion cfg = Some (db_version d) ->
  failing h = false ->
  exists d',
    init c h = (Resolved tt,
                set_isInited true (set_db (Some (dbName cfg)) c),
                set_database (dbName cfg) d' h) /\
    db_stores d' = db_stores d /\
    db_version d' = db_version d.
Proof.
  intros Hcfg Hd Hv Hversion Hfail. unfold init.
  rewrite Hcfg, (open_same_version _ _ _ d Hd Hv Hversion Hfail).
  eexists. split; [reflexivity|]. split; reflexivity.
Qed.

Lemma init_same_version_keeps_storages_witness :
  exists d',
    init (constructor (Some Example.indexedDbConfig)) Example.one_task.2
    = (Resolved tt,
       set_isInited true (set_db (Some "exampleIndexedDbClientDb")
                                 (constructor (Some Example.indexedDbConfig))),
       set_database "exampleIndexedDbClientDb" d' Example.one_task.2) /\
    db_stores d' = db_stores Example.one_task_database /\
    db_version d' = 1%Z.
Proof.
  apply (init_same_version_keeps_storages (constructor (Some Example.indexedDbConfig))
           Example.one_task.2 Example.indexedDbConfig Example.one_task_database).
  - reflexivity.
  - vm_compute. reflexivity.
  - reflexivity.
  - right. reflexivity.
  - reflexivity.
Defined.

(** X3.  When the configured version is lower than the version of the
    database, [init] is rejected with the engine's VersionError event; the
    client, its initialized flag included, and the host stay as they are. *)
Theorem init_lower_version_rejected
    (c : IndexedDbClient.t) (h : Host) (cfg : IDBConfig) (d : IDBDatabase) (v : Z) :
  config c = Some cfg ->
  databases h !! dbName cfg = Some d ->
  dbVersion cfg = Some v ->
  (0 < v < db_version d)%Z ->
  failing h = false ->
  init c h = (Rejected (ErrorEvent "VersionError"), c, h).
Proof.
  intros Hcfg Hd Hversion Hv Hfail. unfold init, open.
  rewrite Hcfg, Hversion, Hd, Hfail. simpl.
  assert ((v <=? 0)%Z = false) as -> by lia.
  assert ((db_version d <? v)%Z = false) as -> by lia.
  assert ((v <? db_version d)%Z = true) as -> by lia.
  reflexivity.
Qed.

Lemma init_lower_version_rejected_witness :
  init (constructor (Some Example.indexedDbConfig)) Example.newer_database
  = (Rejected (ErrorEvent "VersionError"), constructor (Some Example.indexedDbConfig),
     Example.newer_database).
Proof.
  apply (init_lower_version_rejected (constructor (Some Example.indexedDbConfig))
           Example.newer_database Example.indexedDbConfig
           {| db_version := 2; db_stores := ∅; db_connections := 0;
              db_upgrading := false |} 1%Z).
  - reflexivity.
  - vm_compute. reflexivity.
  - reflexivity.
  - simpl. lia.
  - reflexivity.
Defined.

Lemma createStorage_keeps_connection (name n : string) (c : IndexedDbClient.t)
    (h : Host) (d : IDBDatabase) :
  db c = Some n ->
  databases h !! n = Some d ->
  exists d',
    databases (createStorage name c h).2 !! n = Some d' /\
    db_connections d' = db_connections d /\
    db_upgrading d' = db_upgrading d /\
    failing (createStorage name c h).2 = failing h.
Proof.
  intros Hdb Hd. unfold createStorage. rewrite Hdb.
  destruct (contains name c h); [exists d; auto|].
  rewrite Hd. unfold createObjectStore.
  destruct (negb (db_upgrading d)); [exists d; auto|].
  destruct (db_stores d !! name); [exists d; auto|].
  cbv zeta. destruct (config c ≫= _) as [indexes|].
  - destruct (createIndexes _ _) as [thrown store']. simpl.
    rewrite lookup_insert_eq. eexists. split; [reflexivity|]. repeat split; reflexivity.
  - destruct (defined (config c) && inherited name); simpl;
      rewrite lookup_insert_eq; eexists; (split; [reflexivity|]);
      repeat split; reflexivity.
Qed.

Lemma upgrade_keeps_connection (n : string) (c : IndexedDbClient.t) :
  db c = Some n ->
  forall (names : list string) (h : Host) (d : IDBDatabase),
    databases h !! n = Some d ->
    exists d',
      databases (upgrade names c h).2 !! n = Some d' /\
      db_connections d' = db_connections d /\
      db_upgrading d' = db_upgrading d /\
      failing (upgrade names c h).2 = failing h.
Proof.
  intros Hdb. induction names as [|name rest IH]; intros h d Hd; simpl.
  - exists d. auto.
  - destruct (defined (db c) && negb (contains name c h)); [|now apply IH].
    destruct (createStorage_keeps_connection name n c h d Hdb Hd)
      as (d1 & Hd1 & Hc1 & Hu1 & Hf1).
    destruct (createStorage name c h) as [[e|] h1]; simpl in *.
    + exists d1. auto.
    + destruct (IH h1 d1 Hd1) as (d2 & Hd2 & Hc2 & Hu2 & Hf2).
      exists d2. repeat split; try assumption; congruence.
Qed.

Lemma open_upgrade_connection (n : string) (version : option Z) (h : Host)
    (d : IDBDatabase) :
  open n version h = OpenUpgrade d ->
  db_connections d = 1 /\ db_upgrading d = true /\ failing h = false.
Proof.
  unfold open. cbv zeta.
  repeat match goal with
         | |- context [if ?b then _ else _] => destruct b eqn:?
         end; try discriminate.
  all: intros [= <-]; repeat split; reflexivity.
Qed.

(** What [init] leaves when the database needed an upgrade, whether the
    upgrade went through or not: the client connected, the connection open
    and the version-change transaction running. *)
Lemma init_inside_upgrade (c : IndexedDbClient.t) (h : Host) (cfg : IDBConfig)
    (d : IDBDatabase) :
  config c = Some cfg ->
  open (dbName cfg) (dbVersion cfg) h = OpenUpgrade d ->
  exists d',
    db (init c h).1.2 = Some (dbName cfg) /\
    storageName (init c h).1.2 = storageName c /\
    config (init c h).1.2 = Some cfg /\
    databases (init c h).2 !! dbName cfg = Some d' /\
    db_connections d' = 1 /\
    db_upgrading d' = true /\
    failing (init c h).2 = false.
Proof.
  intros Hcfg Hopen.
  destruct (open_upgrade_connection _ _ _ _ Hopen) as (Hconn & Hup & Hfail).
  unfold init, init_onupgradeneeded. rewrite Hcfg, Hopen.
  destruct (upgrade_keeps_connection (dbName cfg) (set_db (Some (dbName cfg)) c)
              eq_refl (storageNames cfg) (set_database (dbName cfg) d h) d)
    as (d' & Hd' & Hc' & Hu' & Hf').
  { simpl. apply lookup_insert_eq. }
  exists d'.
  destruct (upgrade _ _ _) as [[e|] h1]; simpl in *;
    repeat split; try assumption; congruence.
Qed.

(** What a resolved [init] leaves: the client connected to the configured
    database, which has an open connection. *)
Lemma init_resolved (c : IndexedDbClient.t) (h : Host) :
  (init c h).1.1 = Resolved tt ->
  exists cfg d,
    config c = Some cfg /\
    (init c h).1.2 = set_isInited true (set_db (Some (dbName cfg)) c) /\
    databases (init c h).2 !! dbName cfg = Some d /\
    0 < db_connections d /\
    failing (init c h).2 = false.
Proof.
  intros Hresolved.
  destruct (config c) as [cfg|] eqn:Hcfg;
    [|unfold init in Hresolved; rewrite Hcfg in Hresolved; discriminate].
  destruct (open (dbName cfg) (dbVersion cfg) h) as [e|e| |d|d] eqn:Hopen;
    try (unfold init in Hresolved; rewrite Hcfg, Hopen in Hresolved; discriminate).
  - (* upgrade *)
    destruct (init_inside_upgrade c h cfg d Hcfg Hopen)
      as (d' & _ & _ & _ & Hd' & Hconn & _ & Hfail).
    exists cfg, d'. repeat split; try assumption; [|lia].
    revert Hresolved. unfold init, init_onupgradeneeded. rewrite Hcfg, Hopen.
    destruct (upgrade _ _ _) as [[e|] h1]; [discriminate|reflexivity].
  - (* success *)
    assert (Hd : 0 < db_connections d /\ failing h = false).
    { revert Hopen. unfold open. cbv zeta.
      repeat match goal with
             | |- context [if ?b then _ else _] => destruct b eqn:?
             end; try discriminate.
      all: intros [= <-]; simpl; repeat split; lia. }
    destruct Hd as (Hconn & Hfail).
    exists cfg, d. unfold init. rewrite Hcfg, Hopen. simpl. rewrite lookup_insert_eq.
    repeat split; assumption.
Qed.

(** Once the upgrade is completed the client is connected and initialized,
    and its database, with the same storages, is no longer being upgraded. *)
Lemma upgrade_completed_connected (c : IndexedDbClient.t) (h : Host) (n : string)
    (d : IDBDatabase) :
  db c = Some n ->
  databases h !! n = Some d ->
  exists d',
    db (upgrade_completed c h).1 = Some n /\
    storageName (upgrade_completed c h).1 = storageName c /\
    config (upgrade_completed c h).1 = config c /\
    (db_upgrading d = true -> isInited (upgrade_completed c h).1 = true) /\
    databases (upgrade_completed c h).2 !! n = Some d' /\
    db_upgrading d' = false /\
    db_stores d' = db_stores d /\
    db_connections d' = db_connections d /\
    failing (upgrade_completed c h).2 = failing h.
Proof.
  intros Hdb Hd. unfold upgrade_completed. rewrite Hdb, Hd.
  destruct (db_upgrading d) eqn:Hup; simpl.
  - rewrite lookup_insert_eq. eexists. repeat split; reflexivity.
  - exists d. repeat split; try assumption. discriminate.
Qed.

(** X4.  After an [init] that resolved, [deleteDb] on the same client is
    rejected as blocked and changes nothing: the connection opened by [init]
    is never closed. *)
Theorem deleteDb_after_init_blocked (c : IndexedDbClient.t) (h : Host) :
  (init c h).1.1 = Resolved tt ->
  deleteDb (init c h).1.2 (init c h).2
  = (Rejected (Reason "Could not delete database due to the operation being blocked"),
     (init c h).1.2, (init c h).2).
Proof.
  intros Hinit.
  destruct (init_resolved c h Hinit) as (cfg & d & Hcfg & Hc & Hd & Hconn & Hfail).
  unfold deleteDb, deleteDatabase. rewrite Hc. simpl. rewrite Hcfg, Hfail, Hd.
  assert ((0 <? db_connections d)%nat = true) as -> by (apply Nat.ltb_lt; lia).
  reflexivity.
Qed.

Lemma deleteDb_after_init_blocked_witness :
  deleteDb Example.initialized.1 Example.initialized.2
  = (Rejected (Reason "Could not delete database due to the operation being blocked"),
     Example.initialized.1, Example.initialized.2).
Proof.
  apply (deleteDb_after_init_blocked (constructor (Some Example.indexedDbConfig))
           Example.browser).
  vm_compute. reflexivity.
Defined.

(** X5.  After an [init] that resolved and whose upgrade, if there was one,
    is completed, [createStorage] throws, "Storage already exists" for a
    storage that exists and the engine's InvalidStateError otherwise, and
    the host stays as it is: a storage can be created only inside the
    upgrade. *)
Theorem createStorage_after_init_throws (c : IndexedDbClient.t) (h : Host) (name : string) :
  (init c h).1.1 = Resolved tt ->
  let s := upgrade_completed (init c h).1.2 (init c h).2 in
  createStorage name s.1 s.2
  = (Some (if contains name s.1 s.2
           then Error "Storage already exists"
           else DOMException "InvalidStateError"),
     s.2).
Proof.
  intros Hinit s.
  destruct (init_resolved c h Hinit) as (cfg & d & Hcfg & Hc & Hd & _ & _).
  destruct (upgrade_completed_connected (init c h).1.2 (init c h).2 (dbName cfg) d)
    as (d' & Hdb' & _ & _ & _ & Hd' & Hup' & _); [now rewrite Hc|exact Hd|].
  fold s in Hdb', Hd'. unfold createStorage. rewrite Hdb'.
  destruct (contains name s.1 s.2); [reflexivity|].
  rewrite Hd'. unfold createObjectStore. rewrite Hup'. reflexivity.
Qed.

(** In the example, once started: "notes" is missing and cannot be created. *)
Lemma createStorage_after_init_throws_witness :
  createStorage "notes" Example.started.1 Example.started.2
  = (Some (if contains "notes" Example.started.1 Example.started.2
           then Error "Storage already exists"
           else DOMException "InvalidStateError"),
     Example.started.2) /\
  contains "notes" Example.started.1 Example.started.2 = false.
Proof.
  split.
  - apply (createStorage_after_init_throws (constructor (Some Example.indexedDbConfig))
             Example.browser "notes").
    vm_compute. reflexivity.
  - vm_compute. reflexivity.
Defined.

(** X6.  After an [init] that resolved and whose upgrade, if there was one,
    is completed, [deleteStorage] resolves without effect for a storage that
    does not exist and is rejected with the engine's InvalidStateError for
    one that exists; the host stays as it is. *)
Theorem deleteStorage_after_init (c : IndexedDbClient.t) (h : Host) (name : string) :
  (init c h).1.1 = Resolved tt ->
  let s := upgrade_completed (init c h).1.2 (init c h).2 in
  deleteStorage name s.1 s.2
  = (if contains name s.1 s.2
     then Rejected (Thrown (DOMException "InvalidStateError"))
     else Resolved tt,
     s.1, s.2).
Proof.
  intros Hinit s.
  destruct (init_resolved c h Hinit) as (cfg & d & Hcfg & Hc & Hd & _ & _).
  destruct (upgrade_completed_connected (init c h).1.2 (init c h).2 (dbName cfg) d)
    as (d' & Hdb' & _ & _ & _ & Hd' & Hup' & _); [now rewrite Hc|exact Hd|].
  fold s in Hdb', Hd'. unfold deleteStorage. rewrite Hdb'.
  destruct (contains name s.1 s.2); [|reflexivity].
  cbn [negb]. rewrite Hd'. unfold deleteObjectStore. rewrite Hup'. reflexivity.
Qed.

(** In the example, once started: "tasks" exists and cannot be deleted. *)
Lemma deleteStorage_after_init_witness :
  deleteStorage "tasks" Example.started.1 Example.started.2
  = (if contains "tasks" Example.started.1 Example.started.2
     then Rejected (Thrown (DOMException "InvalidStateError"))
     else Resolved tt,
     Example.started.1, Example.started.2) /\
  contains "tasks" Example.started.1 Example.started.2 = true.
Proof.
  split.
  - apply (deleteStorage_after_init (constructor (Some Example.indexedDbConfig))
             Example.browser "tasks").
    vm_compute. reflexivity.
  - vm_compute. reflexivity.
Defined.

(** ** Inside the upgrade *)

Lemma getStorage_upgrading (mode : Mode) (c : IndexedDbClient.t) (h : Host)
    (d name : string) (database : IDBDatabase) :
  db c = Some d ->
  name <> EmptyString ->
  databases h !! d = Some database ->
  db_upgrading database = true ->
  getStorage mode (from name c) h = inl (DOMException "InvalidStateError").
Proof.
  intros Hdb Hne Hd Hup. unfold getStorage. simpl. rewrite Hdb.
  apply String.eqb_neq in Hne. rewrite Hne. simpl. now rewrite Hd, Hup.
Qed.

(** X25.  When the database needed an upgrade, the promise of [init] is
    settled inside the version-change transaction: an operation called on
    the state [init] leaves throws the engine's InvalidStateError, keeps the
    storage selected and changes nothing. *)
Theorem operations_inside_upgrade_throw
    (c : IndexedDbClient.t) (h : Host) (cfg : IDBConfig) (d : IDBDatabase)
    (name : string) (op : Operation) :
  config c = Some cfg ->
  open (dbName cfg) (dbVersion cfg) h = OpenUpgrade d ->
  name <> EmptyString ->
  run op (from name (init c h).1.2) (init c h).2
  = (Failed (Thrown (DOMException "InvalidStateError")),
     from name (init c h).1.2, (init c h).2).
Proof.
  intros Hcfg Hopen Hne.
  destruct (init_inside_upgrade c h cfg d Hcfg Hopen)
    as (d' & Hdb & _ & _ & Hd' & _ & Hup & _).
  destruct op as [params|element|element|params];
    unfold run, select, insert, update, delete;
    rewrite (getStorage_upgrading _ _ _ _ _ _ Hdb Hne Hd' Hup); reflexivity.
Qed.

(** The first run of the example: an insert right after [await init()]
    fails, the same insert once the upgrade is completed succeeds. *)
Lemma operations_inside_upgrade_throw_witness :
  run (Insert (Example.task "A")) (from "tasks" Example.initialized.1)
      Example.initialized.2
  = (Failed (Thrown (DOMException "InvalidStateError")),
     from "tasks" Example.initialized.1, Example.initialized.2) /\
  Example.initialized.1.(_isInited) = true /\
  (run (Insert (Example.task "A")) (from "tasks" Example.started.1)
       Example.started.2).1.1 = Fulfilled.
Proof.
  split; [|split].
  - apply (operations_inside_upgrade_throw (constructor (Some Example.indexedDbConfig))
             Example.browser Example.indexedDbConfig
             {| db_version := 1; db_stores := ∅; db_connections := 1;
                db_upgrading := true |} "tasks" (Insert (Example.task "A"))).
    + reflexivity.
    + vm_compute. reflexivity.
    + discriminate.
  - vm_compute. reflexivity.
  - vm_compute. reflexivity.
Defined.



(** X27.  When the first storage of the descriptor is missing, has no entry
    in [storeNameToIndexes] and is named like a property that objects
    inherit, [init] is rejected with a TypeError inside the upgrade: that
    storage is created without indexes and no storage after it is created. *)
Theorem init_inherited_storage_name_rejected
    (c : IndexedDbClient.t) (h : Host) (cfg : IDBConfig) (d : IDBDatabase)
    (name : string) (rest : list string) :
  config c = Some cfg ->
  open (dbName cfg) (dbVersion cfg) h = OpenUpgrade d ->
  storageNames cfg = name :: rest ->
  db_stores d !! name = None ->
  storeNameToIndexes cfg !! name = None ->
  inherited name = true ->
  (init c h).1.1 = Rejected (Thrown TypeError) /\
  forall x,
    lookup_store (init c h).2 (dbName cfg) x
    = if bool_decide (x = name)
      then Some {| os_keyPath := "id"; os_autoIncrement := true; os_generator := 1;
                   os_records := []; os_indexes := [] |}
      else db_stores d !! x.
Proof.
  intros Hcfg Hopen Hnames Hmissing Hown Hinherited.
  destruct (open_upgrade _ _ _ _ Hopen) as [_ Hup].
  unfold init, init_onupgradeneeded. rewrite Hcfg, Hopen, Hnames.
  cbn [upgrade set_db db defined andb].
  unfold contains at 1. cbn [set_db db mbind option_bind set_database databases].
  rewrite lookup_insert_eq, Hmissing. cbn [defined negb].
  unfold createStorage, contains.
  cbn [set_db db config mbind option_bind set_database databases].
  rewrite lookup_insert_eq, Hmissing. cbn [defined].
  unfold createObjectStore. rewrite Hup, Hmissing. cbn [negb].
  rewrite Hcfg. cbn [mbind option_bind]. rewrite Hown, Hinherited. cbn [defined andb].
  split; [reflexivity|].
  intros x. unfold lookup_store. cbn [snd set_database databases].
  rewrite lookup_insert_eq. cbn [mbind option_bind set_store db_stores].
  destruct (decide (x = name)) as [->|Hne].
  - rewrite lookup_insert_eq. now rewrite bool_decide_eq_true_2.
  - rewrite lookup_insert_ne by congruence. now rewrite bool_decide_eq_false_2.
Qed.

(** A storage "constructor" in front of "tasks": it is created, "tasks" is
    not. *)
Lemma init_inherited_storage_name_rejected_witness :
  let c := constructor (Some Example.inheritedConfig) in
  (init c Example.browser).1.1 = Rejected (Thrown TypeError) /\
  is_Some (lookup_store (init c Example.browser).2 "exampleIndexedDbClientDb"
                        "constructor") /\
  lookup_store (init c Example.browser).2 "exampleIndexedDbClientDb" "tasks" = None.
Proof.
  intros c.
  destruct (init_inherited_storage_name_rejected c Example.browser
              Example.inheritedConfig
              {| db_version := 1; db_stores := ∅; db_connections := 1;
                 db_upgrading := true |} "constructor" ["tasks"])
    as (Hrejected & Hstores).
  - reflexivity.
  - vm_compute. reflexivity.
  - reflexivity.
  - reflexivity.
  - vm_compute. reflexivity.
  - vm_compute. reflexivity.
  - split; [exact Hrejected|]. rewrite !Hstores. split.
    + rewrite bool_decide_eq_true_2 by reflexivity. eauto.
    + rewrite bool_decide_eq_false_2 by discriminate. reflexivity.
Defined.

(** ** Writing *)


Lemma store_put_In (k : Key) (v : JSObject) (l : list (Key * JSObject)) :
  In (k, v) (store_put k v l).
Proof.
  induction l as [|[k' v'] t IH]; simpl; [now left|].
  destruct (key_compare k k'); simpl; auto.
Qed.

(** X8.  On an open connection whose database is not being upgraded and a
    storage with the key path "id": inserting a record that carries a falsy
    key (0 or the empty string) stores the record under that key, yet the
    promise resolves with the default -1. *)
Theorem insert_falsy_key_resolves_sentinel
    (c : IndexedDbClient.t) (h : Host) (d name : string) (database : IDBDatabase)
    (os : IDBObjectStore) (r : JSObject) (k : Key) :
  db c = Some d ->
  name <> EmptyString ->
  databases h !! d = Some database ->
  db_upgrading database = false ->
  db_stores database !! name = Some os ->
  failing h = false ->
  os_keyPath os = "id" ->
  r !! "id" = Some (JKey k) ->
  key_truthy k = false ->
  existsb (violates k r (os_records os)) (os_indexes os) = false ->
  let inserted := insert r (from name c) h in
  inserted.1.1 = Resolved (KNumber (-1)) /\
  inserted.1.2 = clearStorageName c /\
  exists os',
    lookup_store inserted.2 d name = Some os' /\
    os_records os' = store_put k r (os_records os) /\
    In (k, r) (os_records os').
Proof.
  intros Hdb Hne Hd Hup Hos Hfail Hpath Hid Hfalsy Hunique inserted. subst inserted.
  unfold insert. rewrite (getStorage_selected _ _ _ _ _ _ _ Hdb Hne Hd Hup Hos).
  cbn [st_mode st_store]. unfold put. rewrite Hpath, Hid, Hfail, Hunique.
  unfold promisifyRequest. simpl. rewrite Hfalsy. simpl.
  split; [reflexivity|]. split; [reflexivity|].
  eexists. split; [committed_store Hd; reflexivity|].
  split; [reflexivity|]. apply store_put_In.
Qed.

(** A task with key 0 is put in front of task 1. *)
Lemma insert_falsy_key_resolves_sentinel_witness :
  let inserted :=
    insert (Example.stored 0 "Z") (from "tasks" Example.one_task.1) Example.one_task.2 in
  inserted.1.1 = Resolved (KNumber (-1)) /\
  exists os',
    lookup_store inserted.2 "exampleIndexedDbClientDb" "tasks" = Some os' /\
    os_records os' = [(KNumber 0, Example.stored 0 "Z"); (KNumber 1, Example.stored 1 "A")].
Proof.
  intros inserted.
  destruct (insert_falsy_key_resolves_sentinel Example.one_task.1 Example.one_task.2
              "exampleIndexedDbClientDb" "tasks" Example.one_task_database
              Example.one_task_store (Example.stored 0 "Z") (KNumber 0))
    as (Hresolved & _ & os' & Hlookup & Hrecords & _).
  - reflexivity.
  - discriminate.
  - vm_compute. reflexivity.
  - reflexivity.
  - vm_compute. reflexivity.
  - reflexivity.
  - reflexivity.
  - vm_compute. reflexivity.
  - reflexivity.
  - vm_compute. reflexivity.
  - split; [exact Hresolved|]. exists os'. split; [exact Hlookup|].
    rewrite Hrecords. vm_compute. reflexivity.
Defined.

(** X9.  On an open connection whose database is not being upgraded and a
    storage with the key path "id": when a unique index refuses the record,
    [insert] is rejected with the ConstraintError event, the Selection
    Context is cleared and the host, key generator included, stays as it
    is. *)
Theorem insert_refused_by_unique_index
    (c : IndexedDbClient.t) (h : Host) (d name : string) (database : IDBDatabase)
    (os : IDBObjectStore) (r : JSObject) :
  db c = Some d ->
  name <> EmptyString ->
  databases h !! d = Some database ->
  db_upgrading database = false ->
  db_stores database !! name = Some os ->
  failing h = false ->
  os_keyPath os = "id" ->
  os_autoIncrement os = true ->
  (os_generator os <= max_generated)%Z ->
  r !! "id" = None ->
  existsb (violates (KNumber (os_generator os))
                    (<["id" := JKey (KNumber (os_generator os))]> r)
                    (os_records os)) (os_indexes os) = true ->
  insert r (from name c) h
  = (Rejected (ErrorEvent "ConstraintError"), clearStorageName c, h).
Proof.
  intros Hdb Hne Hd Hup Hos Hfail Hpath Hauto Hmax Hid Hunique.
  unfold insert. rewrite (getStorage_selected _ _ _ _ _ _ _ Hdb Hne Hd Hup Hos).
  cbn [st_mode st_store]. unfold put. rewrite Hpath, Hid, Hauto, Hfail. simpl.
  assert ((max_generated <? os_generator os)%Z = false) as -> by lia.
  rewrite Hunique. simpl.
  f_equal.
  apply (commit_same {| st_db := d; st_name := name; st_mode := ReadWrite;
                        st_store := os |} h database); assumption.
Qed.

(** With a unique index on "name" and task "A" stored, a second task "A"
    is refused. *)
Lemma insert_refused_by_unique_index_witness :
  insert (Example.task "A") (from "tasks" Example.unique_name.1) Example.unique_name.2
  = (Rejected (ErrorEvent "ConstraintError"), clearStorageName Example.unique_name.1,
     Example.unique_name.2).
Proof.
  apply (insert_refused_by_unique_index Example.unique_name.1 Example.unique_name.2
           "exampleIndexedDbClientDb" "tasks" Example.unique_name_database
           Example.unique_name_store (Example.task "A")).
  - reflexivity.
  - discriminate.
  - vm_compute. reflexivity.
  - reflexivity.
  - vm_compute. reflexivity.
  - reflexivity.
  - reflexivity.
  - reflexivity.
  - vm_compute. discriminate.
  - vm_compute. reflexivity.
  - vm_compute. reflexivity.
Defined.

(** X10.  On an open connection whose database is not being upgraded and a
    storage with the key path "id": when a unique index refuses the record,
    [update] still resolves: the host stays as it is and the caller is not
    told. *)
Theorem update_refused_resolves
    (c : IndexedDbClient.t) (h : Host) (d name : string) (database : IDBDatabase)
    (os : IDBObjectStore) (r : JSObject) (k : Key) :
  db c = Some d ->
  name <> EmptyString ->
  databases h !! d = Some database ->
  db_upgrading database = false ->
  db_stores database !! name = Some os ->
  failing h = false ->
  os_keyPath os = "id" ->
  r !! "id" = Some (JKey k) ->
  existsb (violates k r (os_records os)) (os_indexes os) = true ->
  update r (from name c) h = (Resolved tt, clearStorageName c, h).
Proof.
  intros Hdb Hne Hd Hup Hos Hfail Hpath Hid Hunique.
  unfold update. rewrite (getStorage_selected _ _ _ _ _ _ _ Hdb Hne Hd Hup Hos).
  cbn [st_mode st_store]. unfold put. rewrite Hpath, Hid, Hfail, Hunique.
  f_equal.
  apply (commit_same {| st_db := d; st_name := name; st_mode := ReadWrite;
                        st_store := os |} h database); assumption.
Qed.

(** With a unique index on "name" and task "A" stored under key 1, an
    update with a task "A" under key 2 is refused and resolves. *)
Lemma update_refused_resolves_witness :
  update (Example.stored 2 "A") (from "tasks" Example.unique_name.1)
         Example.unique_name.2
  = (Resolved tt, clearStorageName Example.unique_name.1, Example.unique_name.2).
Proof.
  apply (update_refused_resolves Example.unique_name.1 Example.unique_name.2
           "exampleIndexedDbClientDb" "tasks" Example.unique_name_database
           Example.unique_name_store (Example.stored 2 "A") (KNumber 2)).
  - reflexivity.
  - discriminate.
  - vm_compute. reflexivity.
  - reflexivity.
  - vm_compute. reflexivity.
  - reflexivity.
  - reflexivity.
  - vm_compute. reflexivity.
  - vm_compute. reflexivity.
Defined.

(** X11.  On an open connection whose database is not being upgraded and a
    storage with the key path "id": an [update] with a record that carries
    key [k] and that no unique index refuses, followed by a select of key
    [k], resolves with exactly that record: the record stored before under
    [k] is replaced as a whole. *)
Theorem update_then_select_by_key
    (c : IndexedDbClient.t) (h : Host) (d name : string) (database : IDBDatabase)
    (os : IDBObjectStore) (r : JSObject) (k : Key) :
  db c = Some d ->
  name <> EmptyString ->
  databases h !! d = Some database ->
  db_upgrading database = false ->
  db_stores database !! name = Some os ->
  failing h = false ->
  keys_ascending (os_records os) ->
  os_keyPath os = "id" ->
  r !! "id" = Some (JKey k) ->
  existsb (violates k r (os_records os)) (os_indexes os) = false ->
  let updated := update r (from name c) h in
  updated.1.1 = Resolved tt /\
  (select (Some {| sp_key := Some "id"; sp_value := Some (QKey k);
                   sp_count := None; sp_orderBy := None |})
          (from name updated.1.2) updated.2).1.1
  = Resolved [r].
Proof.
  intros Hdb Hne Hd Hup Hos Hfail Hsorted Hpath Hid Hunique updated. subst updated.
  unfold update. rewrite (getStorage_selected _ _ _ _ _ _ _ Hdb Hne Hd Hup Hos).
  cbn [st_mode st_store]. unfold put. rewrite Hpath, Hid, Hfail, Hunique.
  split; [reflexivity|].
  match goal with |- context [commit ?s ?o h] => set (st := s); set (os' := o) end.
  destruct (commit_lookup st os' h database Hd) as (Hd' & Hos' & Hfail').
  unfold select. cbn [fst snd].
  rewrite (getStorage_selected ReadOnly (clearStorageName (from name c)) _ d name _ os'
             Hdb Hne Hd' Hup Hos').
  cbn [mbind option_bind sp_key sp_value sp_count sp_orderBy defined number_truthy
       negb orb andb st_store].
  rewrite bool_decide_eq_true_2 by reflexivity.
  rewrite bool_decide_eq_false_2 by discriminate.
  cbn [orb negb].
  rewrite (getAll_store_only os' k _ (os_records os) Hsorted eq_refl).
  rewrite Hfail', Hfail. reflexivity.
Qed.

(** Task 2 of three is renamed; a select of key 2 returns the new record. *)
Lemma update_then_select_by_key_witness :
  let updated :=
    update (Example.stored 2 "Updated") (from "tasks" Example.three_tasks_written.1)
           Example.three_tasks_written.2 in
  updated.1.1 = Resolved tt /\
  (select (Some {| sp_key := Some "id"; sp_value := Some (QKey (KNumber 2));
                   sp_count := None; sp_orderBy := None |})
          (from "tasks" updated.1.2) updated.2).1.1
  = Resolved [Example.stored 2 "Updated"].
Proof.
  apply (update_then_select_by_key Example.three_tasks_written.1
           Example.three_tasks_written.2
           "exampleIndexedDbClientDb" "tasks" Example.three_tasks_database
           Example.three_tasks_store (Example.stored 2 "Updated") (KNumber 2)).
  - reflexivity.
  - discriminate.
  - vm_compute. reflexivity.
  - reflexivity.
  - vm_compute. reflexivity.
  - reflexivity.
  - repeat constructor.
  - reflexivity.
  - vm_compute. reflexivity.
  - vm_compute. reflexivity.
Defined.

(** ** Deleting and reading *)

Lemma delete_records_only (k : Key) (l : list (Key * JSObject)) :
  delete_records (KeyRange.only k) l
  = List.filter (fun kv : Key * JSObject => negb (bool_decide (kv.1 = k))) l.
Proof.
  unfold delete_records. apply List.filter_ext. intros kv. f_equal.
  destruct (includes (KeyRange.only k) kv.1) eqn:Hin.
  - apply includes_only in Hin. now rewrite bool_decide_eq_true_2.
  - rewrite bool_decide_eq_false_2; [reflexivity|].
    intros Heq. apply includes_only in Heq. congruence.
Qed.

(** X12.  On an open connection whose database is not being upgraded: with
    [key] absent or "id" and a truthy key as [value], [delete] resolves and
    clears the Selection Context; afterwards the storage holds exactly the
    records with another key, its key path, key generator and indexes are
    as before, and every other storage is as before. *)
Theorem delete_by_id_removes_that_record
    (c : IndexedDbClient.t) (h : Host) (d name : string) (database : IDBDatabase)
    (os : IDBObjectStore) (params : SelectParams) (k : Key) :
  db c = Some d ->
  name <> EmptyString ->
  databases h !! d = Some database ->
  db_upgrading database = false ->
  db_stores database !! name = Some os ->
  failing h = false ->
  sp_key params = None \/ sp_key params = Some "id" ->
  sp_value params = Some (QKey k) ->
  key_truthy k = true ->
  let deleted := delete params (from name c) h in
  deleted.1.1 = Resolved tt /\
  deleted.1.2 = clearStorageName c /\
  (exists os',
     lookup_store deleted.2 d name = Some os' /\
     os_records os'
     = List.filter (fun kv : Key * JSObject => negb (bool_decide (kv.1 = k)))
                   (os_records os) /\
     os_keyPath os' = os_keyPath os /\
     os_autoIncrement os' = os_autoIncrement os /\
     os_generator os' = os_generator os /\
     os_indexes os' = os_indexes os) /\
  (forall d' name', d' <> d \/ name' <> name ->
     lookup_store deleted.2 d' name' = lookup_store h d' name').
Proof.
  intros Hdb Hne Hd Hup Hos Hfail Hkey Hvalue Htruthy deleted. subst deleted.
  unfold delete. rewrite (getStorage_selected _ _ _ _ _ _ _ Hdb Hne Hd Hup Hos).
  cbn [st_store st_mode]. rewrite Hvalue.
  assert (string_truthy (sp_key params)
          && negb (bool_decide (sp_key params = Some "id")) = false) as ->.
  { destruct Hkey as [-> | ->]; [reflexivity|].
    rewrite bool_decide_eq_true_2 by reflexivity. apply andb_false_r. }
  cbn [value_truthy query_truthy]. rewrite Htruthy.
  unfold store_delete. rewrite Hfail. cbn [query_range].
  rewrite delete_records_only. cbn [fst snd].
  split; [reflexivity|]. split; [reflexivity|]. split; [|other_store Hd].
  eexists. split; [committed_store Hd; reflexivity|]. repeat split; reflexivity.
Qed.

(** Of tasks 1, 2, 3, deleting key 2 leaves tasks 1 and 3. *)
Lemma delete_by_id_removes_that_record_witness :
  let deleted :=
    delete {| sp_key := Some "id"; sp_value := Some (QKey (KNumber 2));
              sp_count := None; sp_orderBy := None |}
           (from "tasks" Example.three_tasks_written.1) Example.three_tasks_written.2 in
  deleted.1.1 = Resolved tt /\
  exists os',
    lookup_store deleted.2 "exampleIndexedDbClientDb" "tasks" = Some os' /\
    os_records os' = [(KNumber 1, Example.stored 1 "A"); (KNumber 3, Example.stored 3 "A")].
Proof.
  intros deleted.
  destruct (delete_by_id_removes_that_record Example.three_tasks_written.1
              Example.three_tasks_written.2
              "exampleIndexedDbClientDb" "tasks" Example.three_tasks_database
              Example.three_tasks_store
              {| sp_key := Some "id"; sp_value := Some (QKey (KNumber 2));
                 sp_count := None; sp_orderBy := None |} (KNumber 2))
    as (Hresolved & _ & (os' & Hlookup & Hrecords & _) & _).
  - reflexivity.
  - discriminate.
  - vm_compute. reflexivity.
  - reflexivity.
  - vm_compute. reflexivity.
  - reflexivity.
  - right. reflexivity.
  - reflexivity.
  - reflexivity.
  - split; [exact Hresolved|]. exists os'. split; [exact Hlookup|].
    rewrite Hrecords. vm_compute. reflexivity.
Defined.

Lemma map_store_entry_value (l : list (Key * JSObject)) :
  List.map e_value (List.map store_entry l) = List.map snd l.
Proof. rewrite List.map_map. apply List.map_ext. now intros [k v]. Qed.

Lemma filter_unbounded (l : list Entry) :
  List.filter (in_range KeyRange.unbounded) l = l.
Proof.
  apply List.forallb_filter_id, List.forallb_forall. intros e _. reflexivity.
Qed.

(** X14.  On an open connection whose database is not being upgraded: a
    select without descriptor resolves with all records of the selected
    storage in the order of their keys, clears the Selection Context and
    leaves the host as it is. *)
Theorem select_all_returns_the_records
    (c : IndexedDbClient.t) (h : Host) (d name : string) (database : IDBDatabase)
    (os : IDBObjectStore) :
  db c = Some d ->
  name <> EmptyString ->
  databases h !! d = Some database ->
  db_upgrading database = false ->
  db_stores database !! name = Some os ->
  failing h = false ->
  select None (from name c) h
  = (Resolved (List.map snd (os_records os)), clearStorageName c, h).
Proof.
  intros Hdb Hne Hd Hup Hos Hfail.
  unfold select. rewrite (getStorage_selected _ _ _ _ _ _ _ Hdb Hne Hd Hup Hos).
  cbn [mbind option_bind defined negb orb st_store].
  rewrite bool_decide_eq_false_2 by discriminate. cbn [negb].
  unfold getAll. cbn [query_range source_entries]. unfold store_entries.
  rewrite filter_unbounded, map_store_entry_value, Hfail. reflexivity.
Qed.

Lemma select_all_returns_the_records_witness :
  select None (from "tasks" Example.three_tasks_written.1) Example.three_tasks_written.2
  = (Resolved [Example.stored 1 "A"; Example.stored 2 "B"; Example.stored 3 "A"],
     clearStorageName Example.three_tasks_written.1, Example.three_tasks_written.2).
Proof.
  rewrite (select_all_returns_the_records Example.three_tasks_written.1
             Example.three_tasks_written.2
             "exampleIndexedDbClientDb" "tasks" Example.three_tasks_database
             Example.three_tasks_store).
  - reflexivity.
  - reflexivity.
  - discriminate.
  - vm_compute. reflexivity.
  - reflexivity.
  - vm_compute. reflexivity.
  - reflexivity.
Defined.

(** X16.  On an open connection whose database is not being upgraded: a
    descending select with [count: k] and no value resolves with the [k]
    records of the greatest primary keys, greatest first, whatever [key]
    says. *)
Theorem select_desc_count_returns_last_records
    (c : IndexedDbClient.t) (h : Host) (d name : string) (database : IDBDatabase)
    (os : IDBObjectStore) (key : option string) (k : Z) :
  db c = Some d ->
  name <> EmptyString ->
  databases h !! d = Some database ->
  db_upgrading database = false ->
  db_stores database !! name = Some os ->
  failing h = false ->
  keys_ascending (os_records os) ->
  (0 < k)%Z ->
  select (Some {| sp_key := key; sp_value := None; sp_count := Some k;
                  sp_orderBy := Some desc |}) (from name c) h
  = (Resolved (firstn (Z.to_nat k) (rev (List.map snd (os_records os)))),
     clearStorageName c, h).
Proof.
  intros Hdb Hne Hd Hup Hos Hfail Hsorted Hk.
  unfold select. rewrite (getStorage_selected _ _ _ _ _ _ _ Hdb Hne Hd Hup Hos).
  cbn [mbind option_bind sp_key sp_value sp_count sp_orderBy defined number_truthy
       negb orb andb st_store].
  rewrite !orb_true_r.
  rewrite bool_decide_eq_true_2 by reflexivity. cbn [negb]. rewrite Hfail.
  cbn [source_entries query_range].
  assert (Hwalk : walk (S (length (store_entries os))) (store_entries os)
                    KeyRange.unbounded None None 0 []
                  = Some (rev (List.map snd (os_records os)))).
  { rewrite (walk_descending (store_entries os) _
               (rev_descending _ (store_entries_ascending _ Hsorted))
               _ [] (rev (store_entries os)) None 0 []).
    - simpl. rewrite filter_unbounded, List.map_rev. unfold store_entries.
      now rewrite map_store_entry_value.
    - reflexivity.
    - intros x [].
    - reflexivity.
    - rewrite List.length_rev. lia. }
  rewrite (walk_count _ _ k Hk _ None 0 [] _ ltac:(lia) Hwalk).
  rewrite Z.sub_0_r. reflexivity.
Qed.

(** Of tasks 1, 2, 3 the last two, by the index name given or not: tasks
    3 and 2, in this order. *)
Lemma select_desc_count_returns_last_records_witness :
  select (Some {| sp_key := Some "tasksName"; sp_value := None; sp_count := Some 2%Z;
                  sp_orderBy := Some desc |})
         (from "tasks" Example.three_tasks_written.1) Example.three_tasks_written.2
  = (Resolved [Example.stored 3 "A"; Example.stored 2 "B"],
     clearStorageName Example.three_tasks_written.1, Example.three_tasks_written.2).
Proof.
  rewrite (select_desc_count_returns_last_records Example.three_tasks_written.1
             Example.three_tasks_written.2
             "exampleIndexedDbClientDb" "tasks" Example.three_tasks_database
             Example.three_tasks_store (Some "tasksName") 2%Z).
  - reflexivity.
  - reflexivity.
  - discriminate.
  - vm_compute. reflexivity.
  - reflexivity.
  - vm_compute. reflexivity.
  - reflexivity.
  - repeat constructor.
  - lia.
Defined.

(** ** Reading through an index *)

Lemma insert_entry_le_head (e : Entry) (l : list Entry) :
  List.Forall (entry_le e) l -> insert_entry e l = e :: l.
Proof.
  destruct l as [|x l]; [reflexivity|]. intros H. simpl.
  apply List.Forall_inv in H. unfold entry_le in H. now rewrite H.
Qed.

Lemma sort_entries_sorted_id (l : list Entry) :
  StronglySorted entry_le l -> sort_entries l = l.
Proof.
  induction 1 as [|a l Hl IH Hall]; simpl; [reflexivity|].
  rewrite IH. now apply insert_entry_le_head.
Qed.

Lemma filter_insert_entry (P : Entry -> bool) (e : Entry) (l : list Entry) :
  StronglySorted entry_le l ->
  List.filter P (insert_entry e l)
  = if P e then insert_entry e (List.filter P l) else List.filter P l.
Proof.
  induction 1 as [|a l Hl IH Hall]; simpl.
  - destruct (P e); reflexivity.
  - destruct (entry_leb e a) eqn:Hle; simpl.
    + destruct (P e) eqn:HPe; [|reflexivity].
      symmetry. apply insert_entry_le_head.
      assert (Hall' : List.Forall (entry_le e) (a :: l)).
      { constructor; [exact Hle|].
        eapply List.Forall_impl; [|exact Hall].
        intros b Hb. eapply entry_leb_trans; eassumption. }
      rewrite List.Forall_forall in *. intros x Hx.
      destruct (P a); [|apply Hall'; right; now apply List.filter_In in Hx].
      destruct Hx as [<- | Hx]; [apply Hall'; now left|].
      apply Hall'. right. now apply List.filter_In in Hx.
    + rewrite IH. destruct (P a), (P e); simpl; rewrite ?Hle; reflexivity.
Qed.

Lemma filter_sort_entries (P : Entry -> bool) (l : list Entry) :
  List.filter P (sort_entries l) = sort_entries (List.filter P l).
Proof.
  induction l as [|a l IH]; simpl; [reflexivity|].
  rewrite filter_insert_entry by apply sort_entries_sorted.
  rewrite IH. destruct (P a); reflexivity.
Qed.


Lemma filter_index_entries_only (ix : IDBIndex) (v : Key) (l : list (Key * JSObject)) :
  List.filter (in_range (KeyRange.only v)) (omap (index_entry ix) l)
  = List.map (hit_entry v) (List.filter (hit ix v) l).
Proof.
  induction l as [|kv l IH]; [reflexivity|].
  cbn [omap list_omap List.filter]. unfold hit at 1, index_entry at 1.
  destruct (extract_key (ix_keyPath ix) kv.2) as [k|] eqn:Hk.
  - cbn [List.filter]. unfold in_range at 1. cbn [e_key].
    destruct (includes (KeyRange.only v) k) eqn:Hin.
    + apply includes_only in Hin. subst k.
      rewrite bool_decide_eq_true_2 by reflexivity. simpl. now rewrite <- IH.
    + rewrite bool_decide_eq_false_2.
      * exact IH.
      * intros [= ->]. assert (includes (KeyRange.only v) v = true)
          by now apply includes_only. congruence.
  - rewrite bool_decide_eq_false_2 by discriminate. exact IH.
Qed.

Lemma hit_entries_sorted (v : Key) (l : list (Key * JSObject)) :
  keys_ascending l -> StronglySorted entry_le (List.map (hit_entry v) l).
Proof.
  induction 1 as [|a l Hl IH Hall]; simpl; constructor; [exact IH|].
  rewrite List.Forall_forall in *. intros e He.
  apply List.in_map_iff in He. destruct He as (b & <- & Hb).
  specialize (Hall b Hb). unfold key_lt in Hall.
  unfold entry_le, entry_leb, entry_compare. simpl.
  now rewrite key_compare_refl, Hall.
Qed.

Lemma getAll_index_only (os : IDBObjectStore) (ix : IDBIndex) (v : Key) :
  keys_ascending (os_records os) ->
  getAll (IndexSource os ix) (Some (QKey v)) None
  = inr (List.map snd (List.filter (hit ix v) (os_records os))).
Proof.
  intros Hsorted.
  unfold getAll. cbn [query_range source_entries]. unfold index_entries.
  rewrite filter_sort_entries, filter_index_entries_only.
  rewrite sort_entries_sorted_id
    by (apply hit_entries_sorted; now apply filter_ascending).
  now rewrite List.map_map.
Qed.

(** X15.  On an open connection whose database is not being upgraded: a
    select by an index and a key as [value], without count and order,
    resolves with exactly the records whose indexed property is that key,
    in the order of their primary keys. *)
Theorem select_by_index_value
    (c : IndexedDbClient.t) (h : Host) (d name : string) (database : IDBDatabase)
    (os : IDBObjectStore) (index : string) (ix : IDBIndex) (v : Key) :
  db c = Some d ->
  name <> EmptyString ->
  databases h !! d = Some database ->
  db_upgrading database = false ->
  db_stores database !! name = Some os ->
  failing h = false ->
  keys_ascending (os_records os) ->
  index <> "id" ->
  store_index index os = inr ix ->
  select (Some {| sp_key := Some index; sp_value := Some (QKey v);
                  sp_count := None; sp_orderBy := None |}) (from name c) h
  = (Resolved (List.map snd
                 (List.filter
                    (fun kv : Key * JSObject =>
                       bool_decide (extract_key (ix_keyPath ix) kv.2 = Some v))
                    (os_records os))),
     clearStorageName c, h).
Proof.
  intros Hdb Hne Hd Hup Hos Hfail Hsorted Hindex Hix.
  unfold select. rewrite (getStorage_selected _ _ _ _ _ _ _ Hdb Hne Hd Hup Hos).
  cbn [mbind option_bind sp_key sp_value sp_count sp_orderBy defined number_truthy
       negb orb andb st_store default from_option id].
  rewrite bool_decide_eq_false_2 by congruence. cbn [orb].
  unfold id. rewrite Hix.
  rewrite bool_decide_eq_false_2 by discriminate. cbn [negb].
  rewrite (getAll_index_only _ _ _ Hsorted), Hfail. reflexivity.
Qed.

(** Of tasks "A", "B", "A" those named "A": tasks 1 and 3. *)
Lemma select_by_index_value_witness :
  select (Some {| sp_key := Some "tasksName"; sp_value := Some (QKey (KString "A"));
                  sp_count := None; sp_orderBy := None |})
         (from "tasks" Example.three_tasks_written.1) Example.three_tasks_written.2
  = (Resolved [Example.stored 1 "A"; Example.stored 3 "A"],
     clearStorageName Example.three_tasks_written.1, Example.three_tasks_written.2).
Proof.
  rewrite (select_by_index_value Example.three_tasks_written.1
             Example.three_tasks_written.2
             "exampleIndexedDbClientDb" "tasks" Example.three_tasks_database
             Example.three_tasks_store "tasksName"
             {| ix_name := "tasksName"; ix_keyPath := "name"; ix_unique := false |}).
  - vm_compute. reflexivity.
  - reflexivity.
  - discriminate.
  - vm_compute. reflexivity.
  - reflexivity.
  - vm_compute. reflexivity.
  - reflexivity.
  - repeat constructor.
  - discriminate.
  - reflexivity.
Defined.

(** X13.  On an open connection whose database is not being upgraded: after
    a delete by index and value, a select by the same index and value
    resolves with no record. *)
Theorem delete_by_index_then_select_by_index
    (c : IndexedDbClient.t) (h : Host) (d name : string) (database : IDBDatabase)
    (os : IDBObjectStore) (index : string) (ix : IDBIndex) (v : Key) :
  db c = Some d ->
  name <> EmptyString ->
  databases h !! d = Some database ->
  db_upgrading database = false ->
  db_stores database !! name = Some os ->
  failing h = false ->
  keys_ascending (os_records os) ->
  index <> EmptyString -> index <> "id" ->
  store_index index os = inr ix ->
  let params := {| sp_key := Some index; sp_value := Some (QKey v);
                   sp_count := None; sp_orderBy := None |} in
  let deleted := delete params (from name c) h in
  deleted.1.1 = Resolved tt /\
  (select (Some params) (from name deleted.1.2) deleted.2).1.1 = Resolved [].
Proof.
  intros Hdb Hne Hd Hup Hos Hfail Hsorted Hi1 Hi2 Hix params deleted.
  subst deleted params. unfold delete.
  rewrite (getStorage_selected _ _ _ _ _ _ _ Hdb Hne Hd Hup Hos).
  cbn [st_store st_mode sp_key sp_value string_truthy default from_option].
  apply String.eqb_neq in Hi1. rewrite Hi1.
  rewrite bool_decide_eq_false_2 by congruence.
  cbn [negb andb]. unfold id. rewrite Hix. cbn [IDBKeyRange_only]. rewrite Hfail.
  rewrite (delete_walk_removes_hits ix v); try assumption;
    [|intros; reflexivity
     |pose proof (List.filter_length_le (hit ix v) (os_records os)); lia].
  split; [reflexivity|].
  match goal with |- context [commit ?s ?o h] => set (st := s); set (os' := o) end.
  destruct (commit_lookup st os' h database Hd) as (Hd' & Hos' & Hfail').
  unfold select. cbn [fst snd].
  rewrite (getStorage_selected ReadOnly
             (clearStorageName (clearStorageName (from name c))) _ d name _ os'
             Hdb Hne Hd' Hup Hos').
  cbn [mbind option_bind sp_key sp_value sp_count sp_orderBy defined number_truthy
       negb orb andb st_store default from_option id].
  rewrite bool_decide_eq_false_2 by congruence. cbn [orb].
  unfold id. change (store_index index os') with (store_index index os). rewrite Hix.
  rewrite bool_decide_eq_false_2 by discriminate. cbn [negb].
  rewrite (getAll_index_only os' ix v) by (now apply filter_ascending).
  rewrite Hfail', Hfail. simpl.
  rewrite filter_none; [reflexivity|].
  intros x Hx. apply List.filter_In in Hx. destruct Hx as [_ Hx].
  now apply negb_true_iff in Hx.
Qed.

(** Tasks "A", "B", "A": after the delete by name "A" no task is named "A". *)
Lemma delete_by_index_then_select_by_index_witness :
  let params := {| sp_key := Some "tasksName"; sp_value := Some (QKey (KString "A"));
                   sp_count := None; sp_orderBy := None |} in
  let deleted :=
    delete params (from "tasks" Example.three_tasks_written.1)
           Example.three_tasks_written.2 in
  deleted.1.1 = Resolved tt /\
  (select (Some params) (from "tasks" deleted.1.2) deleted.2).1.1 = Resolved [].
Proof.
  apply (delete_by_index_then_select_by_index Example.three_tasks_written.1
           Example.three_tasks_written.2
           "exampleIndexedDbClientDb" "tasks" Example.three_tasks_database
           Example.three_tasks_store "tasksName"
           {| ix_name := "tasksName"; ix_keyPath := "name"; ix_unique := false |}).
  - reflexivity.
  - discriminate.
  - vm_compute. reflexivity.
  - reflexivity.
  - vm_compute. reflexivity.
  - reflexivity.
  - repeat constructor.
  - discriminate.
  - discriminate.
  - reflexivity.
Defined.



Lemma same_schema_refl (os : IDBObjectStore) : same_schema os os.
Proof. repeat split; lia. Qed.

Lemma put_same_schema (mode : Mode) (f : bool) (value : JSObject)
    (os os' : IDBObjectStore) (request : IDBRequest Key) :
  put mode f value os = inr (request, os') -> same_schema os os'.
Proof.
  unfold put. destruct mode; [discriminate|].
  assert (Hstored : forall k v gen,
    (os_generator os <= gen)%Z ->
    (if f then (RequestError "UnknownError", os)
     else if existsb (violates k v (os_records os)) (os_indexes os)
          then (RequestError "ConstraintError", os)
          else (RequestSuccess k,
                {| os_keyPath := os_keyPath os;
                   os_autoIncrement := os_autoIncrement os;
                   os_generator := gen;
                   os_records := store_put k v (os_records os);
                   os_indexes := os_indexes os |})) = (request, os') ->
    same_schema os os').
  { intros k v gen Hg. destruct f; [intros [= _ <-]; apply same_schema_refl|].
    destruct (existsb _ _); intros [= _ <-]; [apply same_schema_refl|].
    repeat split; simpl; lia. }
  destruct (value !! os_keyPath os) as [[| |b|k]|].
  - destruct (negb (os_autoIncrement os)); [discriminate|].
    destruct (max_generated <? os_generator os)%Z;
      [intros [= _ <-]; apply same_schema_refl|].
    intros [= Heq]. eapply Hstored; [|exact Heq]. lia.
  - discriminate.
  - discriminate.
  - intros [= Heq]. eapply Hstored; [|exact Heq].
    destruct k; try lia.
    destruct (os_autoIncrement os && (os_generator os <=? n)%Z) eqn:Hb; [|lia].
    apply andb_true_iff in Hb. lia.
  - destruct (negb (os_autoIncrement os)); [discriminate|].
    destruct (max_generated <? os_generator os)%Z;
      [intros [= _ <-]; apply same_schema_refl|].
    intros [= Heq]. eapply Hstored; [|exact Heq]. lia.
Qed.

Lemma same_schema_trans (a b c : IDBObjectStore) :
  same_schema a b -> same_schema b c -> same_schema a c.
Proof. unfold same_schema. intros (? & ? & ? & ?) (? & ? & ? & ?). repeat split; try congruence; lia. Qed.

Section StoreSteps.
Variable R : IDBObjectStore -> IDBObjectStore -> Prop.
Hypothesis R_refl : forall os, R os os.
Hypothesis R_trans : forall a b c, R a b -> R b c -> R a c.
Hypothesis R_put : forall mode f value os os' request,
  put mode f value os = inr (request, os') -> R os os'.
Hypothesis R_filter : forall os f, R os (with_records os (List.filter f (os_records os))).

Lemma delete_walk_steps (ix : IDBIndex) (r : IDBKeyRange) :
  forall (fuel : nat) (pos : option Entry) (os os' : IDBObjectStore),
    delete_walk fuel ix r pos os = Some os' -> R os os'.
Proof.
  induction fuel as [|fuel IH]; intros pos os os'; cbn [delete_walk]; [discriminate|].
  destruct (iterate_cursor _ _ _ _) as [e|].
  - intros H. apply IH in H. eapply R_trans; [|exact H]. apply R_filter.
  - intros [= <-]. apply R_refl.
Qed.

(** An operation leaves the host as it is, or commits a new state of the
    store it got from [getStorage]. *)
Lemma run_steps (op : Operation) (c : IndexedDbClient.t) (h : Host) :
  (run op c h).2 = h \/
  exists st os',
    getStorage ReadWrite c h = inr st /\
    (run op c h).2 = commit st os' h /\
    R (st_store st) os'.
Proof.
  destruct op as [params|element|element|params]; unfold run.
  - left. unfold select.
    destruct (getStorage ReadOnly c h) as [e|st]; [reflexivity|].
    match goal with |- context [match ?s with inl _ => _ | inr _ => _ end] =>
      destruct s as [e|storage] end; [reflexivity|].
    destruct (negb _).
    + destruct (getAll _ _ _); [reflexivity|].
      destruct (promisifyRequest _ _ _ _). reflexivity.
    + destruct (failing h); [reflexivity|].
      destruct (walk _ _ _ _ _ _ _); reflexivity.
  - unfold insert.
    destruct (getStorage ReadWrite c h) as [e|st] eqn:Hst; [now left|].
    destruct (put _ _ _ _) as [e|[request os']] eqn:Hput; [now left|].
    destruct (promisifyRequest _ _ _ _). right. exists st, os'.
    repeat split; try reflexivity; eapply R_put; eassumption.
  - unfold update.
    destruct (getStorage ReadWrite c h) as [e|st] eqn:Hst; [now left|].
    destruct (put _ _ _ _) as [e|[request os']] eqn:Hput; [now left|].
    right. exists st, os'.
    repeat split; try reflexivity; eapply R_put; eassumption.
  - unfold delete.
    destruct (getStorage ReadWrite c h) as [e|st] eqn:Hst; [now left|].
    destruct (string_truthy _ && _).
    + destruct (store_index _ _); [now left|].
      destruct (IDBKeyRange_only _); [now left|].
      destruct (failing h); [now left|].
      destruct (delete_walk _ _ _ _ _) as [os'|] eqn:Hwalk; [|now left].
      right. exists st, os'.
      repeat split; try reflexivity; eapply delete_walk_steps; eassumption.
    + destruct (value_truthy _); [|now left].
      unfold store_delete. cbn [st_mode].
      assert (st_mode st = ReadWrite) as ->.
      { revert Hst. unfold getStorage. repeat case_match; try discriminate.
        now intros [= <-]. }
      destruct (sp_value params); [|now left].
      destruct (failing h); right; exists st; eexists;
        (split; [reflexivity|split; [reflexivity|]]);
        [apply R_refl|apply R_filter].
Qed.

End StoreSteps.

Lemma run_effect (op : Operation) (c : IndexedDbClient.t) (h : Host) :
  (run op c h).2 = h \/
  exists st os',
    getStorage ReadWrite c h = inr st /\
    (run op c h).2 = commit st os' h /\
    same_schema (st_store st) os'.
Proof.
  apply (run_steps same_schema same_schema_refl same_schema_trans).
  - intros mode f value os os' request. apply put_same_schema.
  - intros os f. repeat split; simpl; lia.
Qed.



(** X20.  Select, insert, update and delete leave every storage other than
    the selected one of the connected database as it is. *)
Theorem run_leaves_other_storages
    (op : Operation) (c : IndexedDbClient.t) (h : Host) (d name : string) :
  db c <> Some d \/ storageName c <> Some name ->
  lookup_store (run op c h).2 d name = lookup_store h d name.
Proof.
  intros Hother.
  destruct (run_effect op c h) as [-> | (st & os' & Hst & -> & _)]; [reflexivity|].
  destruct (getStorage_selection _ _ _ _ Hst) as (Hdb & Hname & Hlook).
  rewrite lookup_store_commit.
  - rewrite bool_decide_eq_false_2; [reflexivity|].
    intros [-> ->]. tauto.
  - unfold lookup_store in Hlook. destruct (databases h !! st_db st); [eauto|discriminate].
Qed.

(** An insert into "tasks" leaves "notes", with its note, as it is. *)
Lemma run_leaves_other_storages_witness :
  lookup_store
    (run (Insert (Example.task "C")) (from "tasks" Example.two_storages.1)
         Example.two_storages.2).2
    "exampleIndexedDbClientDb" "notes"
  = lookup_store Example.two_storages.2 "exampleIndexedDbClientDb" "notes" /\
  lookup_store Example.two_storages.2 "exampleIndexedDbClientDb" "notes"
  = Some Example.notes_store /\
  (run (Insert (Example.task "C")) (from "tasks" Example.two_storages.1)
       Example.two_storages.2).1.1 = Fulfilled.
Proof.
  split; [|split].
  - apply (run_leaves_other_storages (Insert (Example.task "C"))
             (from "tasks" Example.two_storages.1) Example.two_storages.2).
    right. discriminate.
  - vm_compute. reflexivity.
  - vm_compute. reflexivity.
Defined.

(** X21.  Select, insert, update and delete remove no storage and change
    neither its key path, its key generation nor its indexes, and its key
    generator never moves backwards. *)
Theorem run_keeps_schema_and_generator
    (op : Operation) (c : IndexedDbClient.t) (h : Host) (d name : string)
    (os : IDBObjectStore) :
  lookup_store h d name = Some os ->
  exists os', lookup_store (run op c h).2 d name = Some os' /\ same_schema os os'.
Proof.
  intros Hos.
  destruct (run_effect op c h) as [-> | (st & os' & Hst & -> & Hschema)].
  - exists os. split; [exact Hos|apply same_schema_refl].
  - destruct (getStorage_selection _ _ _ _ Hst) as (Hdb & Hname & Hlook).
    rewrite lookup_store_commit
      by (unfold lookup_store in Hlook;
          destruct (databases h !! st_db st); [eauto|discriminate]).
    destruct (bool_decide_reflect (d = st_db st /\ name = st_name st)) as [[-> ->]|Hne].
    + exists os'. split; [reflexivity|]. congruence.
    + exists os. split; [exact Hos|apply same_schema_refl].
Qed.

Lemma run_keeps_schema_and_generator_witness :
  exists os',
    lookup_store
      (run (Insert (Example.task "B")) (from "tasks" Example.one_task.1)
           Example.one_task.2).2 "exampleIndexedDbClientDb" "tasks" = Some os' /\
    same_schema Example.one_task_store os'.
Proof.
  apply (run_keeps_schema_and_generator (Insert (Example.task "B"))
           (from "tasks" Example.one_task.1) Example.one_task.2).
  vm_compute. reflexivity.
Defined.





















Lemma store_put_fresh_key (k : Key) (v : JSObject) (l : list (Key * JSObject)) :
  (forall x, In x l -> x.1 <> k) ->
  In (k, v) (store_put k v l) /\
  (forall x, In x l -> In x (store_put k v l)) /\
  length (store_put k v l) = S (length l).
Proof.
  induction l as [|[k' v'] t IH]; intros Hfresh; simpl.
  - repeat split; auto.
  - destruct (key_compare k k') eqn:Hc.
    + apply key_compare_eq in Hc. exfalso. apply (Hfresh (k', v')); [now left|].
      now symmetry.
    + repeat split; simpl; auto.
    + destruct IH as (Hnew & Hold & Hlen).
      { intros x Hx. apply Hfresh. now right. }
      repeat split; simpl; auto.
      intros x [<- | Hx]; auto.
Qed.

(** X7.  On an open connection whose database is not being upgraded and a
    storage with the key path "id" that satisfies the invariant: inserting
    a record without key resolves with the key generator's number and
    clears the Selection Context; afterwards the storage has its generator
    advanced by one and holds the record under that key, every record
    stored before, and one record more than before. *)
Theorem insert_generated_key_keeps_records
    (c : IndexedDbClient.t) (h : Host) (d name : string) (database : IDBDatabase)
    (os : IDBObjectStore) (r : JSObject) :
  db c = Some d ->
  name <> EmptyString ->
  databases h !! d = Some database ->
  db_upgrading database = false ->
  db_stores database !! name = Some os ->
  failing h = false ->
  store_ok os ->
  os_keyPath os = "id" ->
  (os_generator os <= max_generated)%Z ->
  r !! "id" = None ->
  existsb (violates (KNumber (os_generator os))
                    (<["id" := JKey (KNumber (os_generator os))]> r)
                    (os_records os)) (os_indexes os) = false ->
  let inserted := insert r (from name c) h in
  inserted.1.1 = Resolved (KNumber (os_generator os)) /\
  inserted.1.2 = clearStorageName c /\
  exists os',
    lookup_store inserted.2 d name = Some os' /\
    os_generator os' = (os_generator os + 1)%Z /\
    In (KNumber (os_generator os),
        <["id" := JKey (KNumber (os_generator os))]> r) (os_records os') /\
    (forall kv, In kv (os_records os) -> In kv (os_records os')) /\
    length (os_records os') = S (length (os_records os)).
Proof.
  intros Hdb Hne Hd Hup Hos Hfail [[_ Hgen] [Hauto Hbelow]] Hpath Hmax Hid Hunique inserted.
  subst inserted.
  unfold insert. rewrite (getStorage_selected _ _ _ _ _ _ _ Hdb Hne Hd Hup Hos).
  cbn [st_mode st_store]. unfold put. rewrite Hpath, Hid, Hauto, Hfail. simpl.
  assert ((max_generated <? os_generator os)%Z = false) as -> by lia.
  rewrite Hunique. simpl.
  assert ((os_generator os =? 0)%Z = false) as -> by lia. simpl.
  split; [reflexivity|]. split; [reflexivity|].
  eexists. split; [committed_store Hd; reflexivity|]. split; [reflexivity|]. simpl.
  apply store_put_fresh_key.
  intros x Hx Heq. rewrite List.Forall_forall in Hbelow.
  specialize (Hbelow x Hx). rewrite Heq in Hbelow. simpl in Hbelow. lia.
Qed.

(** A fourth task gets key 4 and the three tasks stay. *)
Lemma insert_generated_key_keeps_records_witness :
  let inserted :=
    insert (Example.task "C") (from "tasks" Example.three_tasks_written.1)
           Example.three_tasks_written.2 in
  inserted.1.1 = Resolved (KNumber 4) /\
  exists os',
    lookup_store inserted.2 "exampleIndexedDbClientDb" "tasks" = Some os' /\
    os_generator os' = 5%Z /\
    In (KNumber 4, Example.stored 4 "C") (os_records os') /\
    (forall kv, In kv (os_records Example.three_tasks_store) -> In kv (os_records os')) /\
    length (os_records os') = 4.
Proof.
  intros inserted.
  destruct (insert_generated_key_keeps_records Example.three_tasks_written.1
              Example.three_tasks_written.2
              "exampleIndexedDbClientDb" "tasks" Example.three_tasks_database
              Example.three_tasks_store (Example.task "C"))
    as (Hresolved & _ & os' & Hlookup & Hgen & Hnew & Hold & Hlen).
  - reflexivity.
  - discriminate.
  - vm_compute. reflexivity.
  - reflexivity.
  - vm_compute. reflexivity.
  - reflexivity.
  - repeat split; simpl; try lia; repeat constructor; simpl; lia.
  - reflexivity.
  - vm_compute. discriminate.
  - vm_compute. reflexivity.
  - vm_compute. reflexivity.
  - split; [exact Hresolved|]. exists os'. split; [exact Hlookup|].
    split; [exact Hgen|]. split; [exact Hnew|]. split; [exact Hold|exact Hlen].
Defined.

End Further.
